(** * ESP32 Firebase Wake-on-LAN controller: model of [main.ino]

    The sketch talks to four collaborators: the Firebase RTDB client (through
    the shared [fbdo_general] object), the WakeOnLan sender, the WiFi stack
    and the serial console.  None of them is part of the sketch, so each call
    into them is kept as an uninterpreted request whose answer is chosen by
    the environment.  A function of the sketch becomes a finite decision tree
    over those requests ([prog]); its executions are the traces of requests
    and answers ([exec]), and [run] evaluates a tree against a concrete
    environment.  Line numbers are those of [main.ino]; format strings are
    kept as the source spells them, escapes included. *)

From Stdlib Require Import ZArith List String Ascii Bool Lia PeanoNat.
Import ListNotations.
Local Open Scope string_scope.
Local Open Scope Z_scope.

Set Implicit Arguments.

(** ** Library data seen by the sketch *)

(** [FirebaseJson::jsonDataType], the type tags reported by the JSON helper. *)
Inductive jsonDataType : Type :=
| JSON_UNDEFINED | JSON_OBJECT | JSON_ARRAY | JSON_STRING | JSON_INT
| JSON_FLOAT | JSON_DOUBLE | JSON_BOOL | JSON_NULL.

(** [fb_esp_rtdb_data_type], the payload kinds reported by [dataTypeEnum()]. *)
Inductive fb_esp_rtdb_data_type : Type :=
| fb_esp_rtdb_data_type_undefined
| fb_esp_rtdb_data_type_null
| fb_esp_rtdb_data_type_integer
| fb_esp_rtdb_data_type_float
| fb_esp_rtdb_data_type_double
| fb_esp_rtdb_data_type_boolean
| fb_esp_rtdb_data_type_string
| fb_esp_rtdb_data_type_json
| fb_esp_rtdb_data_type_array
| fb_esp_rtdb_data_type_blob
| fb_esp_rtdb_data_type_file.

Definition jsonDataType_eqb (a b : jsonDataType) : bool :=
  match a, b with
  | JSON_UNDEFINED, JSON_UNDEFINED | JSON_OBJECT, JSON_OBJECT
  | JSON_ARRAY, JSON_ARRAY | JSON_STRING, JSON_STRING | JSON_INT, JSON_INT
  | JSON_FLOAT, JSON_FLOAT | JSON_DOUBLE, JSON_DOUBLE | JSON_BOOL, JSON_BOOL
  | JSON_NULL, JSON_NULL => true
  | _, _ => false
  end.

Definition is_json (t : fb_esp_rtdb_data_type) : bool :=
  match t with fb_esp_rtdb_data_type_json => true | _ => false end.

Definition is_boolean (t : fb_esp_rtdb_data_type) : bool :=
  match t with fb_esp_rtdb_data_type_boolean => true | _ => false end.

(** The fields of [FirebaseJsonData] that the sketch reads. *)
Record FirebaseJsonData : Type := mkJsonData {
  success : bool;
  typeNum : jsonDataType;
  intValue : Z;
  stringValue : string
}.

(** The accessors of the [FirebaseStream] argument of the stream callback. *)
Record FirebaseStream : Type := mkStream {
  dataPath : string;
  dataType : string;
  stringData : string;
  dataTypeEnum : fb_esp_rtdb_data_type;
  boolData : bool
}.

(** An [IPAddress] is four octets; [ip[3] = v] overwrites the last one. *)
Record IPAddress : Type := mkIP { oct0 : Z; oct1 : Z; oct2 : Z; oct3 : Z }.

Definition set_octet3 (ip : IPAddress) (v : Z) : IPAddress :=
  mkIP (oct0 ip) (oct1 ip) (oct2 ip) v.

(** Arguments handed to [Serial.printf] after the format string. *)
Inductive parg : Type :=
| PStr (s : string)
| PInt (n : Z)
| PIP (ip : IPAddress).   (* the text of [ip.toString()] *)

(** ** Requests to the collaborators

    [event R] is a call whose answer has type [R].  Every RTDB request of the
    modelled functions goes through [fbdo_general], and so do the accessors
    [fbdo_*]; [json_*] are the iterator calls on the pointer obtained from
    [fbdo_general.jsonObjectPtr()].  [wol_sendMagicPacket] carries the two
    arguments of [wol_sender.sendMagicPacket] as the sketch passes them.
    [call_sendWOL] is the call of the sketch's own [sendWOL], observed from
    its callers.  The answers of the iterator are the environment's like any
    other: nothing is assumed about what the iterator holds after the reads
    the loop makes through the same [fbdo_general]. *)
Inductive event : Type -> Type :=
| Firebase_ready : event bool
| RTDB_get (path : string) : event bool
| RTDB_getJSON (path : string) : event bool
| RTDB_setBool (path : string) (v : bool) : event bool
| RTDB_setString (path : string) (v : string) : event bool
| RTDB_setJSON (path : string) (jsonText : string) : event bool
| RTDB_deleteNode (path : string) : event bool
| fbdo_httpCode : event Z
| fbdo_dataType : event string
| fbdo_dataTypeEnum : event fb_esp_rtdb_data_type
| fbdo_errorReason : event string
| fbdo_jsonObject_get (key : string) : event (bool * FirebaseJsonData)
| json_iteratorBegin : event nat
| json_iteratorGet (i : nat) : event (jsonDataType * string * string)
| json_iteratorEnd : event unit
| WiFi_localIP : event IPAddress
| wol_sendMagicPacket (mac : string) (ip : IPAddress) : event bool
| delay (ms : Z) : event unit
| Serial_printf (fmt : string) (args : list parg) : event unit
| Serial_println (line : string) : event unit
| call_sendWOL (macAddress : option string) : event unit.

(** ** Programs *)

Inductive prog (A : Type) : Type :=
| Ret (a : A)
| Vis (R : Type) (e : event R) (k : R -> prog A).

Arguments Ret {A} a.
Arguments Vis {A R} e k.

Fixpoint bind {A B : Type} (p : prog A) (f : A -> prog B) : prog B :=
  match p with
  | Ret a => f a
  | Vis e k => Vis e (fun r => bind (k r) f)
  end.

Definition trigger {R : Type} (e : event R) : prog R := Vis e Ret.

Declare Scope prog_scope.
Delimit Scope prog_scope with prog.
Notation "x <- p ;; q" := (bind p (fun x => q))
  (at level 61, p at next level, right associativity) : prog_scope.
Notation "' pat <- p ;; q" := (bind p (fun x => let pat := x in q))
  (at level 61, pat pattern, p at next level, right associativity) : prog_scope.
Notation "p ;; q" := (bind p (fun _ => q))
  (at level 61, right associativity) : prog_scope.
Local Open Scope prog_scope.

(** ** Compile-time configuration of the sketch *)

Definition FIREBASE_BASE_PATH : string := "/wol".
Definition FIREBASE_DIRECT_TRIGGER_PATH : string := "/wol/proxmox".
Definition FIREBASE_QUEUE_PATH : string := "/wol/queue".
Definition DIRECT_TRIGGER_TARGET_MAC : string := "00:00:00:00:00:00".

(** [strlen] of the C string behind a [String]: characters up to the first
    NUL. *)
Fixpoint strlen (s : string) : nat :=
  match s with
  | EmptyString => 0%nat
  | String c s' => if Ascii.eqb c zero then 0%nat else S (strlen s')
  end.

(** A hardware address as the documentation writes it: six pairs of
    hexadecimal digits separated by colons. *)
Definition is_hex_digit (c : ascii) : bool :=
  let n := nat_of_ascii c in
  ((48 <=? n) && (n <=? 57) || (65 <=? n) && (n <=? 70)
   || (97 <=? n) && (n <=? 102))%nat.

Fixpoint is_colon_hex (groups : nat) (s : string) : bool :=
  match groups, s with
  | 1%nat, String a (String b EmptyString) => is_hex_digit a && is_hex_digit b
  | S groups', String a (String b (String c s')) =>
      is_hex_digit a && is_hex_digit b && Ascii.eqb c ":"%char
      && is_colon_hex groups' s'
  | _, _ => false
  end.

Definition valid_mac (s : string) : bool := is_colon_hex 6 s.

(** ** [sendWOL] (lines 281-299) *)

(** The [for (int i=0; i < 3; ++i)] loop, by the number of rounds left. *)
Fixpoint sendWOL_loop (rounds : nat) (macAddress : string)
    (broadcastIP : IPAddress) : prog unit :=
  match rounds with
  | O => Ret tt
  | S rounds' =>
      _ <- trigger (wol_sendMagicPacket macAddress broadcastIP) ;;
      trigger (delay 50) ;;
      sendWOL_loop rounds' macAddress broadcastIP
  end.

(** [macAddress] is a [const char*]: [None] is the null pointer. *)
Definition sendWOL (macAddress : option string) : prog unit :=
  match macAddress with
  | None =>
      trigger (Serial_printf
        "[ERROR] Invalid MAC address format for WOL: %s\n" [PStr "NULL"])
  | Some mac =>
      if negb (Nat.eqb (strlen mac) 17) then
        trigger (Serial_printf
          "[ERROR] Invalid MAC address format for WOL: %s\n" [PStr mac])
      else
        localIP <- trigger WiFi_localIP ;;
        let broadcastIP := set_octet3 localIP 255 in
        trigger (Serial_printf
          "[INFO] Sending WOL Magic Packet to MAC: %s via Broadcast IP: %s\n"
          [PStr mac; PIP broadcastIP]) ;;
        sendWOL_loop 3 mac broadcastIP
  end.

(** ** [firebaseStreamCallback] (lines 302-324) *)

Definition firebaseStreamCallback (data : FirebaseStream) : prog unit :=
  trigger (Serial_printf "[STREAM] Path: %s, Type: %s, Value: %s\n"
    [PStr (dataPath data); PStr (dataType data); PStr (stringData data)]) ;;
  if is_boolean (dataTypeEnum data) && boolData data then
    trigger (Serial_printf "[INFO] Direct WOL Trigger received for path: %s\n"
      [PStr FIREBASE_DIRECT_TRIGGER_PATH]) ;;
    trigger (call_sendWOL (Some DIRECT_TRIGGER_TARGET_MAC)) ;;
    trigger (Serial_printf "  Resetting trigger flag '%s' to false...\n"
      [PStr FIREBASE_DIRECT_TRIGGER_PATH]) ;;
    ok <- trigger (RTDB_setBool FIREBASE_DIRECT_TRIGGER_PATH false) ;;
    if negb ok then
      reason <- trigger fbdo_errorReason ;;
      trigger (Serial_printf "[ERROR] Failed to reset trigger flag: %s\n"
        [PStr reason])
    else
      trigger (Serial_println "  Trigger flag reset successfully.")
  else
    Ret tt.

Section Sketch.

(** The library's [FIREBASE_ERROR_PATH_NOT_EXIST] code and Arduino's
    [String::toInt] are not part of the sketch; [DELETE_COMPLETED_QUEUE_TASKS]
    is the sketch's pruning option ([false] in the shipped configuration). *)
Variable FIREBASE_ERROR_PATH_NOT_EXIST : Z.
Variable toInt : string -> Z.
Variable DELETE_COMPLETED_QUEUE_TASKS : bool.

(** ** [checkAndInitFirebaseStructure] (lines 237-277) *)

(** The test [httpCode() == FIREBASE_ERROR_PATH_NOT_EXIST || dataType() ==
    "null"], with the short circuit of [||]. *)
Definition missing_or_null : prog bool :=
  code <- trigger fbdo_httpCode ;;
  if code =? FIREBASE_ERROR_PATH_NOT_EXIST then Ret true
  else
    ty <- trigger fbdo_dataType ;;
    Ret (String.eqb ty "null").

(** Lines 240-255: check the trigger path, create it when absent.
    [success] is the function's flag as it stands before the block. *)
Definition checkAndInit_trigger (success : bool) : prog bool :=
  trigger (Serial_printf "  Checking path: %s\n"
    [PStr FIREBASE_DIRECT_TRIGGER_PATH]) ;;
  ok <- trigger (RTDB_get FIREBASE_DIRECT_TRIGGER_PATH) ;;
  if negb ok then
    absent <- missing_or_null ;;
    if absent then
      trigger (Serial_printf
        "    Path '%s' missing or null, initializing to 'false'.\n"
        [PStr FIREBASE_DIRECT_TRIGGER_PATH]) ;;
      written <- trigger (RTDB_setBool FIREBASE_DIRECT_TRIGGER_PATH false) ;;
      if negb written then
        reason <- trigger fbdo_errorReason ;;
        trigger (Serial_printf "[ERROR] Failed to initialize '%s': %s\n"
          [PStr FIREBASE_DIRECT_TRIGGER_PATH; PStr reason]) ;;
        Ret false
      else Ret success
    else
      reason <- trigger fbdo_errorReason ;;
      trigger (Serial_printf "[WARN] Error checking '%s': %s\n"
        [PStr FIREBASE_DIRECT_TRIGGER_PATH; PStr reason]) ;;
      Ret success   (* considered non-fatal *)
  else
    trigger (Serial_printf "    Path '%s' exists.\n"
      [PStr FIREBASE_DIRECT_TRIGGER_PATH]) ;;
    Ret success.

(** Lines 257-274: the same for the queue path, created as [{}]. *)
Definition checkAndInit_queue (success : bool) : prog bool :=
  trigger (Serial_printf "  Checking path: %s\n" [PStr FIREBASE_QUEUE_PATH]) ;;
  ok <- trigger (RTDB_get FIREBASE_QUEUE_PATH) ;;
  if negb ok then
    absent <- missing_or_null ;;
    if absent then
      trigger (Serial_printf
        "    Path '%s' missing or null, initializing to empty object {}.\n"
        [PStr FIREBASE_QUEUE_PATH]) ;;
      written <- trigger (RTDB_setJSON FIREBASE_QUEUE_PATH "{}") ;;
      if negb written then
        reason <- trigger fbdo_errorReason ;;
        trigger (Serial_printf "[ERROR] Failed to initialize '%s': %s\n"
          [PStr FIREBASE_QUEUE_PATH; PStr reason]) ;;
        Ret false
      else Ret success
    else
      reason <- trigger fbdo_errorReason ;;
      trigger (Serial_printf "[WARN] Error checking '%s': %s\n"
        [PStr FIREBASE_QUEUE_PATH; PStr reason]) ;;
      Ret success   (* considered non-fatal *)
  else
    trigger (Serial_printf "    Path '%s' exists.\n"
      [PStr FIREBASE_QUEUE_PATH]) ;;
    Ret success.

Definition checkAndInitFirebaseStructure : prog bool :=
  let success := true in
  success <- checkAndInit_trigger success ;;
  success <- checkAndInit_queue success ;;
  Ret success.

(** ** [processWolQueue] (lines 341-483) *)

(** Lines 398-406: the [delay] field as an [int], given the answer of
    [jsonObject().get(taskData, "delay")]; [0] when the field is not there. *)
Definition extract_delay (got : bool) (taskData : FirebaseJsonData) : Z :=
  if got && success taskData then
    let delayMs :=
      if jsonDataType_eqb (typeNum taskData) JSON_INT
         || jsonDataType_eqb (typeNum taskData) JSON_FLOAT
      then intValue taskData
      else toInt (stringValue taskData) in
    if delayMs <? 0 then 0 else delayMs
  else 0.

(** The body of the [for] loop over the iterator (lines 366-455), returning
    [completedTaskIds] as the iteration leaves it. *)
Definition processWolQueue_task (i : nat) (completedTaskIds : list string)
    : prog (list string) :=
  '(type, key, value) <- trigger (json_iteratorGet i) ;;
  if jsonDataType_eqb type JSON_OBJECT then
    let taskId := key in
    let taskPath := FIREBASE_QUEUE_PATH ++ "/" ++ taskId in
    trigger (Serial_printf "  Inspecting Task ID: %s (Path: %s)\n"
      [PStr taskId; PStr taskPath]) ;;
    fetched <- trigger (RTDB_get taskPath) ;;
    if fetched then
      ty <- trigger fbdo_dataTypeEnum ;;
      if is_json ty then
        '(got, taskData) <- trigger (fbdo_jsonObject_get "status") ;;
        if got then
          if success taskData && String.eqb (stringValue taskData) "pending"
          then
            trigger (Serial_printf
              "    Task '%s' has status 'pending'. Processing...\n"
              [PStr taskId]) ;;
            '(gotMac, macData) <- trigger (fbdo_jsonObject_get "mac") ;;
            if gotMac && success macData then
              let macAddress := stringValue macData in
              '(gotDelay, delayData) <- trigger (fbdo_jsonObject_get "delay") ;;
              let delayMs := extract_delay gotDelay delayData in
              trigger (Serial_printf "      MAC: %s, Delay: %d ms\n"
                [PStr macAddress; PInt delayMs]) ;;
              (if delayMs >? 0 then
                 trigger (Serial_printf "      Applying delay of %d ms...\n"
                   [PInt delayMs]) ;;
                 trigger (delay delayMs)
               else Ret tt) ;;
              trigger (call_sendWOL (Some macAddress)) ;;
              trigger (Serial_printf "      Updating status to 'done'...\n"
                []) ;;
              updated <-
                trigger (RTDB_setString (taskPath ++ "/status") "done") ;;
              if updated then
                trigger (Serial_printf
                  "    Task '%s' completed successfully.\n" [PStr taskId]) ;;
                Ret (if DELETE_COMPLETED_QUEUE_TASKS
                     then completedTaskIds ++ [taskId]
                     else completedTaskIds)%list
              else
                reason <- trigger fbdo_errorReason ;;
                trigger (Serial_printf
                  "[ERROR] Task '%s': Failed to update status to 'done': %s\n"
                  [PStr taskId; PStr reason]) ;;
                Ret completedTaskIds
            else
              trigger (Serial_printf
                "[WARN] Task '%s': Failed to extract 'mac' field.\n"
                [PStr taskId]) ;;
              _ <- trigger (RTDB_setString (taskPath ++ "/status")
                     "error_missing_mac") ;;
              Ret completedTaskIds   (* continue *)
          else if negb (success taskData) then
            trigger (Serial_printf
              "[WARN] Task '%s': Could not read 'status' field.\n"
              [PStr taskId]) ;;
            Ret completedTaskIds
          else
            trigger (Serial_printf
              "    Task '%s': Status is '%s' (not 'pending'). Skipping.\n"
              [PStr taskId; PStr (stringValue taskData)]) ;;
            Ret (if DELETE_COMPLETED_QUEUE_TASKS
                    && String.eqb (stringValue taskData) "done"
                 then completedTaskIds ++ [taskId]
                 else completedTaskIds)%list
        else
          trigger (Serial_printf
            "[WARN] Task '%s': Could not get 'status' field data from fetched object.\n"
            [PStr taskId]) ;;
          Ret completedTaskIds
      else
        tyName <- trigger fbdo_dataType ;;
        trigger (Serial_printf
          "[WARN] Fetched data for task '%s' is not JSON (Type: %s). Skipping.\n"
          [PStr taskId; PStr tyName]) ;;
        Ret completedTaskIds
    else
      reason <- trigger fbdo_errorReason ;;
      trigger (Serial_printf
        "[ERROR] Failed to fetch task object for Task ID %s: %s\n"
        [PStr taskId; PStr reason]) ;;
      Ret completedTaskIds
  else
    trigger (Serial_printf
      "[WARN] Skipping item '%s' at index %d in queue - it's not a JSON object.\n"
      [PStr key; PInt (Z.of_nat i)]) ;;
    Ret completedTaskIds.

(** [for (size_t i = 0; i < taskCount; i++)], from index [i] with [remaining]
    iterations to go. *)
Fixpoint processWolQueue_loop (remaining : nat) (i : nat)
    (completedTaskIds : list string) : prog (list string) :=
  match remaining with
  | O => Ret completedTaskIds
  | S remaining' =>
      completedTaskIds' <- processWolQueue_task i completedTaskIds ;;
      processWolQueue_loop remaining' (S i) completedTaskIds'
  end.

(** Lines 463-471: the range-for over [completedTaskIds]. *)
Fixpoint processWolQueue_delete (ids : list string) : prog unit :=
  match ids with
  | [] => Ret tt
  | taskIdToDelete :: rest =>
      let taskPathToDelete := FIREBASE_QUEUE_PATH ++ "/" ++ taskIdToDelete in
      trigger (Serial_printf "  Deleting node: %s\n"
        [PStr taskPathToDelete]) ;;
      deleted <- trigger (RTDB_deleteNode taskPathToDelete) ;;
      (if negb deleted then
         reason <- trigger fbdo_errorReason ;;
         trigger (Serial_printf "[ERROR] Failed to delete task '%s': %s\n"
           [PStr taskIdToDelete; PStr reason])
       else Ret tt) ;;
      processWolQueue_delete rest
  end.

(** Lines 461-472. *)
Definition processWolQueue_prune (completedTaskIds : list string)
    : prog unit :=
  if DELETE_COMPLETED_QUEUE_TASKS
     && negb (Nat.eqb (List.length completedTaskIds) 0)
  then
    trigger (Serial_printf "[QUEUE] Deleting %d completed tasks...\n"
      [PInt (Z.of_nat (List.length completedTaskIds))]) ;;
    processWolQueue_delete completedTaskIds
  else Ret tt.

(** Lines 474-481: the bulk read failed. *)
Definition processWolQueue_readFailed : prog unit :=
  code <- trigger fbdo_httpCode ;;
  treatedAsEmpty <-
    (if code =? 200 then
       ty <- trigger fbdo_dataType ;;
       Ret (String.eqb ty "null")
     else Ret false) ;;
  if treatedAsEmpty then
    trigger (Serial_println
      "  Queue is empty or does not exist (treated as empty).")
  else
    reason <- trigger fbdo_errorReason ;;
    trigger (Serial_printf "[ERROR] Failed to fetch queue data from '%s': %s\n"
      [PStr FIREBASE_QUEUE_PATH; PStr reason]).

Definition processWolQueue : prog unit :=
  ready <- trigger Firebase_ready ;;
  if negb ready then
    trigger (Serial_println
      "[QUEUE] Firebase not ready, skipping queue check.")
  else
    trigger (Serial_printf "[QUEUE] Checking WOL queue at %s...\n"
      [PStr FIREBASE_QUEUE_PATH]) ;;
    ok <- trigger (RTDB_getJSON FIREBASE_QUEUE_PATH) ;;
    if ok then
      taskCount <- trigger json_iteratorBegin ;;
      trigger (Serial_printf "  Found %d potential tasks.\n"
        [PInt (Z.of_nat taskCount)]) ;;
      if Nat.eqb taskCount 0 then
        trigger json_iteratorEnd   (* return: nothing to process *)
      else
        completedTaskIds <- processWolQueue_loop taskCount 0 [] ;;
        trigger json_iteratorEnd ;;
        processWolQueue_prune completedTaskIds ;;
        trigger (Serial_println "[QUEUE] Queue check finished.")
    else
      processWolQueue_readFailed ;;
      trigger (Serial_println "[QUEUE] Queue check finished.").

End Sketch.

(** ** Executions *)

(** One step of an execution: a request and the answer it got. *)
Inductive obs : Type :=
| Obs (R : Type) (e : event R) (r : R).

Arguments Obs {R} e r.

Definition trace : Type := list obs.

(** [exec p t a]: [p] can issue the requests of [t], get the answers of [t],
    and return [a].  Answers are not constrained: every behaviour of the
    collaborators is covered. *)
Fixpoint exec {A : Type} (p : prog A) (t : trace) (a : A) : Prop :=
  match p with
  | Ret a' => t = [] /\ a = a'
  | Vis e k => exists r t', t = Obs e r :: t' /\ exec (k r) t' a
  end.

(** A concrete environment: a state and the answer to each request. *)
Definition handler (S : Type) : Type := forall R : Type, event R -> S -> R * S.

Fixpoint run {S A : Type} (h : handler S) (p : prog A) (s : S)
    : A * S * trace :=
  match p with
  | Ret a => (a, s, [])
  | Vis e k =>
      let '(r, s1) := h _ e s in
      let '(a, s2, t) := run h (k r) s1 in
      (a, s2, Obs e r :: t)
  end.

(** *** The calls of [sendWOL], linked

    [link p] is [p] with every [sendWOL] call replaced by the body of
    [sendWOL]: the sketch as it runs.  [expands t T] says that [T] is the
    caller's trace [t] with an execution of [sendWOL] in place of each
    call. *)
Fixpoint link {A : Type} (p : prog A) : prog A :=
  match p with
  | Ret a => Ret a
  | Vis e k =>
      match e in event R return (R -> prog A) -> prog A with
      | call_sendWOL macAddress => fun k' => bind (sendWOL macAddress) k'
      | e' => fun k' => Vis e' k'
      end (fun r => link (k r))
  end.

Fixpoint expands (t T : trace) : Prop :=
  match t with
  | [] => T = []
  | Obs e r :: t' =>
      match e in event R return R -> Prop with
      | call_sendWOL macAddress => fun _ =>
          exists body T',
            exec (sendWOL macAddress) body tt /\ expands t' T' /\
            T = (body ++ T')%list
      | e' => fun r' => exists T', T = Obs e' r' :: T' /\ expands t' T'
      end r
  end.

(** *** What a trace did *)

(** The MAC of each [sendWOL] call, in order. *)
Definition dispatch_of (o : obs) : option (option string) :=
  match o with
  | Obs e _ =>
      match e with
      | call_sendWOL m => Some m
      | _ => None
      end
  end.

(** The packets handed to the WakeOnLan sender: MAC and address passed. *)
Definition packet_of (o : obs) : option (string * IPAddress) :=
  match o with
  | Obs e _ =>
      match e with
      | wol_sendMagicPacket m ip => Some (m, ip)
      | _ => None
      end
  end.

(** Requests that change the store: writes and deletions. *)
Definition is_store_update (o : obs) : bool :=
  match o with
  | Obs e _ =>
      match e with
      | RTDB_setBool _ _ | RTDB_setString _ _ | RTDB_setJSON _ _
      | RTDB_deleteNode _ => true
      | _ => false
      end
  end.

Definition is_delete (o : obs) : bool :=
  match o with
  | Obs e _ => match e with RTDB_deleteNode _ => true | _ => false end
  end.

(** Requests with an effect outside the device: waits, [sendWOL] calls,
    packets and store updates.  Reads and log lines are left out. *)
Definition is_effect (o : obs) : bool :=
  match o with
  | Obs e _ =>
      match e with
      | delay _ | call_sendWOL _ | wol_sendMagicPacket _ _ => true
      | _ => is_store_update o
      end
  end.

Definition is_log (o : obs) : bool :=
  match o with
  | Obs e _ =>
      match e with
      | Serial_printf _ _ | Serial_println _ => true
      | _ => false
      end
  end.

Fixpoint filter_map {A B : Type} (f : A -> option B) (l : list A) : list B :=
  match l with
  | [] => []
  | x :: l' =>
      match f x with
      | Some y => y :: filter_map f l'
      | None => filter_map f l'
      end
  end.

Definition dispatches (t : trace) : list (option string) :=
  filter_map dispatch_of t.
Definition packets (t : trace) : list (string * IPAddress) :=
  filter_map packet_of t.
Definition store_updates (t : trace) : trace := filter is_store_update t.
Definition effects (t : trace) : trace := filter is_effect t.
Definition logs (t : trace) : trace := filter is_log t.

(** The answer to the first [jsonObject().get(_, key)] of a trace. *)
Fixpoint field_read (key : string) (t : trace)
    : option (bool * FirebaseJsonData) :=
  match t with
  | [] => None
  | Obs e r :: t' =>
      match e in event R return R -> option (bool * FirebaseJsonData) with
      | fbdo_jsonObject_get k =>
          fun r => if String.eqb k key then Some r else field_read key t'
      | _ => fun _ => field_read key t'
      end r
  end.

(** *** About [sendWOL] *)

(** The guard of [sendWOL] (line 282): a null pointer, or a length other
    than 17. *)
Definition sendWOL_rejects (macAddress : option string) : bool :=
  match macAddress with
  | None => true
  | Some mac => negb (Nat.eqb (strlen mac) 17)
  end.

(** The [sendWOL] calls of a trace that pass the guard. *)
Definition accepted_calls (t : trace) : nat :=
  List.length (filter (fun m => negb (sendWOL_rejects m)) (dispatches t)).

(** The line it logs when the guard fires (line 283). *)
Definition sendWOL_error_line (macAddress : option string) : obs :=
  Obs (Serial_printf "[ERROR] Invalid MAC address format for WOL: %s\n"
         [PStr match macAddress with Some mac => mac | None => "NULL" end]) tt.

(** ** Reading a pass of [processWolQueue] *)

(** The test of lines 382-383 on the answer for [status]. *)
Definition reads_pending (r : bool * FirebaseJsonData) : bool :=
  fst r && (success (snd r) && String.eqb (stringValue (snd r)) "pending").

(** The test of line 390 (and 399) on the answer for a field. *)
Definition readable (r : bool * FirebaseJsonData) : bool :=
  fst r && success (snd r).

Definition task_path (taskId : string) : string :=
  FIREBASE_QUEUE_PATH ++ "/" ++ taskId.

Definition status_path (taskId : string) : string :=
  task_path taskId ++ "/status".

(** The [delay] field read as an [int] (lines 400-404), before clamping. *)
Definition coerced_delay (toInt : string -> Z) (taskData : FirebaseJsonData) : Z :=
  if jsonDataType_eqb (typeNum taskData) JSON_INT
     || jsonDataType_eqb (typeNum taskData) JSON_FLOAT
  then intValue taskData
  else toInt (stringValue taskData).

(** The blocking wait of lines 412-415. *)
Definition wait_of (delayMs : Z) : trace :=
  if delayMs >? 0 then [Obs (delay delayMs) tt] else [].

(** The key the iterator reported for the entry an iteration works on. *)
Definition entry_key (t : trace) : option string :=
  match t with
  | Obs e r :: _ =>
      match e in event R return R -> option string with
      | json_iteratorGet _ => fun r => Some (snd (fst r))
      | _ => fun _ => None
      end r
  | [] => None
  end.

(** The number of entries [iteratorBegin] reported, if the pass got there. *)
Fixpoint iterator_count (t : trace) : option nat :=
  match t with
  | [] => None
  | Obs e r :: t' =>
      match e in event R return R -> option nat with
      | json_iteratorBegin => fun r => Some r
      | _ => fun _ => iterator_count t'
      end r
  end.

(** The paths of the deletion requests of a trace, in order. *)
Definition delete_of (o : obs) : option string :=
  match o with
  | Obs e _ => match e with RTDB_deleteNode p => Some p | _ => None end
  end.

Definition deletions (t : trace) : list string := filter_map delete_of t.

(** The answer to the first bulk read of the collection. *)
Fixpoint bulk_read (t : trace) : option bool :=
  match t with
  | [] => None
  | Obs e r :: t' =>
      match e in event R return R -> option bool with
      | RTDB_getJSON _ => fun r => Some r
      | _ => fun _ => bulk_read t'
      end r
  end.

(** The answer to the first [RTDB.get] on [path]. *)
Fixpoint path_read (path : string) (t : trace) : option bool :=
  match t with
  | [] => None
  | Obs e r :: t' =>
      match e in event R return R -> option bool with
      | RTDB_get p =>
          fun r => if String.eqb p path then Some r else path_read path t'
      | _ => fun _ => path_read path t'
      end r
  end.

(** The first answers of [httpCode()] and [dataType()]. *)
Fixpoint http_code (t : trace) : option Z :=
  match t with
  | [] => None
  | Obs e r :: t' =>
      match e in event R return R -> option Z with
      | fbdo_httpCode => fun r => Some r
      | _ => fun _ => http_code t'
      end r
  end.

Fixpoint data_type (t : trace) : option string :=
  match t with
  | [] => None
  | Obs e r :: t' =>
      match e in event R return R -> option string with
      | fbdo_dataType => fun r => Some r
      | _ => fun _ => data_type t'
      end r
  end.

(** A trace reports its path missing (the HTTP code says so) or null (the
    payload type says so). *)
Definition reports_absent (pathNotExist : Z) (t : trace) : bool :=
  match http_code t with
  | Some code =>
      (code =? pathNotExist)
      || match data_type t with
         | Some ty => String.eqb ty "null"
         | None => false
         end
  | None => false
  end.

(** The paths of the [RTDB.get] requests of a trace, in order. *)
Definition get_of (o : obs) : option string :=
  match o with
  | Obs e _ => match e with RTDB_get p => Some p | _ => None end
  end.

Definition reads (t : trace) : list string := filter_map get_of t.

(** The answer a store update got. *)
Definition update_ok (o : obs) : bool :=
  match o with
  | Obs e r =>
      match e in event R return R -> bool with
      | RTDB_setBool _ _ | RTDB_setString _ _ | RTDB_setJSON _ _
      | RTDB_deleteNode _ => fun r => r
      | _ => fun _ => true
      end r
  end.

(** *** The per-task failures of an iteration *)

(** The type tag the iterator reported for the entry. *)
Definition entry_type (t : trace) : option jsonDataType :=
  match t with
  | Obs e r :: _ =>
      match e in event R return R -> option jsonDataType with
      | json_iteratorGet _ => fun r => Some (fst (fst r))
      | _ => fun _ => None
      end r
  | [] => None
  end.

(** The payload kind reported for the fetched task. *)
Fixpoint fetched_type (t : trace) : option fb_esp_rtdb_data_type :=
  match t with
  | [] => None
  | Obs e r :: t' =>
      match e in event R return R -> option fb_esp_rtdb_data_type with
      | fbdo_dataTypeEnum => fun r => Some r
      | _ => fun _ => fetched_type t'
      end r
  end.

(** The entry is not an object: the iterator says so (line 368 fails), or
    what was fetched for it is not one (line 379 fails). *)
Definition not_object (t : trace) : bool :=
  match entry_type t with
  | Some ty => negb (jsonDataType_eqb ty JSON_OBJECT)
  | None => false
  end
  || match fetched_type t with
     | Some ty => negb (is_json ty)
     | None => false
     end.

(** The fetch of the task failed (line 376 fails). *)
Definition fetch_failed (t : trace) : bool :=
  match entry_key t with
  | Some key =>
      match path_read (task_path key) t with
      | Some ok => negb ok
      | None => false
      end
  | None => false
  end.

(** The [status] field could not be read (lines 382-383, 431, 441). *)
Definition status_unreadable (t : trace) : bool :=
  match field_read "status" t with
  | Some rs => negb (readable rs)
  | None => false
  end.

(** A status write was refused (lines 394, 422). *)
Definition write_failed (t : trace) : bool :=
  negb (forallb update_ok (store_updates t)).

(** The failures after which the task is skipped. *)
Definition skipping_failure (t : trace) : bool :=
  not_object t || fetch_failed t || status_unreadable t.

Definition per_task_failure (t : trace) : bool :=
  skipping_failure t || write_failed t.

(** *** What makes an iteration mark its task for deletion *)

(** The write of "done" was accepted (line 422 succeeds). *)
Definition done_committed (t : trace) : bool :=
  existsb
    (fun o =>
       match o with
       | Obs e r =>
           match e in event R return R -> bool with
           | RTDB_setString _ v => fun r => String.eqb v "done" && r
           | _ => fun _ => false
           end r
       end) t.

(** The status was read and is already "done" (line 437). *)
Definition found_done (t : trace) : bool :=
  match field_read "status" t with
  | Some rs => readable rs && String.eqb (stringValue (snd rs)) "done"
  | None => false
  end.

(** The requests for one id in the deletion loop (lines 464-470), given the
    answer to the deletion and the error text read after a refusal. *)
Definition delete_step (x : string * (bool * string)) : trace :=
  let '(taskIdToDelete, (deleted, reason)) := x in
  ([ Obs (Serial_printf "  Deleting node: %s\n"
            [PStr (task_path taskIdToDelete)]) tt;
     Obs (RTDB_deleteNode (task_path taskIdToDelete)) deleted ]
   ++ (if deleted then []
       else [ Obs fbdo_errorReason reason;
              Obs (Serial_printf "[ERROR] Failed to delete task '%s': %s\n"
                     [PStr taskIdToDelete; PStr reason]) tt ]))%list.

Section Passes.

Variable toInt : string -> Z.
Variable DELETE_COMPLETED_QUEUE_TASKS : bool.

(** What precedes the loop in a pass that reaches it (lines 342-354). *)
Definition pass_prelude (taskCount : nat) : trace :=
  [ Obs Firebase_ready true;
    Obs (Serial_printf "[QUEUE] Checking WOL queue at %s...\n"
           [PStr FIREBASE_QUEUE_PATH]) tt;
    Obs (RTDB_getJSON FIREBASE_QUEUE_PATH) true;
    Obs json_iteratorBegin taskCount;
    Obs (Serial_printf "  Found %d potential tasks.\n"
           [PInt (Z.of_nat taskCount)]) tt ].

(** [iteration_in_pass T n j before t after marked]: the pass [T] over [n]
    entries is [before], then the iteration [t] for index [j], then [after].
    [before] is the prelude and the iterations for [0 .. j-1]; [after] is the
    iterations for [j+1 .. n-1], which leave [marked] as [completedTaskIds],
    then the release of the iterator, the pruning of [marked] and the closing
    log line. *)
Definition iteration_in_pass (T : trace) (n j : nat)
    (before t after : trace) (marked : list string) : Prop :=
  T = (before ++ t ++ after)%list /\
  exists earlier ids ids' later pruning,
    before = (pass_prelude n ++ earlier)%list /\
    exec (processWolQueue_loop toInt DELETE_COMPLETED_QUEUE_TASKS j 0 [])
      earlier ids /\
    exec (processWolQueue_task toInt DELETE_COMPLETED_QUEUE_TASKS j ids)
      t ids' /\
    exec (processWolQueue_loop toInt DELETE_COMPLETED_QUEUE_TASKS
            (n - S j) (S j) ids') later marked /\
    exec (processWolQueue_prune DELETE_COMPLETED_QUEUE_TASKS marked)
      pruning tt /\
    after = (later ++ Obs json_iteratorEnd tt :: pruning
             ++ [Obs (Serial_println "[QUEUE] Queue check finished.") tt])%list.

End Passes.

(** ** A concrete environment

    A small store and client to run the sketch against: one environment
    among those [exec] ranges over, in which a scenario can be evaluated and
    in which it can be said what a committed write means for a later pass.
    The store holds the trigger flag and the task collection and keeps what
    is written to it (an empty collection included); a request that [w_fail]
    selects gets no answer from the server.  The client keeps the payload of
    the last read and the entries collected by [iteratorBegin]. *)

Inductive jval : Type :=
| JStr (s : string)
| JNum (n : Z)
| JBoolean (b : bool).

Inductive node : Type :=
| Leaf (v : jval)
| Obj (fields : list (string * jval)).

Inductive payload : Type :=
| PNull
| PScalar (v : jval)
| PObject (fields : list (string * jval))
| PCollection (entries : list (string * node)).

(** The kinds of request the server can fail to answer. *)
Inductive op : Type := Read | Write | Delete.

Definition op_eqb (a b : op) : bool :=
  match a, b with
  | Read, Read | Write, Write | Delete, Delete => true
  | _, _ => false
  end.

Record World : Type := mkWorld {
  w_ready : bool;
  w_ip : IPAddress;
  w_flag : option bool;
  w_queue : option (list (string * node));
  w_fail : op -> string -> bool;
  w_http : Z;
  w_payload : payload;
  w_iter : list (string * node)
}.

Fixpoint assoc {A : Type} (k : string) (l : list (string * A)) : option A :=
  match l with
  | [] => None
  | (k', a) :: l' => if String.eqb k k' then Some a else assoc k l'
  end.

(** The entry whose path (built by [mk]) is [p]. *)
Fixpoint find_path {A : Type} (mk : string -> string) (p : string)
    (l : list (string * A)) : option (string * A) :=
  match l with
  | [] => None
  | (k, a) :: l' =>
      if String.eqb (mk k) p then Some (k, a) else find_path mk p l'
  end.

Fixpoint set_field (k : string) (v : jval) (l : list (string * jval))
    : list (string * jval) :=
  match l with
  | [] => [(k, v)]
  | (k', v') :: l' =>
      if String.eqb k k' then (k, v) :: l' else (k', v') :: set_field k v l'
  end.

(** Write [status := v] into the task whose status path is [p]. *)
Fixpoint set_status (p : string) (v : string) (q : list (string * node))
    : list (string * node) :=
  match q with
  | [] => []
  | (k, n) :: q' =>
      if String.eqb (status_path k) p then
        match n with
        | Obj fields => (k, Obj (set_field "status" (JStr v) fields)) :: q'
        | Leaf _ => (k, Obj [("status", JStr v)]) :: q'
        end
      else (k, n) :: set_status p v q'
  end.

Fixpoint remove_path (p : string) (q : list (string * node))
    : list (string * node) :=
  match q with
  | [] => []
  | (k, n) :: q' =>
      if String.eqb (task_path k) p then q' else (k, n) :: remove_path p q'
  end.

(** What the store holds at [p]. *)
Definition read_path (w : World) (p : string) : payload :=
  if String.eqb p FIREBASE_DIRECT_TRIGGER_PATH then
    match w_flag w with
    | Some b => PScalar (JBoolean b)
    | None => PNull
    end
  else if String.eqb p FIREBASE_QUEUE_PATH then
    match w_queue w with
    | Some q => PCollection q
    | None => PNull
    end
  else
    match w_queue w with
    | Some q =>
        match find_path task_path p q with
        | Some (_, Leaf v) => PScalar v
        | Some (_, Obj fields) => PObject fields
        | None => PNull
        end
    | None => PNull
    end.

Definition data_of (v : jval) : FirebaseJsonData :=
  match v with
  | JStr s => mkJsonData true JSON_STRING 0 s
  | JNum n => mkJsonData true JSON_INT n ""
  | JBoolean b =>
      mkJsonData true JSON_BOOL (if b then 1 else 0)
        (if b then "true" else "false")
  end.

Definition no_data : FirebaseJsonData := mkJsonData false JSON_UNDEFINED 0 "".

Definition type_of_val (v : jval) : jsonDataType :=
  match v with
  | JStr _ => JSON_STRING
  | JNum _ => JSON_INT
  | JBoolean _ => JSON_BOOL
  end.

Definition payload_type (p : payload) : fb_esp_rtdb_data_type :=
  match p with
  | PNull => fb_esp_rtdb_data_type_null
  | PScalar (JStr _) => fb_esp_rtdb_data_type_string
  | PScalar (JNum _) => fb_esp_rtdb_data_type_integer
  | PScalar (JBoolean _) => fb_esp_rtdb_data_type_boolean
  | PObject _ | PCollection _ => fb_esp_rtdb_data_type_json
  end.

Definition payload_type_name (p : payload) : string :=
  match p with
  | PNull => "null"
  | PScalar (JStr _) => "string"
  | PScalar (JNum _) => "int"
  | PScalar (JBoolean _) => "boolean"
  | PObject _ | PCollection _ => "json"
  end.

Definition with_response (w : World) (http : Z) (p : payload) : World :=
  mkWorld (w_ready w) (w_ip w) (w_flag w) (w_queue w) (w_fail w) http p
    (w_iter w).

Definition with_store (w : World) (flag : option bool)
    (queue : option (list (string * node))) : World :=
  mkWorld (w_ready w) (w_ip w) flag queue (w_fail w) 200 PNull (w_iter w).

Definition with_iter (w : World) (it : list (string * node)) : World :=
  mkWorld (w_ready w) (w_ip w) (w_flag w) (w_queue w) (w_fail w) (w_http w)
    (w_payload w) it.

(** A read: no answer on a failing path; a null payload when nothing is
    there; with [jsonOnly] (for [getJSON]) anything but an object is refused
    as well. *)
Definition cloud_read (jsonOnly : bool) (p : string) (w : World)
    : bool * World :=
  if w_fail w Read p then (false, with_response w 503 PNull)
  else
    let v := read_path w p in
    match v with
    | PNull => (false, with_response w 200 PNull)
    | PScalar _ => (negb jsonOnly, with_response w 200 v)
    | PObject _ | PCollection _ => (true, with_response w 200 v)
    end.

Definition cloud_write (o : op) (p : string) (w : World)
    (flag : option bool) (queue : option (list (string * node)))
    : bool * World :=
  if w_fail w o p then (false, with_response w 503 PNull)
  else (true, with_store w flag queue).

Definition cloud : handler World :=
  fun R e =>
    match e in event R return World -> R * World with
    | Firebase_ready => fun w => (w_ready w, w)
    | RTDB_get p => cloud_read false p
    | RTDB_getJSON p => cloud_read true p
    | RTDB_setBool p v => fun w =>
        cloud_write Write p w
          (if String.eqb p FIREBASE_DIRECT_TRIGGER_PATH then Some v
           else w_flag w)
          (w_queue w)
    | RTDB_setString p v => fun w =>
        cloud_write Write p w (w_flag w)
          (option_map (set_status p v) (w_queue w))
    | RTDB_setJSON p _ => fun w =>
        cloud_write Write p w (w_flag w)
          (if String.eqb p FIREBASE_QUEUE_PATH then Some [] else w_queue w)
    | RTDB_deleteNode p => fun w =>
        cloud_write Delete p w (w_flag w)
          (option_map (remove_path p) (w_queue w))
    | fbdo_httpCode => fun w => (w_http w, w)
    | fbdo_dataType => fun w => (payload_type_name (w_payload w), w)
    | fbdo_dataTypeEnum => fun w => (payload_type (w_payload w), w)
    | fbdo_errorReason => fun w =>
        (if w_http w =? 200 then "" else "connection lost", w)
    | fbdo_jsonObject_get key => fun w =>
        match w_payload w with
        | PObject fields =>
            match assoc key fields with
            | Some v => ((true, data_of v), w)
            | None => ((false, no_data), w)
            end
        | _ => ((false, no_data), w)
        end
    | json_iteratorBegin => fun w =>
        match w_payload w with
        | PCollection entries => (List.length entries, with_iter w entries)
        | _ => (0%nat, with_iter w [])
        end
    | json_iteratorGet i => fun w =>
        match nth_error (w_iter w) i with
        | Some (k, Obj _) => ((JSON_OBJECT, k, "{...}"), w)
        | Some (k, Leaf v) => ((type_of_val v, k, stringValue (data_of v)), w)
        | None => ((JSON_UNDEFINED, "", ""), w)
        end
    | json_iteratorEnd => fun w => (tt, with_iter w [])
    | WiFi_localIP => fun w => (w_ip w, w)
    | wol_sendMagicPacket _ _ => fun w => (true, w)
    | delay _ => fun w => (tt, w)
    | Serial_printf _ _ => fun w => (tt, w)
    | Serial_println _ => fun w => (tt, w)
    | call_sendWOL _ => fun w => (tt, w)
    end.

(** A store with the given flag and collection, everything reachable. *)
Definition world_of (flag : option bool)
    (queue : option (list (string * node))) : World :=
  mkWorld true (mkIP 192 168 1 42) flag queue (fun _ _ => false) 200 PNull [].

Definition failing (requests : list (op * string)) (w : World) : World :=
  mkWorld (w_ready w) (w_ip w) (w_flag w) (w_queue w)
    (fun o p =>
       existsb (fun r => op_eqb o (fst r) && String.eqb p (snd r)) requests)
    (w_http w) (w_payload w) (w_iter w).

(** Every request gets its answer. *)
Definition reachable (w : World) : Prop := forall o p, w_fail w o p = false.

(** The trace, and the store left behind, of a program run in a world. *)
Definition trace_in {A : Type} (w : World) (p : prog A) : trace :=
  snd (run cloud p w).
Definition world_after {A : Type} (w : World) (p : prog A) : World :=
  snd (fst (run cloud p w)).

(** ** A scenario to run

    Four entries: a pending task with a delay, a pending task without [mac],
    a task already done, and an entry that is not an object. *)

Definition demo_toInt (s : string) : Z := 0.

Definition demo_queue : list (string * node) :=
  [ ("t1", Obj [ ("mac", JStr "AA:BB:CC:DD:EE:FF"); ("delay", JNum 1000);
                 ("status", JStr "pending") ]);
    ("t2", Obj [ ("status", JStr "pending") ]);
    ("t3", Obj [ ("mac", JStr "11:22:33:44:55:66"); ("status", JStr "done") ]);
    ("note", Leaf (JStr "hello")) ].

Definition demo_world : World := world_of (Some false) (Some demo_queue).

(** One pass over the scenario without pruning, and its parts. *)
Definition demo_pass : trace :=
  Eval vm_compute in trace_in demo_world (processWolQueue demo_toInt false).

Definition demo_t1 : trace := Eval vm_compute in firstn 15 (skipn 5 demo_pass).
Definition demo_t2 : trace := Eval vm_compute in firstn 9 (skipn 20 demo_pass).
Definition demo_t3 : trace := Eval vm_compute in firstn 6 (skipn 29 demo_pass).
Definition demo_t4 : trace := Eval vm_compute in firstn 2 (skipn 35 demo_pass).
Definition demo_closing : trace := Eval vm_compute in skipn 37 demo_pass.

(** The scenario when the server cannot be reached for the bulk read. *)
Definition demo_unreachable : trace :=
  Eval vm_compute in
    trace_in (failing [(Read, FIREBASE_QUEUE_PATH)] demo_world)
      (processWolQueue demo_toInt false).

(** The bootstrapper on a store with nothing in it, and once more after. *)
Definition demo_notExist : Z := -1.

Definition demo_boot : trace :=
  Eval vm_compute in
    trace_in (world_of None None) (checkAndInitFirebaseStructure demo_notExist).

Definition demo_reboot : trace :=
  Eval vm_compute in
    trace_in
      (world_after (world_of None None)
         (checkAndInitFirebaseStructure demo_notExist))
      (checkAndInitFirebaseStructure demo_notExist).

(** The scenario with pruning on, the deletion of [t1] being refused. *)
Definition demo_pruned : trace :=
  Eval vm_compute in
    trace_in (failing [(Delete, "/wol/queue/t1")] demo_world)
      (processWolQueue demo_toInt true).

Definition demo_pruning : trace :=
  Eval vm_compute in firstn 7 (skipn 38 demo_pruned).

(** A collection where things go wrong: an entry that is no object, a task
    that cannot be fetched, a task without [status], a task whose "done" is
    refused, and a healthy task after them. *)
Definition faulty_queue : list (string * node) :=
  [ ("junk", Leaf (JNum 7));
    ("a", Obj [ ("mac", JStr "AA:AA:AA:AA:AA:AA"); ("status", JStr "pending") ]);
    ("b", Obj [ ("mac", JStr "BB:BB:BB:BB:BB:BB") ]);
    ("c", Obj [ ("mac", JStr "CC:CC:CC:CC:CC:CC"); ("status", JStr "pending") ]);
    ("d", Obj [ ("mac", JStr "DD:DD:DD:DD:DD:DD"); ("status", JStr "pending") ]) ].

Definition faulty_world : World :=
  failing [ (Read, "/wol/queue/a"); (Write, "/wol/queue/c/status") ]
    (world_of (Some false) (Some faulty_queue)).

Definition faulty_pass : trace :=
  Eval vm_compute in trace_in faulty_world (processWolQueue demo_toInt false).

Definition faulty_junk : trace := Eval vm_compute in firstn 2 (skipn 5 faulty_pass).
Definition faulty_a : trace := Eval vm_compute in firstn 5 (skipn 7 faulty_pass).
Definition faulty_b : trace := Eval vm_compute in firstn 6 (skipn 12 faulty_pass).
Definition faulty_c : trace := Eval vm_compute in firstn 14 (skipn 18 faulty_pass).
Definition faulty_d : trace := Eval vm_compute in firstn 13 (skipn 32 faulty_pass).

(** *** Following one task through the store *)

(** What the store holds for the task [key]. *)
Definition stored (w : World) (key : string) : option node :=
  match w_queue w with
  | Some q => option_map snd (find_path task_path (task_path key) q)
  | None => None
  end.

(** The task has left the pending state for good: its stored status is
    "done", or it is not in the store any more. *)
Definition done_or_gone (w : World) (key : string) : Prop :=
  match stored w key with
  | Some (Obj fields) => assoc "status" fields = Some (JStr "done")
  | Some (Leaf _) => False
  | None => True
  end.

(** The task is stored with status "pending". *)
Definition pending_in (w : World) (key : string) : Prop :=
  exists fields,
    stored w key = Some (Obj fields) /\
    assoc "status" fields = Some (JStr "pending").

(** The ids of the collection are distinct, as the keys of an object are. *)
Definition distinct_ids (w : World) : Prop :=
  match w_queue w with
  | Some q => NoDup (map fst q)
  | None => True
  end.

(** The trace holds an accepted write of "done" to the status of [key]. *)
Definition commits (key : string) (t : trace) : bool :=
  existsb
    (fun o =>
       match o with
       | Obs e r =>
           match e in event R return R -> bool with
           | RTDB_setString p v =>
               fun r => String.eqb p (status_path key) && String.eqb v "done" && r
           | _ => fun _ => false
           end r
       end) t.

(** The ids of the entries during whose iteration [sendWOL] was called; an
    iteration starts when the iterator hands out its entry. *)
Fixpoint dispatched_keys (current : string) (t : trace) : list string :=
  match t with
  | [] => []
  | Obs e r :: t' =>
      match e in event R return R -> list string with
      | json_iteratorGet _ => fun r => dispatched_keys (snd (fst r)) t'
      | call_sendWOL _ => fun _ => current :: dispatched_keys current t'
      | _ => fun _ => dispatched_keys current t'
      end r
  end.

(** The pass that follows the scenario's first pass, nothing else having
    touched the store in between. *)
Definition demo_second_pass : trace :=
  Eval vm_compute in
    trace_in (world_after demo_world (processWolQueue demo_toInt false))
      (processWolQueue demo_toInt false).

(** ** More ways to read a trace *)

(** The indices asked of the iterator, in order. *)
Definition get_index_of (o : obs) : option nat :=
  match o with
  | Obs e _ => match e with json_iteratorGet i => Some i | _ => None end
  end.

Definition iterator_gets (t : trace) : list nat := filter_map get_index_of t.

Definition is_iteratorBegin (o : obs) : bool :=
  match o with
  | Obs e _ => match e with json_iteratorBegin => true | _ => false end
  end.

Definition is_iteratorEnd (o : obs) : bool :=
  match o with
  | Obs e _ => match e with json_iteratorEnd => true | _ => false end
  end.

(** The keys the iterator reported, in order. *)
Definition reported_key_of (o : obs) : option string :=
  match o with
  | Obs e r =>
      match e in event R return R -> option string with
      | json_iteratorGet _ => fun r => Some (snd (fst r))
      | _ => fun _ => None
      end r
  end.

Definition reported_keys (t : trace) : list string :=
  filter_map reported_key_of t.

(** A store update that a pass over the entries [keys] may make: one of the
    two status values written to the status of one of them, or the deletion
    of one of them. *)
Definition queue_update (keys : list string) (o : obs) : bool :=
  match o with
  | Obs e _ =>
      match e with
      | RTDB_setString p v =>
          existsb (fun k => String.eqb p (status_path k)) keys
          && (String.eqb v "done" || String.eqb v "error_missing_mac")
      | RTDB_deleteNode p =>
          existsb (fun k => String.eqb p (task_path k)) keys
      | _ => false
      end
  end.

(** The attempts to write "done", accepted or not. *)
Definition is_done_write (o : obs) : bool :=
  match o with
  | Obs e _ =>
      match e with
      | RTDB_setString _ v => String.eqb v "done"
      | _ => false
      end
  end.

(** Requests that go to the database, reads included. *)
Definition is_rtdb_request (o : obs) : bool :=
  match o with
  | Obs e _ =>
      match e with
      | RTDB_get _ | RTDB_getJSON _ | RTDB_setBool _ _ | RTDB_setString _ _
      | RTDB_setJSON _ _ | RTDB_deleteNode _ => true
      | _ => false
      end
  end.

Definition rtdb_requests (t : trace) : trace := filter is_rtdb_request t.

(** The time spent in [delay], in milliseconds. *)
Definition delay_of (o : obs) : Z :=
  match o with
  | Obs e _ => match e with delay ms => ms | _ => 0 end
  end.

Definition total_delay (t : trace) : Z :=
  fold_right (fun o acc => delay_of o + acc) 0 t.

(** The closing line of a pass (line 482). *)
Definition pass_closing : obs :=
  Obs (Serial_println "[QUEUE] Queue check finished.") tt.

(** The pass that finds Firebase not ready (lines 342-345). *)
Definition pass_not_ready : trace :=
  [ Obs Firebase_ready false;
    Obs (Serial_println "[QUEUE] Firebase not ready, skipping queue check.") tt ].

(** The number of entries of the pass: what [iteratorBegin] reported, [0]
    when the pass did not get there. *)
Definition entries_of (t : trace) : nat :=
  match iterator_count t with
  | Some n => n
  | None => 0%nat
  end.

(** *** Scenarios with [sendWOL] linked in *)

(** The scenario's pass as it runs. *)
Definition demo_linked_pass : trace :=
  Eval vm_compute in
    snd (run cloud (link (processWolQueue demo_toInt false)) demo_world).




(** ** The store, from the trace

    What the store of the concrete environment holds after a trace: its
    accepted updates, applied in order. *)

Definition store : Type := (option bool * option (list (string * node)))%type.

Definition store_of (w : World) : store := (w_flag w, w_queue w).

Definition apply_update (s : store) (o : obs) : store :=
  match o with
  | Obs e r =>
      match e in event R return R -> store with
      | RTDB_setBool p v => fun r =>
          if r && String.eqb p FIREBASE_DIRECT_TRIGGER_PATH
          then (Some v, snd s) else s
      | RTDB_setString p v => fun r =>
          if r then (fst s, option_map (set_status p v) (snd s)) else s
      | RTDB_setJSON p _ => fun r =>
          if r && String.eqb p FIREBASE_QUEUE_PATH
          then (fst s, Some []) else s
      | RTDB_deleteNode p => fun r =>
          if r then (fst s, option_map (remove_path p) (snd s)) else s
      | _ => fun _ => s
      end r
  end.

Definition replay (t : trace) (s : store) : store := fold_left apply_update t s.

(** The field [f] of the task [key], as stored. *)
Definition field_in (s : store) (key f : string) : option jval :=
  match snd s with
  | Some q =>
      match find_path task_path (task_path key) q with
      | Some (_, Obj fields) => assoc f fields
      | _ => None
      end
  | None => None
  end.

(** The ids of the collection, in order. *)
Definition ids_in (s : store) : option (list string) :=
  option_map (map fst) (snd s).

(** A stored node that is a task with status "pending". *)
Definition pending_node (nd : node) : bool :=
  match nd with
  | Obj fields =>
      match assoc "status" fields with
      | Some (JStr s) => String.eqb s "pending"
      | _ => false
      end
  | Leaf _ => false
  end.

(** * Boot and the main loop: [setup], [loop] and the functions they call

    The functions below talk to more of the board than the ones above: the
    millisecond counter, the WiFi station, the NTP client and the Firebase
    session.  Their requests are the type [board]; a request of the
    functions above is carried over by [sketch], and a call of one of the
    sketch's own functions is observed from its caller, as [call_sendWOL]
    was.  The [while] loops of these functions need not end, so each takes
    the number of times its condition may be evaluated ([fuel]) and answers
    [None] when that is used up with the loop still running. *)

(** ** Library data *)

(** [wl_status_t] of the WiFi library; the sketch only tests for
    [WL_CONNECTED]. *)
Inductive wl_status_t : Type :=
| WL_NO_SHIELD | WL_IDLE_STATUS | WL_NO_SSID_AVAIL | WL_SCAN_COMPLETED
| WL_CONNECTED | WL_CONNECT_FAILED | WL_CONNECTION_LOST | WL_DISCONNECTED.

Definition is_connected (s : wl_status_t) : bool :=
  match s with WL_CONNECTED => true | _ => false end.

Inductive wifi_mode_t : Type := WIFI_OFF | WIFI_STA | WIFI_AP | WIFI_AP_STA.

(** [struct tm] of the C library. *)
Record tm : Type := mk_tm {
  tm_sec : Z; tm_min : Z; tm_hour : Z; tm_mday : Z; tm_mon : Z; tm_year : Z;
  tm_wday : Z; tm_yday : Z; tm_isdst : Z
}.

(** The token states of the Firebase client, and what the sketch's token
    callback reads of a [TokenInfo]. *)
Inductive firebase_auth_token_status : Type :=
| token_status_uninitialized | token_status_on_initialize
| token_status_on_signing | token_status_on_request | token_status_on_refresh
| token_status_ready | token_status_error.

Record TokenInfo : Type := mkTokenInfo {
  info_status : firebase_auth_token_status;
  info_error_message : string
}.

(** The fields of [FirebaseConfig] and [FirebaseAuth] that the sketch sets. *)
Record FirebaseConfig : Type := mkConfig {
  api_key : string;
  database_url : string;
  token_status_callback : TokenInfo -> prog unit
}.

Record FirebaseAuth : Type := mkAuth {
  user_email : string;
  user_password : string
}.

(** ** Configuration (lines 31-60) *)

Definition WIFI_SSID : string := "<ssid>".
Definition WIFI_PASSWORD : string := "<password>".
Definition FIREBASE_API_KEY : string := "<api_key>".
Definition FIREBASE_DATABASE_URL : string := "<rdb_url>".
Definition FIREBASE_USER_EMAIL : string := "<email>".
Definition FIREBASE_USER_PASSWORD : string := "<password>".
Definition NTP_SERVER_1 : string := "pool.ntp.org".
Definition NTP_SERVER_2 : string := "time.nist.gov".
Definition GMT_OFFSET_SEC : Z := 7 * 3600.
Definition DAYLIGHT_OFFSET_SEC : Z := 0.
Definition WIFI_CONNECT_TIMEOUT : Z := 30000.
Definition NTP_SYNC_TIMEOUT : Z := 30000.
Definition FIREBASE_READY_TIMEOUT : Z := 30000.
Definition QUEUE_CHECK_INTERVAL : Z := 15000.
Definition LOOP_DELAY : Z := 200.

(** [1704067200L]: Jan 1, 2024 00:00:00 UTC (line 182). *)
Definition TIME_SYNCED_FROM : Z := 1704067200.

(** ** Unsigned arithmetic

    [millis()] and the variables that keep its value are [unsigned long],
    32 bits wide on the ESP32: the difference of two of them is taken modulo
    [2^32]. *)
Definition ULONG_RANGE : Z := 2 ^ 32.

Definition elapsed (now since : Z) : Z := (now - since) mod ULONG_RANGE.

(** ** The two callbacks that only log *)

(** The lambda of lines 208-212. *)
Definition tokenStatusCallback (info : TokenInfo) : prog unit :=
  trigger (Serial_printf "  Token Status: %s (%s)\n"
    [ PStr match info_status info with
           | token_status_ready => "Ready"
           | _ => "Error/Waiting"
           end;
      PStr match info_status info with
           | token_status_error => info_error_message info
           | _ => "..."
           end ]).

(** [firebaseStreamTimeoutCallback] (lines 327-338): the restart of the
    stream is commented out in the source. *)
Definition firebaseStreamTimeoutCallback (timeout : bool) : prog unit :=
  if timeout then
    trigger (Serial_println
      "[WARN] Firebase stream timeout occurred. Reconnecting...")
  else Ret tt.

(** [fb_config] and [fb_auth] as [initFirebase] leaves them (lines 202-212). *)
Definition fb_config : FirebaseConfig :=
  mkConfig FIREBASE_API_KEY FIREBASE_DATABASE_URL tokenStatusCallback.

Definition fb_auth : FirebaseAuth :=
  mkAuth FIREBASE_USER_EMAIL FIREBASE_USER_PASSWORD.

(** ** Requests of the boot code *)

Inductive board : Type -> Type :=
| sketch (R : Type) (e : event R) : board R
| Serial_begin (baud : Z) : board unit
| Serial_print (text : string) : board unit
| Serial_println_void : board unit                  (* [Serial.println()] *)
| Serial_println_IP (ip : IPAddress) : board unit
| WiFi_setSleep (enabled : bool) : board bool
| WiFi_mode (m : wifi_mode_t) : board bool
| WiFi_begin (ssid passphrase : string) : board wl_status_t
| WiFi_status : board wl_status_t
| millis : board Z
| configTime (gmtOffset_sec daylightOffset_sec : Z) (server1 server2 : string)
    : board unit
| time_nullptr : board Z                             (* [time(nullptr)] *)
| getLocalTime : board (bool * tm)                   (* result, [timeinfo] *)
| asctime (timeinfo : tm) : board string
| Firebase_begin (config : FirebaseConfig) (auth : FirebaseAuth) : board unit
| Firebase_reconnectWiFi (reconnect : bool) : board unit
| RTDB_beginStream (path : string) : board bool      (* on [fbdo_stream] *)
| RTDB_setStreamCallback (dataAvailableCallback : FirebaseStream -> prog unit)
    (timeoutCallback : bool -> prog unit) : board unit
| fbdo_stream_errorReason : board string
| call_connectWiFi : board bool
| call_syncTimeNTP : board bool
| call_initFirebase : board bool
| call_checkAndInitFirebaseStructure : board bool
| call_processWolQueue : board unit.

Arguments sketch {R} e.

Inductive bprog (A : Type) : Type :=
| BRet (a : A)
| BVis (R : Type) (e : board R) (k : R -> bprog A).

Arguments BRet {A} a.
Arguments BVis {A R} e k.

Fixpoint bbind {A B : Type} (p : bprog A) (f : A -> bprog B) : bprog B :=
  match p with
  | BRet a => f a
  | BVis e k => BVis e (fun r => bbind (k r) f)
  end.

Definition btrigger {R : Type} (e : board R) : bprog R := BVis e BRet.

(** A request shared with the functions above. *)
Definition ask {R : Type} (e : event R) : bprog R := btrigger (sketch e).

Declare Scope bprog_scope.
Delimit Scope bprog_scope with bprog.
Notation "x <- p ;; q" := (bbind p (fun x => q))
  (at level 61, p at next level, right associativity) : bprog_scope.
Notation "' pat <- p ;; q" := (bbind p (fun x => let pat := x in q))
  (at level 61, pat pattern, p at next level, right associativity)
  : bprog_scope.
Notation "p ;; q" := (bbind p (fun _ => q))
  (at level 61, right associativity) : bprog_scope.
Local Open Scope bprog_scope.

(** ** [connectWiFi] (lines 159-172) *)

(** The [while] loop of lines 165-168; [&&] reads the counter only when the
    station is not connected. *)
Fixpoint connectWiFi_wait (fuel : nat) (startAttemptTime : Z)
    : bprog (option unit) :=
  match fuel with
  | O => BRet None
  | S fuel' =>
      st <- btrigger WiFi_status ;;
      if negb (is_connected st) then
        now <- btrigger millis ;;
        if elapsed now startAttemptTime <? WIFI_CONNECT_TIMEOUT then
          btrigger (Serial_print ".") ;;
          ask (delay 500) ;;
          connectWiFi_wait fuel' startAttemptTime
        else BRet (Some tt)
      else BRet (Some tt)
  end.

Definition connectWiFi (fuel : nat) : bprog (option bool) :=
  btrigger (WiFi_mode WIFI_STA) ;;
  btrigger (WiFi_begin WIFI_SSID WIFI_PASSWORD) ;;
  btrigger (Serial_print "  Connecting") ;;
  startAttemptTime <- btrigger millis ;;
  left <- connectWiFi_wait fuel startAttemptTime ;;
  match left with
  | None => BRet None
  | Some _ =>
      btrigger Serial_println_void ;;
      st <- btrigger WiFi_status ;;
      BRet (Some (is_connected st))
  end.

(** ** [syncTimeNTP] (lines 175-198) *)

(** The [while] loop of lines 182-186, from the value of [now]; it ends with
    the value [now] has then. *)
Fixpoint syncTimeNTP_wait (fuel : nat) (now startAttemptTime : Z)
    : bprog (option Z) :=
  match fuel with
  | O => BRet None
  | S fuel' =>
      if now <? TIME_SYNCED_FROM then
        ms <- btrigger millis ;;
        if elapsed ms startAttemptTime <? NTP_SYNC_TIMEOUT then
          ask (delay 500) ;;
          btrigger (Serial_print ".") ;;
          now' <- btrigger time_nullptr ;;
          syncTimeNTP_wait fuel' now' startAttemptTime
        else BRet (Some now)
      else BRet (Some now)
  end.

Definition syncTimeNTP (fuel : nat) : bprog (option bool) :=
  btrigger (configTime GMT_OFFSET_SEC DAYLIGHT_OFFSET_SEC
              NTP_SERVER_1 NTP_SERVER_2) ;;
  btrigger (Serial_print "  Waiting for time sync") ;;
  now <- btrigger time_nullptr ;;
  startAttemptTime <- btrigger millis ;;
  left <- syncTimeNTP_wait fuel now startAttemptTime ;;
  match left with
  | None => BRet None
  | Some now =>
      btrigger Serial_println_void ;;
      if now >=? TIME_SYNCED_FROM then
        '(_, timeinfo) <- btrigger getLocalTime ;;
        btrigger (Serial_print "  Current time: ") ;;
        text <- btrigger (asctime timeinfo) ;;
        btrigger (Serial_print text) ;;
        BRet (Some true)
      else BRet (Some false)
  end.

(** ** [initFirebase] (lines 201-234) *)

(** The [while] loop of lines 227-230. *)
Fixpoint initFirebase_wait (fuel : nat) (startWaitTime : Z)
    : bprog (option unit) :=
  match fuel with
  | O => BRet None
  | S fuel' =>
      ready <- ask Firebase_ready ;;
      if negb ready then
        now <- btrigger millis ;;
        if elapsed now startWaitTime <? FIREBASE_READY_TIMEOUT then
          btrigger (Serial_print ".") ;;
          ask (delay 300) ;;
          initFirebase_wait fuel' startWaitTime
        else BRet (Some tt)
      else BRet (Some tt)
  end.

Definition initFirebase (fuel : nat) : bprog (option bool) :=
  btrigger (Firebase_begin fb_config fb_auth) ;;
  btrigger (Firebase_reconnectWiFi true) ;;
  btrigger (Serial_print "  Waiting for Firebase Authentication") ;;
  startWaitTime <- btrigger millis ;;
  left <- initFirebase_wait fuel startWaitTime ;;
  match left with
  | None => BRet None
  | Some _ =>
      btrigger Serial_println_void ;;
      ready <- ask Firebase_ready ;;
      BRet (Some ready)
  end.

(** ** [setup] (lines 89-143) *)

(** [while (1) { delay(1000); }]: it never ends, whatever the fuel. *)
Fixpoint halt (fuel : nat) : bprog (option unit) :=
  match fuel with
  | O => BRet None
  | S fuel' => ask (delay 1000) ;; halt fuel'
  end.

Section Setup.

(** The text of [__DATE__ " " __TIME__], fixed when the sketch is
    compiled. *)
Variable firmwareVersion : string.

Definition setup (fuel : nat) : bprog (option unit) :=
  btrigger (Serial_begin 115200) ;;
  ask (Serial_println "\n\n--- ESP32 Firebase WOL Controller ---") ;;
  ask (Serial_printf "Firmware Version: %s\n" [PStr firmwareVersion]) ;;
  btrigger (WiFi_setSleep false) ;;
  ask (Serial_println "[SETUP] Connecting to WiFi...") ;;
  connected <- btrigger call_connectWiFi ;;
  if negb connected then
    ask (Serial_println "[ERROR] WiFi connection failed! Halting execution.") ;;
    halt fuel
  else
    ask (Serial_println "[SETUP] WiFi Connected.") ;;
    btrigger (Serial_print "  IP Address: ") ;;
    ip <- ask WiFi_localIP ;;
    btrigger (Serial_println_IP ip) ;;
    ask (Serial_println "[SETUP] Synchronizing time via NTP...") ;;
    synced <- btrigger call_syncTimeNTP ;;
    (if negb synced then
       ask (Serial_println
         "[WARN] Failed to sync time with NTP servers. SSL/TLS connections might fail.")
     else ask (Serial_println "[SETUP] Time Synchronized.")) ;;
    ask (Serial_println "[SETUP] Initializing Firebase...") ;;
    initialized <- btrigger call_initFirebase ;;
    if negb initialized then
      ask (Serial_println
        "[ERROR] Firebase initialization failed! Halting execution.") ;;
      halt fuel
    else
      ask (Serial_println "[SETUP] Firebase Initialized and Ready.") ;;
      ask (Serial_println
        "[SETUP] Checking/Initializing Firebase RTDB structure...") ;;
      verified <- btrigger call_checkAndInitFirebaseStructure ;;
      (if negb verified then
         ask (Serial_println
           "[WARN] Failed to verify or initialize Firebase structure completely.")
       else
         ask (Serial_println "[SETUP] Firebase structure verified/initialized.")) ;;
      ask (Serial_printf "[SETUP] Starting Firebase stream on %s...\n"
        [PStr FIREBASE_DIRECT_TRIGGER_PATH]) ;;
      begun <- btrigger (RTDB_beginStream FIREBASE_DIRECT_TRIGGER_PATH) ;;
      (if negb begun then
         reason <- btrigger fbdo_stream_errorReason ;;
         ask (Serial_printf "[ERROR] Failed to begin stream: %s\n"
           [PStr reason])
       else
         btrigger (RTDB_setStreamCallback firebaseStreamCallback
                     firebaseStreamTimeoutCallback) ;;
         ask (Serial_println "[SETUP] Stream listener started successfully.")) ;;
      ask (Serial_println "\n--- Setup Complete --- Entering Main Loop ---\n") ;;
      BRet (Some tt).

End Setup.

(** ** [loop] (lines 146-156)

    [loop] reads and writes the global [lastQueueCheckMillis]: it takes the
    value the global has and returns the value it leaves. *)
Definition loop (lastQueueCheckMillis : Z) : bprog Z :=
  now <- btrigger millis ;;
  lastQueueCheckMillis' <-
    (if elapsed now lastQueueCheckMillis >=? QUEUE_CHECK_INTERVAL then
       btrigger call_processWolQueue ;;
       btrigger millis
     else BRet lastQueueCheckMillis) ;;
  ask (delay LOOP_DELAY) ;;
  BRet lastQueueCheckMillis'.

(** The Arduino core calls [loop] again and again; [n] calls in a row. *)
Fixpoint loops (n : nat) (lastQueueCheckMillis : Z) : bprog Z :=
  match n with
  | O => BRet lastQueueCheckMillis
  | S n' =>
      lastQueueCheckMillis' <- loop lastQueueCheckMillis ;;
      loops n' lastQueueCheckMillis'
  end.

(** ** Executions of the boot code *)

Inductive bobs : Type :=
| BObs (R : Type) (e : board R) (r : R).

Arguments BObs {R} e r.

Definition btrace : Type := list bobs.

Fixpoint bexec {A : Type} (p : bprog A) (t : btrace) (a : A) : Prop :=
  match p with
  | BRet a' => t = [] /\ a = a'
  | BVis e k => exists r t', t = BObs e r :: t' /\ bexec (k r) t' a
  end.

Definition bhandler (S : Type) : Type :=
  forall R : Type, board R -> S -> R * S.

Fixpoint brun {S A : Type} (h : bhandler S) (p : bprog A) (s : S)
    : A * S * btrace :=
  match p with
  | BRet a => (a, s, [])
  | BVis e k =>
      let '(r, s1) := h _ e s in
      let '(a, s2, t) := brun h (k r) s1 in
      (a, s2, BObs e r :: t)
  end.

(** *** What a boot trace did *)

(** The calls of the sketch's own functions and the start of the stream, in
    order, by name. *)
Definition step_of (o : bobs) : option string :=
  match o with
  | BObs e _ =>
      match e with
      | call_connectWiFi => Some "connectWiFi"
      | call_syncTimeNTP => Some "syncTimeNTP"
      | call_initFirebase => Some "initFirebase"
      | call_checkAndInitFirebaseStructure =>
          Some "checkAndInitFirebaseStructure"
      | call_processWolQueue => Some "processWolQueue"
      | RTDB_beginStream _ => Some "beginStream"
      | RTDB_setStreamCallback _ _ => Some "setStreamCallback"
      | _ => None
      end
  end.

Definition steps (t : btrace) : list string := filter_map step_of t.

(** The time spent in [delay]. *)
Definition bdelay_of (o : bobs) : Z :=
  match o with
  | BObs e _ =>
      match e with
      | sketch e' => match e' with delay ms => ms | _ => 0 end
      | _ => 0
      end
  end.

Definition waited (t : btrace) : Z :=
  fold_right (fun o acc => bdelay_of o + acc) 0 t.

(** The callbacks handed to [setStreamCallback]. *)
Definition registered_of (o : bobs)
    : option ((FirebaseStream -> prog unit) * (bool -> prog unit)) :=
  match o with
  | BObs e _ =>
      match e with
      | RTDB_setStreamCallback f g => Some (f, g)
      | _ => None
      end
  end.

Definition registered (t : btrace)
    : list ((FirebaseStream -> prog unit) * (bool -> prog unit)) :=
  filter_map registered_of t.

Definition is_pass_call (o : bobs) : bool :=
  match o with
  | BObs e _ => match e with call_processWolQueue => true | _ => false end
  end.

(** The number of queue passes started. *)
Definition passes (t : btrace) : nat := List.length (filter is_pass_call t).


(** The answer to the first call of [connectWiFi], of [initFirebase], and to
    the first [beginStream]. *)
Fixpoint wifi_answer (t : btrace) : option bool :=
  match t with
  | [] => None
  | BObs e r :: t' =>
      match e in board R return R -> option bool with
      | call_connectWiFi => fun r => Some r
      | _ => fun _ => wifi_answer t'
      end r
  end.

Fixpoint firebase_answer (t : btrace) : option bool :=
  match t with
  | [] => None
  | BObs e r :: t' =>
      match e in board R return R -> option bool with
      | call_initFirebase => fun r => Some r
      | _ => fun _ => firebase_answer t'
      end r
  end.

Fixpoint stream_answer (t : btrace) : option bool :=
  match t with
  | [] => None
  | BObs e r :: t' =>
      match e in board R return R -> option bool with
      | RTDB_beginStream _ => fun r => Some r
      | _ => fun _ => stream_answer t'
      end r
  end.

(** ** A board to run the boot code on

    A board whose clock advances in [delay] and during a queue pass, and
    nowhere else.  What the station, the wall clock and the Firebase session
    say is a function of the time since boot.  The counter behind [millis()]
    is the clock modulo [2^32].  A call of one of the sketch's functions is
    answered from the state of the board at that instant. *)

Record Board : Type := mkBoard {
  b_clock : Z;                      (* milliseconds since boot *)
  b_wifi : Z -> wl_status_t;        (* [WiFi.status()] at each instant *)
  b_time : Z -> Z;                  (* [time(nullptr)] at each instant *)
  b_firebase : Z -> bool;           (* [Firebase.ready()] at each instant *)
  b_ip : IPAddress;
  b_pass_ms : Z                     (* how long a queue pass takes *)
}.

Definition at_clock (b : Board) (clock : Z) : Board :=
  mkBoard clock (b_wifi b) (b_time b) (b_firebase b) (b_ip b) (b_pass_ms b).

Definition board_answers_sketch (R : Type) (e : event R) (b : Board)
    : R * Board :=
  match e in event R return R * Board with
  | Firebase_ready => (b_firebase b (b_clock b), b)
  | RTDB_get _ | RTDB_getJSON _ | RTDB_setBool _ _ | RTDB_setString _ _
  | RTDB_setJSON _ _ | RTDB_deleteNode _ => (false, b)
  | fbdo_httpCode => (0, b)
  | fbdo_dataType => ("", b)
  | fbdo_dataTypeEnum => (fb_esp_rtdb_data_type_undefined, b)
  | fbdo_errorReason => ("", b)
  | fbdo_jsonObject_get _ => ((false, mkJsonData false JSON_UNDEFINED 0 ""), b)
  | json_iteratorBegin => (0%nat, b)
  | json_iteratorGet _ => ((JSON_UNDEFINED, "", ""), b)
  | json_iteratorEnd => (tt, b)
  | WiFi_localIP => (b_ip b, b)
  | wol_sendMagicPacket _ _ => (true, b)
  | delay ms => (tt, at_clock b (b_clock b + ms))
  | Serial_printf _ _ => (tt, b)
  | Serial_println _ => (tt, b)
  | call_sendWOL _ => (tt, b)
  end.

Definition the_board : bhandler Board :=
  fun R e =>
    match e in board R return Board -> R * Board with
    | sketch e' => board_answers_sketch e'
    | Serial_begin _ => fun b => (tt, b)
    | Serial_print _ => fun b => (tt, b)
    | Serial_println_void => fun b => (tt, b)
    | Serial_println_IP _ => fun b => (tt, b)
    | WiFi_setSleep _ => fun b => (true, b)
    | WiFi_mode _ => fun b => (true, b)
    | WiFi_begin _ _ => fun b => (b_wifi b (b_clock b), b)
    | WiFi_status => fun b => (b_wifi b (b_clock b), b)
    | millis => fun b => (b_clock b mod ULONG_RANGE, b)
    | configTime _ _ _ _ => fun b => (tt, b)
    | time_nullptr => fun b => (b_time b (b_clock b), b)
    | getLocalTime => fun b => ((true, mk_tm 0 0 0 1 0 124 1 0 0), b)
    | asctime _ => fun b => ("Mon Jan  1 00:00:00 2024\n", b)
    | Firebase_begin _ _ => fun b => (tt, b)
    | Firebase_reconnectWiFi _ => fun b => (tt, b)
    | RTDB_beginStream _ => fun b => (b_firebase b (b_clock b), b)
    | RTDB_setStreamCallback _ _ => fun b => (tt, b)
    | fbdo_stream_errorReason => fun b => ("", b)
    | call_connectWiFi => fun b => (is_connected (b_wifi b (b_clock b)), b)
    | call_syncTimeNTP => fun b =>
        (b_time b (b_clock b) >=? TIME_SYNCED_FROM, b)
    | call_initFirebase => fun b => (b_firebase b (b_clock b), b)
    | call_checkAndInitFirebaseStructure => fun b => (true, b)
    | call_processWolQueue => fun b =>
        (tt, at_clock b (b_clock b + b_pass_ms b))
    end.

Definition btrace_on {A : Type} (b : Board) (p : bprog A) : btrace :=
  snd (brun the_board p b).
Definition answer_on {A : Type} (b : Board) (p : bprog A) : A :=
  fst (fst (brun the_board p b)).
Definition board_after {A : Type} (b : Board) (p : bprog A) : Board :=
  snd (fst (brun the_board p b)).

Local Close Scope bprog_scope.

(** *** Boards to run on *)

(** A board that joins the network 1.2 s after boot, has the time 2 s after
    boot and a Firebase session 2.5 s after boot; a queue pass takes
    350 ms. *)
Definition demo_board : Board :=
  mkBoard 0
    (fun t => if t <? 1200 then WL_DISCONNECTED else WL_CONNECTED)
    (fun t => if t <? 2000 then t / 1000 else 1767225600 + t / 1000)
    (fun t => 2500 <=? t)
    (mkIP 192 168 1 42) 350.

(** A board without a network, 7296 ms before its counter wraps around. *)
Definition lonely_board : Board :=
  mkBoard 4294960000 (fun _ => WL_NO_SSID_AVAIL) (fun t => t / 1000)
    (fun _ => false) (mkIP 0 0 0 0) 0.

Definition demo_firmware : string := "Jan  1 2025 12:00:00".
(** ** What the environment has to say

    [exec] leaves every answer to the environment.  To say "when the store
    holds this, the sketch does that", the first half is said of the answers
    alone: of the answer a request gets if the sketch makes it.  Whether the
    sketch makes the request is then part of what is proved. *)

(** Everything an execution asked of its collaborators, log lines left out. *)
Definition requests (t : trace) : trace := filter (fun o => negb (is_log o)) t.

(** A request to the iterator. *)
Definition asks_iterator (o : obs) : bool :=
  match get_index_of o with
  | Some _ => true
  | None => is_iteratorBegin o || is_iteratorEnd o
  end.

Fixpoint until_iterator (t : trace) : trace :=
  match t with
  | [] => []
  | o :: t' => if asks_iterator o then [] else o :: until_iterator t'
  end.

(** A trace that is over, or goes on with a request to the iterator. *)
Definition at_iterator (t : trace) : Prop :=
  match t with
  | [] => True
  | o :: _ => asks_iterator o = true
  end.

(** The part of a trace that belongs to the entry of index [j]: from the
    request that hands the entry out up to the next request to the
    iterator. *)
Fixpoint iteration_at (j : nat) (t : trace) : trace :=
  match t with
  | [] => []
  | o :: t' =>
      match get_index_of o with
      | Some i =>
          if Nat.eqb i j then o :: until_iterator t' else iteration_at j t'
      | None => iteration_at j t'
      end
  end.

(** The queue can be read and has [n] entries: Firebase says it is ready,
    the bulk read is accepted, the iterator reports [n] entries. *)
Definition snapshot_answer (n : nat) (o : obs) : bool :=
  match o with
  | Obs e r =>
      match e in event R return R -> bool with
      | Firebase_ready => fun r => r
      | RTDB_getJSON _ => fun r => r
      | json_iteratorBegin => fun r => Nat.eqb r n
      | _ => fun _ => true
      end r
  end.

(** The entry of index [j] is the task [key], an object that can be fetched,
    whose [status] reads [status], and whose [mac] reads [m] (for
    [mac = Some m]) or cannot be read (for [mac = None]). *)
Definition task_answer (j : nat) (key status : string) (mac : option string)
    (o : obs) : bool :=
  match o with
  | Obs e r =>
      match e in event R return R -> bool with
      | json_iteratorGet i => fun r =>
          negb (Nat.eqb i j)
          || jsonDataType_eqb (fst (fst r)) JSON_OBJECT
             && String.eqb (snd (fst r)) key
      | RTDB_get p => fun r => negb (String.eqb p (task_path key)) || r
      | fbdo_dataTypeEnum => fun r => is_json r
      | fbdo_jsonObject_get k => fun r =>
          (negb (String.eqb k "status")
           || readable r && String.eqb (stringValue (snd r)) status)
          && (negb (String.eqb k "mac")
              || match mac with
                 | Some m => readable r && String.eqb (stringValue (snd r)) m
                 | None => negb (readable r)
                 end)
      | _ => fun _ => true
      end r
  end.

(** What the environment reports about a path: the answer to a read of it,
    and the HTTP code and the payload type the client holds after that
    read. *)
Record read_report : Type := mkReport {
  rr_ok : bool;
  rr_code : Z;
  rr_type : string
}.

(** The read fails and the path is reported missing, or its value null (the
    test of lines 241-243 and 258-260). *)
Definition reported_missing (pathNotExist : Z) (rep : read_report) : bool :=
  negb (rr_ok rep)
  && ((rr_code rep =? pathNotExist) || String.eqb (rr_type rep) "null").

(** The answers of a trace are those of [env]: every read of a path gets the
    answer [env] has for the path, and the HTTP code and payload type asked
    for while that read is the client's last request are those of the path.
    [last] is the path last read, if no other request came since. *)
Fixpoint answers_reads (env : string -> read_report) (last : option string)
    (t : trace) : bool :=
  match t with
  | [] => true
  | Obs e r :: t' =>
      match e in event R return R -> bool with
      | RTDB_get p => fun r =>
          Bool.eqb r (rr_ok (env p)) && answers_reads env (Some p) t'
      | fbdo_httpCode => fun r =>
          match last with
          | Some p => r =? rr_code (env p)
          | None => true
          end && answers_reads env last t'
      | fbdo_dataType => fun r =>
          match last with
          | Some p => String.eqb r (rr_type (env p))
          | None => true
          end && answers_reads env last t'
      | RTDB_getJSON _ | RTDB_setBool _ _ | RTDB_setString _ _
      | RTDB_setJSON _ _ | RTDB_deleteNode _ => fun _ =>
          answers_reads env None t'
      | _ => fun _ => answers_reads env last t'
      end r
  end.

(** The environment of a store that holds both paths. *)
Definition initialized_store (p : string) : read_report := mkReport true 200 "".

(** The environment of a store that holds nothing. *)
Definition empty_store (p : string) : read_report := mkReport false 200 "null".

(** A collection whose third entry is a pending task without [mac], and one
    pass over it. *)
Definition late_queue : list (string * node) :=
  [ ("a", Obj [ ("mac", JStr "AA:AA:AA:AA:AA:AA"); ("status", JStr "done") ]);
    ("b", Leaf (JBoolean true));
    ("c", Obj [ ("delay", JNum 5); ("status", JStr "pending") ]);
    ("d", Obj [ ("mac", JStr "DD:DD:DD:DD:DD:DD"); ("status", JStr "pending") ]) ].

Definition late_pass : trace :=
  Eval vm_compute in
    trace_in (world_of (Some false) (Some late_queue))
      (processWolQueue demo_toInt false).
(** ** General facts about executions *)

Local Open Scope list_scope.
Unset Implicit Arguments.

Lemma exec_bind (A B : Type) (p : prog A) (f : A -> prog B) (t : trace) (b : B) :
  exec (bind p f) t b <->
  exists t1 a t2, t = (t1 ++ t2)%list /\ exec p t1 a /\ exec (f a) t2 b.
Proof.
  revert t; induction p as [a | R e k IH]; intros t; simpl.
  - split.
    + intros H; exists [], a, t; auto.
    + intros (t1 & a' & t2 & -> & [-> ->] & H); exact H.
  - split.
    + intros (r & t' & -> & H).
      apply IH in H; destruct H as (t1 & a & t2 & -> & H1 & H2).
      exists (Obs e r :: t1), a, t2; repeat split; eauto.
    + intros (t1 & a & t2 & -> & (r & t' & -> & H1) & H2).
      exists r, (t' ++ t2)%list; split; [reflexivity |].
      apply IH; exists t', a, t2; auto.
Qed.

(** The executions of the linked program are those of the program, with an
    execution of [sendWOL] for each of its calls. *)
Lemma exec_link (A : Type) (p : prog A) :
  forall (T : trace) (a : A),
    exec (link p) T a <-> exists t, exec p t a /\ expands t T.
Proof.
  induction p as [a0 | R e k IH]; intros T a.
  - cbn; split.
    + intros [-> ->]; exists []; repeat split.
    + intros (t & [-> ->] & Hx); cbn in Hx; auto.
  - destruct e; cbn [link].
    all: try (cbn [exec]; split;
      [ intros (r & T' & -> & H); apply IH in H; destruct H as (t & Ht & Hx);
        eexists (Obs _ r :: t); split; [exists r, t; auto | cbn; eauto]
      | intros (t & (r & t' & -> & Ht) & Hx); cbn in Hx;
        destruct Hx as (T' & -> & Hx);
        exists r, T'; split; [reflexivity |]; apply IH; eauto ]).
    split.
    + intros H; apply exec_bind in H.
      destruct H as (body & [] & T' & -> & Hb & H).
      apply IH in H; destruct H as (t & Ht & Hx).
      exists (Obs (call_sendWOL macAddress) tt :: t); split.
      * cbn; exists tt, t; auto.
      * cbn; exists body, T'; auto.
    + intros (t & (r & t' & -> & Ht) & Hx); cbn in Hx.
      destruct Hx as (body & T' & Hb & Hx & ->).
      apply exec_bind; exists body, tt, T'; repeat split; auto.
      apply IH; destruct r; eauto.
Qed.

(** Whatever the environment, what [run] computes is an execution. *)
Lemma run_exec (S A : Type) (h : handler S) (p : prog A) (s : S) :
  exec p (snd (run h p s)) (fst (fst (run h p s))).
Proof.
  revert s; induction p as [a | R e k IH]; intros s; simpl.
  - auto.
  - destruct (h R e s) as [r s1] eqn:Hh.
    specialize (IH r s1).
    destruct (run h (k r) s1) as [[a s2] t] eqn:Hr; simpl in *.
    exists r, t; auto.
Qed.

(** Every program has an execution: no request can block it. *)
Lemma exec_total (A : Type) (p : prog A) (S : Type) (h : handler S) (s : S) :
  exists t a, exec p t a.
Proof.
  exists (snd (run h p s)), (fst (fst (run h p s))); apply run_exec.
Qed.

Lemma filter_map_app (A B : Type) (f : A -> option B) (l1 l2 : list A) :
  filter_map f (l1 ++ l2) = (filter_map f l1 ++ filter_map f l2)%list.
Proof.
  induction l1 as [| x l1 IH]; simpl; [reflexivity |].
  destruct (f x); simpl; rewrite IH; reflexivity.
Qed.

Lemma effects_app (t1 t2 : trace) :
  effects (t1 ++ t2) = (effects t1 ++ effects t2)%list.
Proof. apply filter_app. Qed.

Lemma dispatches_app (t1 t2 : trace) :
  dispatches (t1 ++ t2) = (dispatches t1 ++ dispatches t2)%list.
Proof. apply filter_map_app. Qed.

Lemma store_updates_app (t1 t2 : trace) :
  store_updates (t1 ++ t2) = (store_updates t1 ++ store_updates t2)%list.
Proof. apply filter_app. Qed.

Lemma dispatches_effects (t : trace) : dispatches (effects t) = dispatches t.
Proof.
  unfold dispatches, effects.
  induction t as [| [R e r] t IH]; [reflexivity |].
  destruct e; cbn; rewrite IH; reflexivity.
Qed.

Lemma store_updates_effects (t : trace) :
  store_updates (effects t) = store_updates t.
Proof.
  unfold store_updates, effects.
  induction t as [| [R e r] t IH]; [reflexivity |].
  destruct e; cbn; rewrite IH; reflexivity.
Qed.

(** Peel the next request off an execution hypothesis. *)
Ltac exec_step H :=
  let r := fresh "r" in
  let t := fresh "t" in
  cbn [exec bind trigger] in H;
  lazymatch type of H with
  | exists _ _, _ = _ :: _ /\ _ => destruct H as (r & t & -> & H)
  | _ = [] /\ _ = _ => destruct H as [-> H]; try subst
  end.

Lemma is_hex_digit_not_nul (c : ascii) :
  is_hex_digit c = true -> Ascii.eqb c zero = false.
Proof.
  intros H; destruct (Ascii.eqb_spec c zero) as [-> | _];
    [discriminate H | reflexivity].
Qed.

Lemma valid_mac_strlen (s : string) : valid_mac s = true -> strlen s = 17%nat.
Proof.
  unfold valid_mac.
  assert (Hstep : forall n s, is_colon_hex n s = true -> strlen s = (3 * n - 1)%nat).
  { induction n as [| n IH]; intros s0 H; [destruct s0; discriminate |].
    destruct s0 as [| a [| b [| c s']]]; simpl in H;
      try (destruct n; discriminate).
    - destruct n; [| discriminate].
      apply andb_prop in H; destruct H as [Ha Hb]; simpl.
      rewrite (is_hex_digit_not_nul _ Ha), (is_hex_digit_not_nul _ Hb); reflexivity.
    - assert (H' : is_hex_digit a && is_hex_digit b && (c =? ":")%char
                   && is_colon_hex n s' = true) by (destruct n; exact H).
      clear H.
      apply andb_prop in H'; destruct H' as [H Hrec].
      apply andb_prop in H; destruct H as [H Hc].
      apply andb_prop in H; destruct H as [Ha Hb].
      assert (Hn : n <> 0%nat) by (intros ->; destruct s'; discriminate).
      apply IH in Hrec.
      cbn [strlen].
      rewrite (is_hex_digit_not_nul _ Ha), (is_hex_digit_not_nul _ Hb).
      apply Ascii.eqb_eq in Hc; subst c.
      change (Ascii.eqb ":"%char zero) with false; cbv iota.
      rewrite Hrec. lia. }
  intros H; apply Hstep in H; exact H.
Qed.

Ltac units := repeat match goal with u : unit |- _ => destruct u end.

(** ** The Packet Dispatcher, [sendWOL] *)

(** The whole execution of [sendWOL] on an address it accepts: the local
    address is read once, one line is logged, and three rounds of packet and
    50 ms pause follow. *)
Lemma sendWOL_accepted (mac : string) (t : trace) (u : unit) :
  strlen mac = 17%nat ->
  exec (sendWOL (Some mac)) t u ->
  exists localIP r1 r2 r3, forall broadcastIP,
    broadcastIP = set_octet3 localIP 255 ->
    t = [ Obs WiFi_localIP localIP;
          Obs (Serial_printf
                 "[INFO] Sending WOL Magic Packet to MAC: %s via Broadcast IP: %s\n"
                 [PStr mac; PIP broadcastIP]) tt;
          Obs (wol_sendMagicPacket mac broadcastIP) r1; Obs (delay 50) tt;
          Obs (wol_sendMagicPacket mac broadcastIP) r2; Obs (delay 50) tt;
          Obs (wol_sendMagicPacket mac broadcastIP) r3; Obs (delay 50) tt ].
Proof.
  intros Hlen H; unfold sendWOL in H; rewrite Hlen in H.
  change (negb (Nat.eqb 17 17)) with false in H; cbv iota in H.
  cbn [sendWOL_loop] in H.
  repeat exec_step H. units.
  do 4 eexists; intros broadcastIP ->; reflexivity.
Qed.

Lemma sendWOL_rejected (macAddress : option string) (t : trace) (u : unit) :
  sendWOL_rejects macAddress = true ->
  exec (sendWOL macAddress) t u ->
  t = [sendWOL_error_line macAddress].
Proof.
  intros Hrej H; destruct macAddress as [mac |]; simpl in Hrej;
    unfold sendWOL in H; try rewrite Hrej in H;
    repeat exec_step H; units; reflexivity.
Qed.

Lemma packets_app (t1 t2 : trace) : packets (t1 ++ t2) = packets t1 ++ packets t2.
Proof. apply filter_map_app. Qed.

Lemma sendWOL_packets (macAddress : option string) (body : trace) :
  exec (sendWOL macAddress) body tt ->
  List.length (packets body) =
    (if sendWOL_rejects macAddress then 0 else 3)%nat.
Proof.
  intros H; destruct (sendWOL_rejects macAddress) eqn:Hr.
  - rewrite (sendWOL_rejected macAddress body tt Hr H); reflexivity.
  - destruct macAddress as [mac |]; [| discriminate Hr].
    cbn in Hr; apply negb_false_iff, Nat.eqb_eq in Hr.
    destruct (sendWOL_accepted mac body tt Hr H) as (ip & r1 & r2 & r3 & Hb).
    rewrite (Hb _ eq_refl); reflexivity.
Qed.

(** In the sketch as it runs, every accepted [sendWOL] call accounts for
    three packets, and a rejected one for none. *)
Lemma expands_packets (t : trace) :
  forall T, expands t T ->
    List.length (packets T) =
      (List.length (packets t) + 3 * accepted_calls t)%nat.
Proof.
  unfold accepted_calls, dispatches, packets.
  induction t as [| [R e r] t IH]; intros T H; cbn in H.
  - subst T; reflexivity.
  - destruct e;
      try (destruct H as (T' & -> & H); cbn; rewrite (IH T' H); reflexivity).
    destruct H as (body & T' & Hb & H & ->).
    rewrite filter_map_app, length_app, (IH T' H).
    change (filter_map packet_of body) with (packets body).
    rewrite (sendWOL_packets _ _ Hb); cbn.
    destruct (sendWOL_rejects macAddress); cbn; lia.
Qed.

(** [C5] For every valid hardware address (six colon-separated pairs of
    hexadecimal digits, 17 characters), every execution of [sendWOL] hands the
    packet to the sender exactly three times, each time for the broadcast
    address obtained from the device's own address by setting the last octet
    to 255, and pauses 50 ms after each emission, hence between consecutive
    ones. *)
Theorem sendWOL_three_broadcast_packets (mac : string) (t : trace) :
  valid_mac mac = true ->
  exec (sendWOL (Some mac)) t tt ->
  exists localIP r1 r2 r3,
    let broadcastIP := set_octet3 localIP 255 in
    oct0 broadcastIP = oct0 localIP /\ oct1 broadcastIP = oct1 localIP /\
    oct2 broadcastIP = oct2 localIP /\ oct3 broadcastIP = 255 /\
    packets t = [(mac, broadcastIP); (mac, broadcastIP); (mac, broadcastIP)] /\
    effects t =
      [ Obs (wol_sendMagicPacket mac broadcastIP) r1; Obs (delay 50) tt;
        Obs (wol_sendMagicPacket mac broadcastIP) r2; Obs (delay 50) tt;
        Obs (wol_sendMagicPacket mac broadcastIP) r3; Obs (delay 50) tt ] /\
    hd_error t = Some (Obs WiFi_localIP localIP).
Proof.
  intros Hvalid H.
  apply valid_mac_strlen in Hvalid.
  destruct (sendWOL_accepted mac t tt Hvalid H) as (localIP & r1 & r2 & r3 & Ht).
  rewrite (Ht _ eq_refl).
  exists localIP, r1, r2, r3; cbn; repeat split; reflexivity.
Qed.

Lemma sendWOL_three_broadcast_packets_witness :
  let mac := "AA:BB:CC:DD:EE:FF" in
  let ip := mkIP 192 168 1 42 in
  let t := [ Obs WiFi_localIP ip;
             Obs (Serial_printf
                "[INFO] Sending WOL Magic Packet to MAC: %s via Broadcast IP: %s\n"
                [PStr mac; PIP (mkIP 192 168 1 255)]) tt;
             Obs (wol_sendMagicPacket mac (mkIP 192 168 1 255)) true;
             Obs (delay 50) tt;
             Obs (wol_sendMagicPacket mac (mkIP 192 168 1 255)) true;
             Obs (delay 50) tt;
             Obs (wol_sendMagicPacket mac (mkIP 192 168 1 255)) false;
             Obs (delay 50) tt ] in
  valid_mac mac = true /\ exec (sendWOL (Some mac)) t tt /\
  List.length (packets t) = 3%nat.
Proof.
  intros mac ip t.
  assert (Hv : valid_mac mac = true) by reflexivity.
  assert (He : exec (sendWOL (Some mac)) t tt).
  { cbn. repeat (eexists; eexists; split; [reflexivity |]). split; reflexivity. }
  split; [exact Hv |]. split; [exact He |].
  destruct (sendWOL_three_broadcast_packets mac t Hv He)
    as (localIP & r1 & r2 & r3 & _ & _ & _ & _ & Hp & _).
  rewrite Hp; reflexivity.
Defined.

(** [C6] does not hold as stated: the guard looks at the length only, so a
    17-character string that is no hardware address is handed to the sender
    three times, and the only line logged is the one that announces the
    sending. *)
Lemma sendWOL_malformed_17_chars_is_sent :
  let mac := "this-is-not-a-mac" in
  let ip := mkIP 10 0 0 7 in
  let bc := mkIP 10 0 0 255 in
  let t := [ Obs WiFi_localIP ip;
             Obs (Serial_printf
                "[INFO] Sending WOL Magic Packet to MAC: %s via Broadcast IP: %s\n"
                [PStr mac; PIP bc]) tt;
             Obs (wol_sendMagicPacket mac bc) true; Obs (delay 50) tt;
             Obs (wol_sendMagicPacket mac bc) true; Obs (delay 50) tt;
             Obs (wol_sendMagicPacket mac bc) true; Obs (delay 50) tt ] in
  valid_mac mac = false /\
  exec (sendWOL (Some mac)) t tt /\
  packets t = [(mac, bc); (mac, bc); (mac, bc)] /\
  logs t =
    [ Obs (Serial_printf
             "[INFO] Sending WOL Magic Packet to MAC: %s via Broadcast IP: %s\n"
             [PStr mac; PIP bc]) tt ] /\
  (forall t', exec (sendWOL (Some mac)) t' tt -> List.length (packets t') = 3%nat).
Proof.
  cbv zeta.
  split; [reflexivity |].
  split.
  { cbn. repeat (eexists; eexists; split; [reflexivity |]). split; reflexivity. }
  split; [reflexivity |].
  split; [reflexivity |].
  intros t' H.
  destruct (sendWOL_accepted "this-is-not-a-mac" t' tt eq_refl H)
    as (localIP & r1 & r2 & r3 & Ht).
  rewrite (Ht _ eq_refl); reflexivity.
Qed.

(** [C6], amended: for the null pointer and for every string whose length is
    not 17, [sendWOL] hands nothing to the sender, logs the one error line and
    returns; it issues no other request. *)
Theorem sendWOL_rejects_wrong_length (macAddress : option string) :
  sendWOL_rejects macAddress = true ->
  exec (sendWOL macAddress) [sendWOL_error_line macAddress] tt /\
  forall t, exec (sendWOL macAddress) t tt ->
    t = [sendWOL_error_line macAddress] /\ packets t = [] /\ effects t = [].
Proof.
  intros Hrej; split.
  - destruct macAddress as [mac |]; simpl in Hrej; unfold sendWOL;
      try rewrite Hrej; cbn; eexists; eexists; split; try reflexivity;
      split; reflexivity.
  - intros t H.
    rewrite (sendWOL_rejected macAddress t tt Hrej H).
    repeat split; reflexivity.
Qed.

Lemma sendWOL_rejects_wrong_length_witness :
  sendWOL_rejects (Some "bad-mac") = true /\
  exec (sendWOL (Some "bad-mac")) [sendWOL_error_line (Some "bad-mac")] tt /\
  packets [sendWOL_error_line (Some "bad-mac")] = [].
Proof.
  split; [reflexivity |].
  destruct (sendWOL_rejects_wrong_length (Some "bad-mac") eq_refl) as [He Hall].
  split; [exact He |].
  destruct (Hall _ He) as (_ & Hp & _); exact Hp.
Defined.

(** ** The Trigger Watcher, [firebaseStreamCallback] *)

(** [C4] A notification whose payload is the boolean [true] makes the callback
    call [sendWOL] exactly once, with the configured target address, and then
    write [false] to the flag path; these are its only effects.  Any other
    notification has no effect at all: no [sendWOL] call and no write. *)
Theorem firebaseStreamCallback_effects (data : FirebaseStream) (t : trace) :
  exec (firebaseStreamCallback data) t tt ->
  (is_boolean (dataTypeEnum data) && boolData data = true ->
   exists written,
     effects t =
       [ Obs (call_sendWOL (Some DIRECT_TRIGGER_TARGET_MAC)) tt;
         Obs (RTDB_setBool FIREBASE_DIRECT_TRIGGER_PATH false) written ] /\
     dispatches t = [Some DIRECT_TRIGGER_TARGET_MAC]) /\
  (is_boolean (dataTypeEnum data) && boolData data = false ->
   effects t = [] /\ dispatches t = [] /\ store_updates t = []).
Proof.
  intros H; unfold firebaseStreamCallback in H.
  exec_step H.
  destruct (is_boolean (dataTypeEnum data) && boolData data) eqn:Htrue.
  - split; [intros _ | discriminate].
    do 4 exec_step H.
    match type of H with exec (if negb ?w then _ else _) _ _ =>
      exists w; destruct w end;
      cbn [negb] in H; repeat exec_step H; units; split; reflexivity.
  - split; [discriminate | intros _].
    exec_step H; repeat split; reflexivity.
Qed.

Lemma firebaseStreamCallback_effects_witness :
  let data := mkStream "/" "boolean" "true" fb_esp_rtdb_data_type_boolean true in
  let t := [ Obs (Serial_printf "[STREAM] Path: %s, Type: %s, Value: %s\n"
                    [PStr "/"; PStr "boolean"; PStr "true"]) tt;
             Obs (Serial_printf
                    "[INFO] Direct WOL Trigger received for path: %s\n"
                    [PStr FIREBASE_DIRECT_TRIGGER_PATH]) tt;
             Obs (call_sendWOL (Some DIRECT_TRIGGER_TARGET_MAC)) tt;
             Obs (Serial_printf "  Resetting trigger flag '%s' to false...\n"
                    [PStr FIREBASE_DIRECT_TRIGGER_PATH]) tt;
             Obs (RTDB_setBool FIREBASE_DIRECT_TRIGGER_PATH false) true;
             Obs (Serial_println "  Trigger flag reset successfully.") tt ] in
  exec (firebaseStreamCallback data) t tt /\
  dispatches t = [Some "00:00:00:00:00:00"].
Proof.
  intros data t.
  assert (He : exec (firebaseStreamCallback data) t tt).
  { cbn. repeat (eexists; eexists; split; [reflexivity |]). split; reflexivity. }
  split; [exact He |].
  destruct (firebaseStreamCallback_effects data t He) as [Htrue _].
  destruct (Htrue eq_refl) as (written & _ & Hd); exact Hd.
Defined.

(** ** The Queue Processor, [processWolQueue] *)

(** Explore an execution hypothesis: peel requests, split on tests. *)
Ltac exec_case H :=
  first
    [ exec_step H
    | match type of H with
      | exec (if ?c then _ else _) _ _ => destruct c eqn:?
      | exec (bind (if ?c then _ else _) _) _ _ => destruct c eqn:?
      | exec (bind (bind (if ?c then _ else _) _) _) _ _ => destruct c eqn:?
      | exec (let '(_, _) := ?r in _) _ _ => destruct r
      | exec (match ?r with _ => _ end) _ _ => destruct r
      end ].

(** Build an execution along a fully known trace. *)
Ltac exec_build :=
  cbn; repeat (eexists; eexists; split; [reflexivity |]); split; reflexivity.

Section Queue.

Variable toInt : string -> Z.
Variable DELETE_COMPLETED_QUEUE_TASKS : bool.

Local Abbreviation task := (processWolQueue_task toInt DELETE_COMPLETED_QUEUE_TASKS).
Local Abbreviation loop := (processWolQueue_loop toInt DELETE_COMPLETED_QUEUE_TASKS).
Local Abbreviation prune := (processWolQueue_prune DELETE_COMPLETED_QUEUE_TASKS).
Local Abbreviation pass := (processWolQueue toInt DELETE_COMPLETED_QUEUE_TASKS).
Local Abbreviation in_pass := (iteration_in_pass toInt DELETE_COMPLETED_QUEUE_TASKS).

(** The loop runs its iterations one after the other: around any index, an
    execution of the loop is the iterations before it, its own iteration, and
    the iterations after it. *)
Lemma loop_split (j : nat) :
  forall (n i : nat) (ids : list string) (T : trace) (res : list string),
    (j < n)%nat ->
    exec (loop n i ids) T res ->
    exists earlier idsj t idsj' later,
      T = earlier ++ t ++ later /\
      exec (loop j i ids) earlier idsj /\
      exec (task (i + j) idsj) t idsj' /\
      exec (loop (n - S j) (S (i + j)) idsj') later res.
Proof.
  induction j as [| j IH]; intros n i ids T res Hj H.
  - destruct n as [| n]; [lia |].
    cbn [processWolQueue_loop] in H.
    apply exec_bind in H; destruct H as (t & ids' & later & -> & Ht & Hl).
    exists [], ids, t, ids', later.
    rewrite Nat.add_0_r, Nat.sub_succ, Nat.sub_0_r.
    repeat split; auto.
  - destruct n as [| n]; [lia |].
    cbn [processWolQueue_loop] in H.
    apply exec_bind in H; destruct H as (t0 & ids0 & rest & -> & Ht0 & Hrest).
    apply (IH n (S i) ids0 rest res) in Hrest; [| lia].
    destruct Hrest as (earlier & idsj & t & idsj' & later & -> & He & Ht & Hl).
    exists (t0 ++ earlier), idsj, t, idsj', later.
    rewrite <- Nat.add_succ_comm, Nat.sub_succ.
    repeat split; auto.
    + rewrite app_assoc; reflexivity.
    + cbn [processWolQueue_loop]; apply exec_bind.
      exists t0, ids0, earlier; auto.
Qed.

(** A pass that did not get a successful bulk read has no entry count. *)
Lemma readFailed_no_count (t : trace) (u : unit) :
  exec processWolQueue_readFailed t u -> iterator_count t = None /\ effects t = [].
Proof.
  intros H; unfold processWolQueue_readFailed in H.
  repeat exec_case H; split; reflexivity.
Qed.

(** The shape of a pass that found entries: prelude, loop, release of the
    iterator, pruning, closing line. *)
Lemma pass_shape (T : trace) (n : nat) :
  exec pass T tt ->
  iterator_count T = Some n -> n <> 0%nat ->
  exists L marked P,
    T = pass_prelude n ++ L ++ Obs json_iteratorEnd tt :: P
        ++ [Obs (Serial_println "[QUEUE] Queue check finished.") tt] /\
    exec (loop n 0 []) L marked /\
    exec (prune marked) P tt.
Proof.
  intros H Hc Hn; unfold processWolQueue in H.
  exec_step H; destruct r; cbn [negb] in H.
  - do 2 exec_step H; destruct r0.
    + do 2 exec_step H.
      cbn in Hc; injection Hc as ->.
      destruct (Nat.eqb_spec n 0) as [-> | _]; [contradiction |].
      apply exec_bind in H; destruct H as (L & marked & rest & -> & HL & H).
      exec_step H.
      apply exec_bind in H; destruct H as (P & [] & fin & -> & HP & H).
      repeat exec_step H; units.
      exists L, marked, P; repeat split; auto.
    + apply exec_bind in H; destruct H as (t1 & u & t2 & -> & H1 & H2).
      apply readFailed_no_count in H1; destruct H1 as [H1 _].
      repeat exec_step H2.
      cbn in Hc.
      assert (Hc' : forall a b, iterator_count a = None ->
                iterator_count (a ++ [Obs (Serial_println b) tt]) = None).
      { induction a as [| [R e r1] a IHa]; intros b Ha; [reflexivity |].
        destruct e; cbn in *; auto; discriminate. }
      units; rewrite (Hc' _ _ H1) in Hc; discriminate.
  - repeat exec_step H; discriminate.
Qed.

(** Every entry of the snapshot gets its iteration, in index order. *)
Lemma pass_iterations (T : trace) (n j : nat) :
  exec pass T tt ->
  iterator_count T = Some n -> (j < n)%nat ->
  exists before t after marked, in_pass T n j before t after marked.
Proof.
  intros H Hc Hj.
  destruct (pass_shape T n H Hc ltac:(lia)) as (L & marked & P & -> & HL & HP).
  destruct (loop_split j n 0%nat [] L marked Hj HL)
    as (earlier & ids & t & ids' & later & -> & He & Ht & Hl).
  cbn [Nat.add] in Ht, Hl.
  exists (pass_prelude n ++ earlier), t,
    (later ++ Obs json_iteratorEnd tt :: P
       ++ [Obs (Serial_println "[QUEUE] Queue check finished.") tt]), marked.
  split.
  - repeat rewrite <- app_assoc; reflexivity.
  - exists earlier, ids, ids', later, P; repeat split; auto.
Qed.

(** The delay of a task: [0] when the field cannot be read, else the field
    coerced to an integer, with negative values clamped to [0]. *)
Lemma extract_delay_spec (rd : bool * FirebaseJsonData) :
  extract_delay toInt (fst rd) (snd rd) =
    (if readable rd then Z.max 0 (coerced_delay toInt (snd rd)) else 0) /\
  0 <= extract_delay toInt (fst rd) (snd rd).
Proof.
  destruct rd as [got d]; unfold extract_delay, readable, coerced_delay; cbn [fst snd].
  destruct (got && success d); [| split; [reflexivity | lia]].
  match goal with |- context [?x <? 0] => destruct (Z.ltb_spec x 0) end;
    split; lia.
Qed.


(** One iteration on an entry whose status does not read "pending", or on an
    entry whose status is never read: no effect at all. *)
Lemma task_not_pending (i : nat) (ids ids' : list string) (t : trace) :
  exec (task i ids) t ids' ->
  (forall rs, field_read "status" t = Some rs -> reads_pending rs = false) ->
  effects t = [].
Proof.
  intros H Hs.
  unfold processWolQueue_task in H.
  repeat exec_case H.
  all: try reflexivity.
  all: exfalso; cbn in Hs; specialize (Hs _ eq_refl);
    unfold reads_pending in Hs; cbn [fst snd andb] in Hs; congruence.
Qed.

Lemma in_pass_effects (T : trace) (n j : nat) (before t after : trace)
    (marked : list string) :
  in_pass T n j before t after marked ->
  effects T = effects before ++ effects t ++ effects after.
Proof.
  intros [-> _]; rewrite !effects_app; reflexivity.
Qed.

(** In a pass of [processWolQueue], the iteration on an entry whose status
    reads as anything but "pending" - "done" in particular - calls [sendWOL]
    zero times and writes nothing: it has no effect. *)
Lemma non_pending_iteration_silent
    (T : trace) (n j : nat) (before t after : trace) (marked : list string)
    (rs : bool * FirebaseJsonData) :
  exec pass T tt ->
  in_pass T n j before t after marked ->
  field_read "status" t = Some rs -> reads_pending rs = false ->
  dispatches t = [] /\ store_updates t = [] /\ effects t = [].
Proof.
  intros _ Hin Hs Hps.
  destruct Hin as (_ & earlier & ids & ids' & later & pruning & _ & _ & Ht & _).
  assert (He : effects t = []).
  { apply (task_not_pending j ids ids' t Ht).
    intros rs' Hs'; congruence. }
  rewrite <- dispatches_effects, <- store_updates_effects, He.
  repeat split; reflexivity.
Qed.

(** [C10] A pass whose bulk read of the collection fails - a genuine error
    or not - calls [sendWOL] zero times and asks for no write and no deletion:
    it has no effect, and the iterator is not even started. *)
Theorem failed_bulk_read_has_no_effect (T : trace) :
  exec pass T tt ->
  bulk_read T = Some false ->
  dispatches T = [] /\ store_updates T = [] /\ deletions T = [] /\
  effects T = [] /\ iterator_count T = None.
Proof.
  intros H Hb; unfold processWolQueue in H.
  exec_step H; destruct r; cbn [negb] in H.
  - do 2 exec_step H; destruct r0; [cbn in Hb; discriminate |].
    unfold processWolQueue_readFailed in H.
    repeat exec_case H; repeat split; reflexivity.
  - repeat exec_step H; cbn in Hb; discriminate.
Qed.

End Queue.

(** *** The scenario, taken apart *)

Lemma demo_pass_exec : exec (processWolQueue demo_toInt false) demo_pass tt.
Proof.
  exact (run_exec World unit cloud (processWolQueue demo_toInt false)
           demo_world).
Qed.

Lemma demo_in_pass_t3 :
  iteration_in_pass demo_toInt false demo_pass 4 2
    (pass_prelude 4 ++ demo_t1 ++ demo_t2) demo_t3 (demo_t4 ++ demo_closing) [].
Proof.
  split; [reflexivity |].
  exists (demo_t1 ++ demo_t2), [], [], demo_t4, [].
  repeat split; try reflexivity; exec_build.
Qed.

Lemma failed_bulk_read_has_no_effect_witness :
  exec (processWolQueue demo_toInt false) demo_unreachable tt /\
  bulk_read demo_unreachable = Some false /\
  dispatches demo_unreachable = [] /\ store_updates demo_unreachable = [] /\
  deletions demo_unreachable = [] /\ effects demo_unreachable = [] /\
  iterator_count demo_unreachable = None.
Proof.
  assert (He : exec (processWolQueue demo_toInt false) demo_unreachable tt)
    by exact (run_exec World unit cloud (processWolQueue demo_toInt false)
                (failing [(Read, FIREBASE_QUEUE_PATH)] demo_world)).
  split; [exact He |].
  split; [reflexivity |].
  exact (failed_bulk_read_has_no_effect demo_toInt false demo_unreachable
           He eq_refl).
Defined.

(** ** The Structure Bootstrapper, [checkAndInitFirebaseStructure] *)

Lemma answers_reads_app (env : string -> read_report) (t1 t2 : trace) :
  forall last,
    answers_reads env last (t1 ++ t2) = true ->
    answers_reads env last t1 = true /\
    exists last', answers_reads env last' t2 = true.
Proof.
  induction t1 as [| [R e r] t1 IH]; intros last H.
  - split; [reflexivity | exists last; exact H].
  - destruct e; cbn in H |- *;
      try (apply andb_prop in H; destruct H as [H0 H]; rewrite H0; cbn);
      apply IH; exact H.
Qed.

Section Bootstrapper.

Variable FIREBASE_ERROR_PATH_NOT_EXIST : Z.
Variable env : string -> read_report.

Local Abbreviation missing := (reported_missing FIREBASE_ERROR_PATH_NOT_EXIST).

Ltac reported Ha :=
  cbn -[Z.eqb String.eqb] in Ha;
  repeat match goal with
         | H : _ && _ = true |- _ => apply andb_prop in H; destruct H
         | H : Bool.eqb _ (rr_ok _) = true |- _ =>
             apply Bool.eqb_prop in H; try rewrite <- H
         | H : (_ =? rr_code _) = true |- _ =>
             apply Z.eqb_eq in H; try rewrite <- H
         | H : String.eqb _ (rr_type _) = true |- _ =>
             apply String.eqb_eq in H; try rewrite <- H
         end;
  repeat match goal with
         | H : negb ?b = _ |- _ => destruct b; try discriminate H; clear H
         end;
  repeat match goal with
         | E : (_ =? _) = _ |- _ => rewrite E
         | E : (_ =? _)%string = _ |- _ => rewrite E
         end.

(** The block for the trigger path: the read; then the write of [false]
    exactly when the environment reports the path missing or null. *)
Lemma checkAndInit_trigger_asked (success result : bool) (t : trace)
    (last : option string) :
  exec (checkAndInit_trigger FIREBASE_ERROR_PATH_NOT_EXIST success) t result ->
  answers_reads env last t = true ->
  exists written,
    rtdb_requests t =
      Obs (RTDB_get FIREBASE_DIRECT_TRIGGER_PATH)
        (rr_ok (env FIREBASE_DIRECT_TRIGGER_PATH))
      :: (if missing (env FIREBASE_DIRECT_TRIGGER_PATH)
          then [Obs (RTDB_setBool FIREBASE_DIRECT_TRIGGER_PATH false) written]
          else []) /\
    result = success && forallb update_ok (store_updates t).
Proof.
  intros H Ha; unfold checkAndInit_trigger, missing_or_null in H.
  repeat exec_case H; units.
  all: unfold reported_missing; reported Ha.
  all: cbn -[Z.eqb String.eqb]; rewrite ?andb_true_r, ?andb_false_r.
  all: first [ exists true; split; reflexivity
             | exists false; split; reflexivity ].
Qed.

Lemma checkAndInit_queue_asked (success result : bool) (t : trace)
    (last : option string) :
  exec (checkAndInit_queue FIREBASE_ERROR_PATH_NOT_EXIST success) t result ->
  answers_reads env last t = true ->
  exists written,
    rtdb_requests t =
      Obs (RTDB_get FIREBASE_QUEUE_PATH) (rr_ok (env FIREBASE_QUEUE_PATH))
      :: (if missing (env FIREBASE_QUEUE_PATH)
          then [Obs (RTDB_setJSON FIREBASE_QUEUE_PATH "{}") written]
          else []) /\
    result = success && forallb update_ok (store_updates t).
Proof.
  intros H Ha; unfold checkAndInit_queue, missing_or_null in H.
  repeat exec_case H; units.
  all: unfold reported_missing; reported Ha.
  all: cbn -[Z.eqb String.eqb]; rewrite ?andb_true_r, ?andb_false_r.
  all: first [ exists true; split; reflexivity
             | exists false; split; reflexivity ].
Qed.

Lemma store_updates_rtdb_requests (t : trace) :
  store_updates (rtdb_requests t) = store_updates t.
Proof.
  unfold store_updates, rtdb_requests.
  induction t as [| [R e r] t IH]; [reflexivity |].
  destruct e; cbn; rewrite IH; reflexivity.
Qed.

Lemma reads_rtdb_requests (t : trace) : reads (rtdb_requests t) = reads t.
Proof.
  unfold reads, rtdb_requests.
  induction t as [| [R e r] t IH]; [reflexivity |].
  destruct e; cbn; rewrite IH; reflexivity.
Qed.

(** [C9] Let [env] say, for each path, what a read of it is answered and
    which HTTP code and payload type the client reports after that read; the
    path is reported missing or null when the read fails with the code
    [FIREBASE_ERROR_PATH_NOT_EXIST] or with the payload type "null".  Every
    execution of the bootstrapper whose answers are those of [env] makes these
    requests to the database, in this order: the read of the trigger path;
    the write of [false] to it if and only if it is reported missing or null;
    the read of the queue path; the write of [{}] to it if and only if it is
    reported missing or null.  A read that fails in any other way leads to no
    write and does not turn the result to [false]: the result is [false] only
    when a write was refused.  In particular the call writes nothing when
    neither path is reported missing or null, as on a store that holds both
    paths. *)
Theorem checkAndInit_writes_iff_absent (T : trace) (result : bool) :
  exec (checkAndInitFirebaseStructure FIREBASE_ERROR_PATH_NOT_EXIST) T result ->
  answers_reads env None T = true ->
  exists wf wq,
    let flag := env FIREBASE_DIRECT_TRIGGER_PATH in
    let queue := env FIREBASE_QUEUE_PATH in
    let write_flag :=
      if missing flag
      then [Obs (RTDB_setBool FIREBASE_DIRECT_TRIGGER_PATH false) wf]
      else [] in
    let write_queue :=
      if missing queue
      then [Obs (RTDB_setJSON FIREBASE_QUEUE_PATH "{}") wq]
      else [] in
    rtdb_requests T =
      Obs (RTDB_get FIREBASE_DIRECT_TRIGGER_PATH) (rr_ok flag) :: write_flag
      ++ Obs (RTDB_get FIREBASE_QUEUE_PATH) (rr_ok queue) :: write_queue /\
    reads T = [FIREBASE_DIRECT_TRIGGER_PATH; FIREBASE_QUEUE_PATH] /\
    store_updates T = write_flag ++ write_queue /\
    result = forallb update_ok (store_updates T) /\
    (missing flag = false -> missing queue = false ->
     store_updates T = [] /\ result = true) /\
    (rr_ok flag = true -> rr_ok queue = true ->
     store_updates T = [] /\ result = true).
Proof.
  intros H Ha; unfold checkAndInitFirebaseStructure in H.
  apply exec_bind in H; destruct H as (Tflag & s1 & rest & -> & Hf & H).
  apply exec_bind in H; destruct H as (Tqueue & s2 & fin & -> & Hq & H).
  cbn in H; destruct H as [-> ->]; rewrite app_nil_r in *.
  apply answers_reads_app in Ha; destruct Ha as (Haf & last & Haq).
  destruct (checkAndInit_trigger_asked _ _ _ _ Hf Haf) as (wf & Hrf & ->).
  destruct (checkAndInit_queue_asked _ _ _ _ Hq Haq) as (wq & Hrq & ->).
  exists wf, wq; cbv zeta.
  assert (Hr : rtdb_requests (Tflag ++ Tqueue) =
            Obs (RTDB_get FIREBASE_DIRECT_TRIGGER_PATH)
              (rr_ok (env FIREBASE_DIRECT_TRIGGER_PATH))
            :: (if missing (env FIREBASE_DIRECT_TRIGGER_PATH)
                then [Obs (RTDB_setBool FIREBASE_DIRECT_TRIGGER_PATH false) wf]
                else [])
            ++ Obs (RTDB_get FIREBASE_QUEUE_PATH)
                 (rr_ok (env FIREBASE_QUEUE_PATH))
               :: (if missing (env FIREBASE_QUEUE_PATH)
                   then [Obs (RTDB_setJSON FIREBASE_QUEUE_PATH "{}") wq]
                   else []))
    by (unfold rtdb_requests in *; rewrite filter_app, Hrf, Hrq; reflexivity).
  assert (Hw : store_updates (Tflag ++ Tqueue) =
            (if missing (env FIREBASE_DIRECT_TRIGGER_PATH)
             then [Obs (RTDB_setBool FIREBASE_DIRECT_TRIGGER_PATH false) wf]
             else [])
            ++ (if missing (env FIREBASE_QUEUE_PATH)
                then [Obs (RTDB_setJSON FIREBASE_QUEUE_PATH "{}") wq]
                else [])).
  { rewrite <- store_updates_rtdb_requests, Hr.
    destruct (missing (env FIREBASE_DIRECT_TRIGGER_PATH)),
      (missing (env FIREBASE_QUEUE_PATH)); reflexivity. }
  assert (Hres : true && forallb update_ok (store_updates Tflag)
                 && forallb update_ok (store_updates Tqueue)
                 = forallb update_ok (store_updates (Tflag ++ Tqueue)))
    by (rewrite store_updates_app, forallb_app; reflexivity).
  assert (Hnone : missing (env FIREBASE_DIRECT_TRIGGER_PATH) = false ->
                  missing (env FIREBASE_QUEUE_PATH) = false ->
                  store_updates (Tflag ++ Tqueue) = [] /\
                  true && forallb update_ok (store_updates Tflag)
                  && forallb update_ok (store_updates Tqueue) = true).
  { intros Ef Eq; rewrite Hres, Hw, Ef, Eq; split; reflexivity. }
  split; [exact Hr |].
  split.
  { rewrite <- reads_rtdb_requests, Hr.
    destruct (missing (env FIREBASE_DIRECT_TRIGGER_PATH)),
      (missing (env FIREBASE_QUEUE_PATH)); reflexivity. }
  split; [exact Hw |].
  split; [exact Hres |].
  split; [exact Hnone |].
  intros Ef Eq; apply Hnone; unfold reported_missing;
    [rewrite Ef | rewrite Eq]; reflexivity.
Qed.

End Bootstrapper.

Lemma checkAndInit_writes_iff_absent_witness :
  (exec (checkAndInitFirebaseStructure demo_notExist) demo_boot true /\
   answers_reads empty_store None demo_boot = true /\
   store_updates demo_boot =
     [ Obs (RTDB_setBool FIREBASE_DIRECT_TRIGGER_PATH false) true;
       Obs (RTDB_setJSON FIREBASE_QUEUE_PATH "{}") true ]) /\
  (exec (checkAndInitFirebaseStructure demo_notExist) demo_reboot true /\
   answers_reads initialized_store None demo_reboot = true /\
   store_updates demo_reboot = []).
Proof.
  assert (Hb : exec (checkAndInitFirebaseStructure demo_notExist)
                 demo_boot true)
    by exact (run_exec World bool cloud
                (checkAndInitFirebaseStructure demo_notExist)
                (world_of None None)).
  assert (Hr : exec (checkAndInitFirebaseStructure demo_notExist)
                 demo_reboot true)
    by exact (run_exec World bool cloud
                (checkAndInitFirebaseStructure demo_notExist)
                (world_after (world_of None None)
                   (checkAndInitFirebaseStructure demo_notExist))).
  split.
  - split; [exact Hb |].
    split; [reflexivity |].
    destruct (checkAndInit_writes_iff_absent demo_notExist empty_store
                demo_boot true Hb eq_refl) as (wf & wq & _ & _ & Hw & _).
    reflexivity.
  - split; [exact Hr |].
    split; [reflexivity |].
    destruct (checkAndInit_writes_iff_absent demo_notExist initialized_store
                demo_reboot true Hr eq_refl)
      as (wf & wq & _ & _ & _ & _ & _ & Hnone).
    exact (proj1 (Hnone eq_refl eq_refl)).
Defined.

(** The first call on an empty store creates both paths. *)
Lemma demo_boot_creates_both :
  exec (checkAndInitFirebaseStructure demo_notExist) demo_boot true /\
  store_updates demo_boot =
    [ Obs (RTDB_setBool FIREBASE_DIRECT_TRIGGER_PATH false) true;
      Obs (RTDB_setJSON FIREBASE_QUEUE_PATH "{}") true ].
Proof.
  split; [| reflexivity].
  exact (run_exec World bool cloud
           (checkAndInitFirebaseStructure demo_notExist) (world_of None None)).
Qed.

(** ** Marking and pruning *)

Section Pruning.

Variable toInt : string -> Z.
Variable DELETE_COMPLETED_QUEUE_TASKS : bool.

Local Abbreviation task := (processWolQueue_task toInt DELETE_COMPLETED_QUEUE_TASKS).
Local Abbreviation loop := (processWolQueue_loop toInt DELETE_COMPLETED_QUEUE_TASKS).
Local Abbreviation prune := (processWolQueue_prune DELETE_COMPLETED_QUEUE_TASKS).
Local Abbreviation pass := (processWolQueue toInt DELETE_COMPLETED_QUEUE_TASKS).
Local Abbreviation in_pass := (iteration_in_pass toInt DELETE_COMPLETED_QUEUE_TASKS).

Lemma pending_is_not_done (s : string) :
  String.eqb s "pending" = true -> String.eqb s "done" = false.
Proof. intros H; apply String.eqb_eq in H; subst s; reflexivity. Qed.

(** What an iteration does to [completedTaskIds]: it appends the entry's key
    when pruning is on and the task was written or found "done", and leaves
    the list alone otherwise.  It never deletes. *)
Lemma task_marks (i : nat) (ids ids' : list string) (t : trace) :
  exec (task i ids) t ids' ->
  deletions t = [] /\
  exists key,
    entry_key t = Some key /\
    ids' = ids ++
      (if DELETE_COMPLETED_QUEUE_TASKS && (done_committed t || found_done t)
       then [key] else []).
Proof.
  intros H; unfold processWolQueue_task in H.
  repeat exec_case H.
  all: split; [reflexivity |].
  all: eexists; split; [reflexivity |].
  all: unfold found_done, done_committed, readable; cbn.
  all: repeat match goal with
         | E : _ && _ = true |- _ => apply andb_prop in E; destruct E
         | E : String.eqb _ "pending" = true |- _ =>
             apply pending_is_not_done in E
         | E : negb ?x = _ |- _ =>
             destruct x eqn:?; try discriminate E; clear E
         end.
  all: repeat match goal with
         | E : success _ = _ |- _ => rewrite E
         | E : String.eqb _ "done" = _ |- _ => rewrite E
         end.
  all: cbn; rewrite ?andb_false_r, ?andb_true_r, ?app_nil_r; try reflexivity.
  all: destruct DELETE_COMPLETED_QUEUE_TASKS; cbn; rewrite ?app_nil_r;
    try reflexivity.
  destruct (String.eqb (stringValue f) "done"); rewrite ?app_nil_r; reflexivity.
Qed.

Lemma deletions_app (t1 t2 : trace) :
  deletions (t1 ++ t2) = deletions t1 ++ deletions t2.
Proof. apply filter_map_app. Qed.

(** The loop only ever appends to [completedTaskIds], and never deletes. *)
Lemma loop_marks (n : nat) :
  forall (i : nat) (ids marked : list string) (L : trace),
    exec (loop n i ids) L marked ->
    deletions L = [] /\ exists more, marked = ids ++ more.
Proof.
  induction n as [| n IH]; intros i ids marked L H.
  - cbn in H; destruct H as [-> ->]; split; [reflexivity |].
    exists []; rewrite app_nil_r; reflexivity.
  - cbn [processWolQueue_loop] in H.
    apply exec_bind in H; destruct H as (t & ids' & rest & -> & Ht & Hr).
    destruct (task_marks i ids ids' t Ht) as (Hd & key & _ & ->).
    destruct (IH _ _ _ _ Hr) as (Hd' & more & ->).
    split.
    + rewrite deletions_app, Hd, Hd'; reflexivity.
    + eexists; rewrite <- app_assoc; reflexivity.
Qed.

(** The deletion loop asks for every id in turn, whatever the answers; a
    refusal is followed by its error line and nothing else. *)
Lemma delete_all (ids : list string) :
  forall (P : trace) (u : unit),
    exec (processWolQueue_delete ids) P u ->
    exists answers,
      List.length answers = List.length ids /\
      P = flat_map delete_step (combine ids answers) /\
      deletions P = map task_path ids.
Proof.
  induction ids as [| id ids IH]; intros P u H.
  - cbn in H; destruct H as [-> _]; exists []; repeat split.
  - cbn [processWolQueue_delete] in H.
    do 2 exec_step H.
    apply exec_bind in H; destruct H as (t1 & u1 & rest & -> & H1 & Hrest).
    destruct (IH _ _ Hrest) as (answers & Hlen & -> & Hdel).
    destruct r0; cbn [negb] in H1; repeat exec_step H1; units.
    + exists ((true, "") :: answers); cbn; rewrite Hlen.
      repeat split; try reflexivity.
      unfold deletions in *; cbn; rewrite Hdel; reflexivity.
    + match goal with |- context [Obs fbdo_errorReason ?x] =>
        exists ((false, x) :: answers) end.
      cbn; rewrite Hlen; repeat split; try reflexivity.
      unfold deletions in *; cbn; rewrite Hdel; reflexivity.
Qed.

(** An iteration that meets a per-task failure marks nothing, and has no
    effect at all when the failure makes it skip the task. *)
Lemma task_failure (i : nat) (ids ids' : list string) (t : trace) :
  exec (task i ids) t ids' ->
  per_task_failure t = true ->
  ids' = ids /\ (skipping_failure t = true -> effects t = []).
Proof.
  intros H Hf; unfold processWolQueue_task in H.
  repeat exec_case H.
  all: change (FIREBASE_QUEUE_PATH ++ "/" ++ ?k)%string with (task_path k) in *.
  all: unfold per_task_failure, skipping_failure, not_object, fetch_failed,
         status_unreadable, write_failed, readable in *;
       cbn -[task_path] in *; rewrite ?String.eqb_refl in *;
       cbn -[task_path] in *.
  all: repeat match goal with
         | E : _ && _ = true |- _ => apply andb_prop in E; destruct E
         | E : negb ?x = _ |- _ =>
             destruct x eqn:?; try discriminate E; clear E
         end.
  all: repeat match goal with
         | E : success _ = _ |- _ => rewrite E in *
         | E : jsonDataType_eqb _ _ = _ |- _ => rewrite E in *
         | E : is_json _ = _ |- _ => rewrite E in *
         end.
  all: cbn -[task_path] in *; try discriminate Hf.
  all: split; [reflexivity | try reflexivity; try discriminate].
Qed.

(** Every program returns against every environment. *)
Lemma run_returns (S : Type) (h : handler S) (p : prog unit) (s : S) :
  exec p (snd (run h p s)) tt.
Proof.
  pose proof (run_exec S unit h p s) as H.
  destruct (fst (fst (run h p s))); exact H.
Qed.

(** [C7] In a pass of [processWolQueue], let the iteration [t] on some entry
    meet a per-task failure: the entry is not an object, the fetch of the
    task fails, its status cannot be read, or a status write is refused.
    Then the failure stays with that task: [t] marks nothing, and has no
    effect at all when it is one of the first three; the iterations before
    and after it are executions of the same loop with the same
    [completedTaskIds] as if [t] had not been there; every entry of the
    snapshot still has its iteration in the pass; and the pass returns,
    whatever the environment answers. *)
Theorem per_task_failure_is_contained
    (T : trace) (n j : nat) (before t after : trace) (marked : list string) :
  exec pass T tt ->
  in_pass T n j before t after marked ->
  per_task_failure t = true ->
  (skipping_failure t = true -> effects t = []) /\
  (exists earlier ids later closing,
     before = pass_prelude n ++ earlier /\
     exec (loop j 0 []) earlier ids /\
     exec (task j ids) t ids /\
     after = later ++ closing /\
     exec (loop (n - S j) (S j) ids) later marked) /\
  (forall j', (j' < n)%nat ->
     exists before' t' after' marked',
       in_pass T n j' before' t' after' marked') /\
  (forall (S : Type) (h : handler S) (s : S),
     exec pass (snd (run h pass s)) tt).
Proof.
  intros HT Hin Hf.
  assert (Hcount : iterator_count T = Some n).
  { destruct Hin as (-> & earlier & ? & ? & ? & ? & -> & _); reflexivity. }
  destruct Hin
    as (_ & earlier & ids & ids' & later & pruning & -> & He & Ht & Hl & _ & ->).
  destruct (task_failure j ids ids' t Ht Hf) as [-> Hskip].
  split; [exact Hskip |].
  split; [exists earlier, ids, later; eexists; repeat split; eauto |].
  split.
  - intros j' Hj'; exact (pass_iterations toInt _ T n j' HT Hcount Hj').
  - intros S h s; apply run_returns.
Qed.

End Pruning.

Lemma faulty_pass_exec : exec (processWolQueue demo_toInt false) faulty_pass tt.
Proof.
  exact (run_exec World unit cloud (processWolQueue demo_toInt false)
           faulty_world).
Qed.

Lemma faulty_in_pass_a :
  iteration_in_pass demo_toInt false faulty_pass 5 1
    (pass_prelude 5 ++ faulty_junk) faulty_a
    (faulty_b ++ faulty_c ++ faulty_d ++ demo_closing) [].
Proof.
  split; [reflexivity |].
  exists faulty_junk, [], [], (faulty_b ++ faulty_c ++ faulty_d), [].
  repeat split; try reflexivity; exec_build.
Qed.

Lemma per_task_failure_is_contained_witness :
  exec (processWolQueue demo_toInt false) faulty_pass tt /\
  iteration_in_pass demo_toInt false faulty_pass 5 1
    (pass_prelude 5 ++ faulty_junk) faulty_a
    (faulty_b ++ faulty_c ++ faulty_d ++ demo_closing) [] /\
  fetch_failed faulty_a = true /\ per_task_failure faulty_a = true /\
  effects faulty_a = [] /\
  dispatches faulty_pass =
    [Some "CC:CC:CC:CC:CC:CC"; Some "DD:DD:DD:DD:DD:DD"].
Proof.
  split; [exact faulty_pass_exec |].
  split; [exact faulty_in_pass_a |].
  split; [reflexivity |].
  split; [reflexivity |].
  destruct (per_task_failure_is_contained demo_toInt false faulty_pass 5 1
              (pass_prelude 5 ++ faulty_junk) faulty_a
              (faulty_b ++ faulty_c ++ faulty_d ++ demo_closing) []
              faulty_pass_exec faulty_in_pass_a eq_refl) as (Hskip & _).
  split; [exact (Hskip eq_refl) | reflexivity].
Defined.

(** [C8] With pruning enabled, take in a pass the iteration [t] on an entry
    [key] whose "done" write was accepted, or whose status was found to be
    "done".  Then [key] is among the marked ids, and the pass asks for the
    deletion of every marked id, in order, one request each: these are all
    the deletions of the pass, and all of them come after the loop is over
    (there is none before [t], in [t], or in the iterations after it).  The
    deletion requests are made whatever their answers; a refused one is
    followed by its error line and the loop goes on with the next id. *)
Theorem marked_tasks_deleted_after_the_pass
    (toInt : string -> Z) (T : trace) (n j : nat) (before t after : trace)
    (marked : list string) (key : string) :
  exec (processWolQueue toInt true) T tt ->
  iteration_in_pass toInt true T n j before t after marked ->
  entry_key t = Some key ->
  done_committed t || found_done t = true ->
  exists later answers,
    after =
      later ++ Obs json_iteratorEnd tt
      :: (Obs (Serial_printf "[QUEUE] Deleting %d completed tasks...\n"
                 [PInt (Z.of_nat (List.length marked))]) tt
          :: flat_map delete_step (combine marked answers))
      ++ [Obs (Serial_println "[QUEUE] Queue check finished.") tt] /\
    List.length answers = List.length marked /\
    In key marked /\
    deletions before = [] /\ deletions t = [] /\ deletions later = [] /\
    deletions T = map task_path marked.
Proof.
  intros _ Hin Hk Hm.
  destruct Hin
    as (-> & earlier & ids & ids' & later & pruning & -> & He & Ht & Hl & Hp & ->).
  destruct (task_marks toInt true j ids ids' t Ht) as (Hdt & key' & Hk' & ->).
  rewrite Hk in Hk'; injection Hk' as <-.
  cbn [andb] in Hl; rewrite Hm in Hl.
  destruct (loop_marks toInt true _ _ _ _ _ He) as (Hde & _).
  destruct (loop_marks toInt true _ _ _ _ _ Hl) as (Hdl & more & ->).
  assert (Hin : In key ((ids ++ [key]) ++ more))
    by (apply in_or_app; left; apply in_or_app; right; left; reflexivity).
  unfold processWolQueue_prune in Hp; cbn [andb] in Hp.
  destruct (Nat.eqb_spec (List.length ((ids ++ [key]) ++ more)) 0) as [Hz | _].
  { destruct ((ids ++ [key]) ++ more); [destruct Hin | discriminate Hz]. }
  cbn [negb] in Hp; exec_step Hp.
  destruct (delete_all _ _ _ Hp) as (answers & Hlen & -> & Hdp).
  units; exists later, answers.
  repeat split; auto.
  rewrite !deletions_app, Hde, Hdt, Hdl; cbn.
  change (deletions (flat_map delete_step (combine ((ids ++ [key]) ++ more) answers)
                     ++ [Obs (Serial_println "[QUEUE] Queue check finished.") tt])
          = map task_path ((ids ++ [key]) ++ more)).
  rewrite deletions_app, Hdp; cbn; apply app_nil_r.
Qed.

Lemma demo_pruned_exec : exec (processWolQueue demo_toInt true) demo_pruned tt.
Proof.
  exact (run_exec World unit cloud (processWolQueue demo_toInt true)
           (failing [(Delete, "/wol/queue/t1")] demo_world)).
Qed.

Lemma demo_pruned_in_pass_t1 :
  iteration_in_pass demo_toInt true demo_pruned 4 0
    (pass_prelude 4) demo_t1
    (demo_t2 ++ demo_t3 ++ demo_t4 ++ Obs json_iteratorEnd tt :: demo_pruning
     ++ [Obs (Serial_println "[QUEUE] Queue check finished.") tt])
    ["t1"; "t3"].
Proof.
  split; [reflexivity |].
  exists [], [], ["t1"], (demo_t2 ++ demo_t3 ++ demo_t4), demo_pruning.
  repeat split; try reflexivity; exec_build.
Qed.

Lemma marked_tasks_deleted_after_the_pass_witness :
  exec (processWolQueue demo_toInt true) demo_pruned tt /\
  iteration_in_pass demo_toInt true demo_pruned 4 0
    (pass_prelude 4) demo_t1
    (demo_t2 ++ demo_t3 ++ demo_t4 ++ Obs json_iteratorEnd tt :: demo_pruning
     ++ [Obs (Serial_println "[QUEUE] Queue check finished.") tt])
    ["t1"; "t3"] /\
  entry_key demo_t1 = Some "t1" /\
  done_committed demo_t1 || found_done demo_t1 = true /\
  deletions demo_pruned = ["/wol/queue/t1"; "/wol/queue/t3"] /\
  filter is_delete demo_pruned =
    [ Obs (RTDB_deleteNode "/wol/queue/t1") false;
      Obs (RTDB_deleteNode "/wol/queue/t3") true ].
Proof.
  split; [exact demo_pruned_exec |].
  split; [exact demo_pruned_in_pass_t1 |].
  split; [reflexivity |].
  split; [reflexivity |].
  destruct (marked_tasks_deleted_after_the_pass demo_toInt demo_pruned 4 0
              (pass_prelude 4) demo_t1 _ ["t1"; "t3"] "t1"
              demo_pruned_exec demo_pruned_in_pass_t1 eq_refl eq_refl)
    as (later & answers & _ & _ & _ & _ & _ & _ & Hdel).
  split; [exact Hdel | reflexivity].
Defined.

(** ** The sketch against the concrete store *)

Lemma run_bind (S A B : Type) (h : handler S) (p : prog A) (f : A -> prog B)
    (s : S) :
  run h (bind p f) s =
    let '(a, s1, t1) := run h p s in
    let '(b, s2, t2) := run h (f a) s1 in
    (b, s2, t1 ++ t2).
Proof.
  revert s; induction p as [a | R e k IH]; intros s; cbn.
  - destruct (run h (f a) s) as [[b s2] t2]; reflexivity.
  - destruct (h R e s) as [r s1].
    rewrite IH.
    destruct (run h (k r) s1) as [[a s2] t1].
    destruct (run h (f a) s2) as [[b s3] t2]; reflexivity.
Qed.

(** Split on the innermost test the goal is stuck on. *)
Ltac break_match :=
  match goal with
  | |- context [match ?x with _ => _ end] =>
      lazymatch x with
      | context [match _ with _ => _ end] => fail
      | _ => destruct x eqn:?
      end
  end.

Section CloudBootstrap.

Variable FIREBASE_ERROR_PATH_NOT_EXIST : Z.

Local Abbreviation boot :=
  (checkAndInitFirebaseStructure FIREBASE_ERROR_PATH_NOT_EXIST).
Local Abbreviation boot_trigger :=
  (checkAndInit_trigger FIREBASE_ERROR_PATH_NOT_EXIST).
Local Abbreviation boot_queue :=
  (checkAndInit_queue FIREBASE_ERROR_PATH_NOT_EXIST).

(** On a reachable store, the trigger block leaves a flag behind, touches
    nothing else, and writes nothing when the flag was there already. *)
Lemma cloud_trigger_block (w : World) (success : bool) :
  reachable w ->
  let r := run cloud (boot_trigger success) w in
  reachable (snd (fst r)) /\
  w_queue (snd (fst r)) = w_queue w /\
  w_flag (snd (fst r)) <> None /\
  (w_flag w <> None ->
   store_updates (snd r) = [] /\ w_flag (snd (fst r)) = w_flag w).
Proof.
  intros Hok; destruct w as [rdy ip flag queue fail http pl it].
  unfold reachable in *; cbn in Hok.
  unfold checkAndInit_trigger, missing_or_null.
  destruct flag as [b |];
    [| destruct (200 =? FIREBASE_ERROR_PATH_NOT_EXIST) eqn:Hcode ];
    repeat (cbn -[Z.eqb]; unfold cloud_read, cloud_write, read_path;
            rewrite ?Hok, ?Hcode);
    repeat split; auto; try discriminate; try (intros Hnone; contradiction);
    exfalso; auto.
Qed.

Lemma cloud_queue_block (w : World) (success : bool) :
  reachable w ->
  let r := run cloud (boot_queue success) w in
  reachable (snd (fst r)) /\
  w_flag (snd (fst r)) = w_flag w /\
  w_queue (snd (fst r)) <> None /\
  (w_queue w <> None ->
   store_updates (snd r) = [] /\ w_queue (snd (fst r)) = w_queue w).
Proof.
  intros Hok; destruct w as [rdy ip flag queue fail http pl it].
  unfold reachable in *; cbn in Hok.
  unfold checkAndInit_queue, missing_or_null.
  destruct queue as [q |];
    [| destruct (200 =? FIREBASE_ERROR_PATH_NOT_EXIST) eqn:Hcode ];
    repeat (cbn -[Z.eqb]; unfold cloud_read, cloud_write, read_path;
            rewrite ?Hok, ?Hcode);
    repeat split; auto; try discriminate; try (intros Hnone; contradiction);
    exfalso; auto.
Qed.

(** On a reachable store the bootstrapper leaves both paths in place. *)
Lemma cloud_bootstrap_initializes (w : World) :
  reachable w ->
  let w' := world_after w boot in
  reachable w' /\ w_flag w' <> None /\ w_queue w' <> None.
Proof.
  intros Hok; unfold world_after, checkAndInitFirebaseStructure.
  rewrite run_bind.
  pose proof (cloud_trigger_block w true Hok) as Ht; cbv zeta in Ht.
  destruct (run cloud (checkAndInit_trigger _ true) w) as [[s1 w1] t1].
  cbn [fst snd] in Ht; destruct Ht as (Hok1 & Hq1 & Hf1 & _).
  rewrite run_bind.
  pose proof (cloud_queue_block w1 s1 Hok1) as Hq; cbv zeta in Hq.
  destruct (run cloud (checkAndInit_queue _ s1) w1) as [[s2 w2] t2].
  cbn [fst snd] in *; destruct Hq as (Hok2 & Hf2 & Hq2 & _).
  cbn; split; [exact Hok2 |].
  split; [rewrite Hf2; exact Hf1 | exact Hq2].
Qed.

(** On a reachable store that holds both paths, the bootstrapper writes
    nothing and leaves the store as it is. *)
Lemma cloud_bootstrap_on_initialized (w : World) :
  reachable w -> w_flag w <> None -> w_queue w <> None ->
  store_updates (trace_in w boot) = [].
Proof.
  intros Hok Hf Hq; unfold trace_in, checkAndInitFirebaseStructure.
  rewrite run_bind.
  pose proof (cloud_trigger_block w true Hok) as Ht; cbv zeta in Ht.
  destruct (run cloud (checkAndInit_trigger _ true) w) as [[s1 w1] t1].
  cbn [fst snd] in Ht; destruct Ht as (Hok1 & Hq1 & _ & Hn1).
  destruct (Hn1 Hf) as [Hu1 _].
  rewrite run_bind.
  pose proof (cloud_queue_block w1 s1 Hok1) as Hq'; cbv zeta in Hq'.
  destruct (run cloud (checkAndInit_queue _ s1) w1) as [[s2 w2] t2].
  cbn [fst snd] in *; destruct Hq' as (_ & _ & _ & Hn2).
  destruct (Hn2 ltac:(rewrite Hq1; exact Hq)) as [Hu2 _].
  cbn; rewrite !store_updates_app, Hu1, Hu2; reflexivity.
Qed.

(** Two calls in a row on a reachable store: the second writes nothing. *)
Lemma cloud_bootstrap_twice (w : World) :
  reachable w ->
  store_updates (trace_in (world_after w boot) boot) = [].
Proof.
  intros Hok.
  destruct (cloud_bootstrap_initializes w Hok) as (Hok' & Hf & Hq).
  apply cloud_bootstrap_on_initialized; assumption.
Qed.

End CloudBootstrap.

(** *** Paths and the collection *)

#[local] Arguments task_path : simpl never.
#[local] Arguments status_path : simpl never.

Lemma append_length (a b : string) :
  String.length (a ++ b) = (String.length a + String.length b)%nat.
Proof. induction a as [| c a IH]; cbn; [reflexivity | rewrite IH; reflexivity]. Qed.

Lemma append_inj_r (s : string) :
  forall a b : string, (a ++ s)%string = (b ++ s)%string -> a = b.
Proof.
  induction a as [| c a IH]; destruct b as [| d b]; cbn; intros H.
  - reflexivity.
  - apply (f_equal String.length) in H; cbn in H; rewrite append_length in H; lia.
  - apply (f_equal String.length) in H; cbn in H; rewrite append_length in H; lia.
  - injection H as -> H; f_equal; apply IH; exact H.
Qed.

Lemma append_eqb_l (p a b : string) :
  String.eqb (p ++ a) (p ++ b) = String.eqb a b.
Proof.
  induction p as [| c p IH]; cbn; [reflexivity |].
  rewrite Ascii.eqb_refl; exact IH.
Qed.

Lemma append_eqb_r (s a b : string) :
  String.eqb (a ++ s) (b ++ s) = String.eqb a b.
Proof.
  destruct (String.eqb_spec a b) as [-> | Hne].
  - apply String.eqb_refl.
  - apply String.eqb_neq; intros H; apply Hne, (append_inj_r s); exact H.
Qed.

Lemma task_path_eqb (a b : string) :
  String.eqb (task_path a) (task_path b) = String.eqb a b.
Proof. unfold task_path; rewrite !append_eqb_l; reflexivity. Qed.

Lemma status_path_eqb (a b : string) :
  String.eqb (status_path a) (status_path b) = String.eqb a b.
Proof. unfold status_path; rewrite append_eqb_r; apply task_path_eqb. Qed.

Lemma task_path_not_flag (a : string) :
  String.eqb (task_path a) FIREBASE_DIRECT_TRIGGER_PATH = false.
Proof. reflexivity. Qed.

Lemma task_path_not_queue (a : string) :
  String.eqb (task_path a) FIREBASE_QUEUE_PATH = false.
Proof. reflexivity. Qed.

Lemma find_path_key (A : Type) (key : string) (q : list (string * A))
    (k : string) (a : A) :
  find_path task_path (task_path key) q = Some (k, a) -> k = key.
Proof.
  induction q as [| [k0 a0] q IH]; cbn; [discriminate |].
  rewrite task_path_eqb.
  destruct (String.eqb_spec k0 key) as [-> | _]; [| exact IH].
  intros H; injection H as -> _; reflexivity.
Qed.

Lemma find_path_absent (A : Type) (key : string) (q : list (string * A)) :
  ~ In key (map fst q) -> find_path task_path (task_path key) q = None.
Proof.
  induction q as [| [k0 a0] q IH]; cbn; intros Hn; [reflexivity |].
  rewrite task_path_eqb.
  destruct (String.eqb_spec k0 key) as [-> | _].
  - exfalso; apply Hn; left; reflexivity.
  - apply IH; intros Hin; apply Hn; right; exact Hin.
Qed.

Lemma assoc_set_field (k : string) (v : jval) (fields : list (string * jval)) :
  assoc k (set_field k v fields) = Some v.
Proof.
  induction fields as [| [k' v'] fields IH]; cbn.
  - rewrite String.eqb_refl; reflexivity.
  - destruct (String.eqb k k') eqn:E; cbn; [rewrite String.eqb_refl | rewrite E];
      auto.
Qed.

Lemma set_status_ids (p v : string) (q : list (string * node)) :
  map fst (set_status p v q) = map fst q.
Proof.
  induction q as [| [k n] q IH]; cbn; [reflexivity |].
  destruct (String.eqb (status_path k) p); [destruct n |]; cbn;
    rewrite ?IH; reflexivity.
Qed.

Lemma find_set_status_other (k key v : string) (q : list (string * node)) :
  k <> key ->
  find_path task_path (task_path key) (set_status (status_path k) v q) =
  find_path task_path (task_path key) q.
Proof.
  intros Hne; induction q as [| [k0 n] q IH]; cbn; [reflexivity |].
  rewrite status_path_eqb, task_path_eqb.
  destruct (String.eqb_spec k0 k) as [-> | Hk].
  - destruct (String.eqb_spec k key) as [E | _]; [contradiction |].
    destruct n; cbn; rewrite task_path_eqb;
      destruct (String.eqb_spec k key); try contradiction; reflexivity.
  - cbn; rewrite task_path_eqb, IH; reflexivity.
Qed.

Lemma find_set_status_same (key v : string) (q : list (string * node))
    (k : string) (fields : list (string * jval)) :
  find_path task_path (task_path key) q = Some (k, Obj fields) ->
  find_path task_path (task_path key) (set_status (status_path key) v q) =
  Some (k, Obj (set_field "status" (JStr v) fields)).
Proof.
  induction q as [| [k0 n] q IH]; cbn; [discriminate |].
  rewrite status_path_eqb, task_path_eqb.
  destruct (String.eqb_spec k0 key) as [-> | Hk].
  - intros H; injection H as <- ->; cbn.
    rewrite task_path_eqb, String.eqb_refl; reflexivity.
  - intros H; cbn; rewrite task_path_eqb.
    destruct (String.eqb_spec k0 key); [contradiction | auto].
Qed.

Lemma find_remove_other (k key : string) (q : list (string * node)) :
  k <> key ->
  find_path task_path (task_path key) (remove_path (task_path k) q) =
  find_path task_path (task_path key) q.
Proof.
  intros Hne; induction q as [| [k0 n] q IH]; cbn; [reflexivity |].
  rewrite !task_path_eqb.
  destruct (String.eqb_spec k0 k) as [-> | Hk].
  - destruct (String.eqb_spec k key); [contradiction | reflexivity].
  - cbn; rewrite task_path_eqb, IH; reflexivity.
Qed.

Lemma remove_ids_incl (p : string) (q : list (string * node)) (x : string) :
  In x (map fst (remove_path p q)) -> In x (map fst q).
Proof.
  induction q as [| [k0 n] q IH]; cbn; [auto |].
  destruct (String.eqb (task_path k0) p); cbn; intuition.
Qed.

Lemma remove_ids_distinct (p : string) (q : list (string * node)) :
  NoDup (map fst q) -> NoDup (map fst (remove_path p q)).
Proof.
  induction q as [| [k0 n] q IH]; cbn; intros H; [exact H |].
  inversion H as [| ? ? Hnotin Hrest]; subst.
  destruct (String.eqb (task_path k0) p); cbn; [exact Hrest |].
  constructor; [| apply IH; exact Hrest].
  intros Hin; apply Hnotin, (remove_ids_incl p); exact Hin.
Qed.

Lemma find_remove_same (key : string) (q : list (string * node)) :
  NoDup (map fst q) ->
  find_path task_path (task_path key) (remove_path (task_path key) q) = None.
Proof.
  induction q as [| [k0 n] q IH]; cbn; intros H; [reflexivity |].
  inversion H as [| ? ? Hnotin Hrest]; subst.
  rewrite task_path_eqb.
  destruct (String.eqb_spec k0 key) as [-> | Hk].
  - apply find_path_absent; exact Hnotin.
  - cbn; rewrite task_path_eqb.
    destruct (String.eqb_spec k0 key); [contradiction | apply IH; exact Hrest].
Qed.

(** *** One iteration against the store *)

Section CloudQueue.

Variable toInt : string -> Z.
Variable DELETE_COMPLETED_QUEUE_TASKS : bool.

Local Abbreviation task := (processWolQueue_task toInt DELETE_COMPLETED_QUEUE_TASKS).
Local Abbreviation loop := (processWolQueue_loop toInt DELETE_COMPLETED_QUEUE_TASKS).
Local Abbreviation prune := (processWolQueue_prune DELETE_COMPLETED_QUEUE_TASKS).
Local Abbreviation pass := (processWolQueue toInt DELETE_COMPLETED_QUEUE_TASKS).

Ltac cloud_step :=
  cbn -[task_path status_path extract_delay Z.gtb set_status find_path
        String.eqb];
  unfold cloud_read, cloud_write, read_path;
  cbn -[task_path status_path extract_delay Z.gtb set_status find_path
        String.eqb];
  rewrite ?task_path_not_flag, ?task_path_not_queue.

Lemma cloud_task_summary (w : World) (i : nat) (ids : list string) :
  let r := run cloud (task i ids) w in
  let w' := snd (fst r) in
  let t := snd r in
  exists k,
    (forall cur,
       dispatched_keys cur t = [] \/
       (dispatched_keys cur t = [k] /\ pending_in w k)) /\
    ((w_queue w' = w_queue w /\ forall key, commits key t = false) \/
     (pending_in w k /\
      exists v q,
        w_queue w = Some q /\
        w_queue w' = Some (set_status (status_path k) v q) /\
        forall key, commits key t = true -> key = k /\ v = "done")).
Proof.
  destruct w as [rdy ip flag queue fail http pl it].
  cbv zeta; unfold processWolQueue_task.
  change (FIREBASE_QUEUE_PATH ++ "/" ++ ?k)%string with (task_path k).
  change (task_path ?k ++ "/status")%string with (status_path k).
  cloud_step.
  repeat (break_match; cloud_step).
  all: try (exists ""; split;
              [ intros cur; left; reflexivity
              | left; split; [reflexivity | intros key; reflexivity] ]).
  all: match goal with
       | H : nth_error _ _ = Some (?s, _) |- _ => exists s
       end.
  all: match goal with
       | Hf : find_path task_path (task_path ?s) ?l = Some (_, Obj ?fields),
         Ha : assoc "status" ?fields = Some ?j,
         Hp : success (data_of ?j)
              && String.eqb (stringValue (data_of ?j)) "pending" = true
         |- context [pending_in ?w ?s] =>
           assert (Hpend : pending_in w s)
             by (unfold pending_in, stored; cbn [w_queue]; rewrite Hf; cbn;
                 exists fields; split; [reflexivity |];
                 rewrite Ha; destruct j as [x | x | []]; cbn in Hp;
                 try discriminate Hp;
                 apply String.eqb_eq in Hp; subst x; reflexivity)
       end.
  all: split;
    [ intros cur;
      first [ left; reflexivity | right; split; [reflexivity | exact Hpend] ]
    | first
        [ left; split; [reflexivity |];
          intros key; cbn; rewrite ?andb_false_r; reflexivity
        | right; split; [exact Hpend |];
          eexists; eexists; split; [reflexivity |]; split; [reflexivity |];
          intros key Hc; rewrite status_path_eqb in Hc; cbn in Hc;
          rewrite ?andb_true_r, ?andb_false_r, ?orb_false_r in Hc;
          try discriminate Hc;
          apply String.eqb_eq in Hc; subst; split; reflexivity ] ].
Qed.

Lemma stored_same_queue (w w' : World) (key : string) :
  w_queue w' = w_queue w -> stored w' key = stored w key.
Proof. unfold stored; intros ->; reflexivity. Qed.

Lemma pending_not_done (w : World) (key : string) :
  pending_in w key -> done_or_gone w key -> False.
Proof.
  unfold done_or_gone; intros (fields & -> & Hp) Hd; congruence.
Qed.

(** What one iteration means for a task [key] of the store: it keeps the
    ids distinct; once [key] is done or gone it stays so, and [sendWOL] is
    not called for it; and an accepted "done" for [key] leaves it done. *)
Lemma cloud_task_step (w : World) (i : nat) (ids : list string) (key : string) :
  let r := run cloud (task i ids) w in
  let w' := snd (fst r) in
  let t := snd r in
  (distinct_ids w -> distinct_ids w') /\
  (done_or_gone w key ->
   done_or_gone w' key /\ forall cur, ~ In key (dispatched_keys cur t)) /\
  (commits key t = true -> done_or_gone w' key).
Proof.
  cbv zeta.
  destruct (cloud_task_summary w i ids) as (k & Hdisp & Hstore).
  set (r := run cloud (task i ids) w) in *.
  split; [| split].
  - unfold distinct_ids.
    destruct Hstore as [[-> _] | (_ & v & q & Hq & -> & _)]; [auto |].
    rewrite Hq, set_status_ids; auto.
  - intros Hdone; split.
    + destruct Hstore as [[Hq _] | (Hpend & v & q & Hq & Hq' & _)].
      * unfold done_or_gone; rewrite (stored_same_queue _ _ _ Hq); exact Hdone.
      * assert (Hne : k <> key)
          by (intros ->; exact (pending_not_done _ _ Hpend Hdone)).
        unfold done_or_gone, stored in *; rewrite Hq in Hdone; rewrite Hq'.
        rewrite find_set_status_other; auto.
    + intros cur Hin.
      destruct (Hdisp cur) as [E | [E Hpend]]; rewrite E in Hin;
        [destruct Hin |].
      destruct Hin as [-> | []].
      exact (pending_not_done _ _ Hpend Hdone).
  - intros Hc.
    destruct Hstore as [[_ Hno] | (Hpend & v & q & Hq & Hq' & Hkey)];
      [rewrite Hno in Hc; discriminate |].
    destruct (Hkey key Hc) as [-> ->].
    destruct Hpend as (fields & Hst & _).
    unfold done_or_gone, stored in *; rewrite Hq in Hst; rewrite Hq'.
    destruct (find_path task_path (task_path k) q) as [[k' n] |] eqn:Hf;
      [| discriminate].
    cbn in Hst; injection Hst as ->.
    rewrite (find_set_status_same k "done" q k' fields Hf); cbn.
    apply assoc_set_field.
Qed.

Lemma dispatched_keys_app (key : string) (t2 : trace) :
  (forall cur, ~ In key (dispatched_keys cur t2)) ->
  forall (t1 : trace) (cur : string),
    ~ In key (dispatched_keys cur t1) ->
    ~ In key (dispatched_keys cur (t1 ++ t2)).
Proof.
  intros H2; induction t1 as [| [R e r] t1 IH]; intros cur H1; [apply H2 |].
  destruct e; cbn in *; try (apply IH; exact H1).
  intros [-> | Hin]; [apply H1; left; reflexivity |].
  revert Hin; apply IH; intros Hin; apply H1; right; exact Hin.
Qed.

Lemma commits_app (key : string) (t1 t2 : trace) :
  commits key (t1 ++ t2) = commits key t1 || commits key t2.
Proof. apply existsb_app. Qed.

(** The same for the whole loop. *)
Lemma cloud_loop_step (n : nat) :
  forall (i : nat) (ids : list string) (w : World) (key : string),
    let r := run cloud (loop n i ids) w in
    let w' := snd (fst r) in
    let t := snd r in
    (distinct_ids w -> distinct_ids w') /\
    (done_or_gone w key ->
     done_or_gone w' key /\ forall cur, ~ In key (dispatched_keys cur t)) /\
    (commits key t = true -> done_or_gone w' key).
Proof.
  induction n as [| n IH]; intros i ids w key; cbv zeta.
  - cbn; repeat split; auto; discriminate.
  - cbn [processWolQueue_loop]; rewrite run_bind.
    pose proof (cloud_task_step w i ids key) as Ht; cbv zeta in Ht.
    destruct (run cloud (task i ids) w) as [[ids1 w1] t1].
    specialize (IH (S i) ids1 w1 key); cbv zeta in IH.
    destruct (run cloud (loop n (S i) ids1) w1) as [[ids2 w2] t2].
    cbn [fst snd] in *.
    destruct Ht as (Hd1 & Ha1 & Hc1); destruct IH as (Hd2 & Ha2 & Hc2).
    split; [auto | split].
    + intros Hdone.
      destruct (Ha1 Hdone) as [Hdone1 Hn1].
      destruct (Ha2 Hdone1) as [Hdone2 Hn2].
      split; [exact Hdone2 |].
      intros cur; apply dispatched_keys_app; auto.
    + rewrite commits_app; intros Hc.
      destruct (commits key t1) eqn:E1.
      * apply Ha2; auto.
      * apply Hc2; exact Hc.
Qed.

(** The deletion loop changes nothing for a task that is done or gone, and
    calls [sendWOL] for nobody. *)
Lemma cloud_delete_step (ids : list string) :
  forall (w : World) (key : string),
    let r := run cloud (processWolQueue_delete ids) w in
    let w' := snd (fst r) in
    let t := snd r in
    distinct_ids w ->
    distinct_ids w' /\
    (done_or_gone w key -> done_or_gone w' key) /\
    (forall cur, dispatched_keys cur t = []) /\
    commits key t = false.
Proof.
  induction ids as [| id ids IH]; intros w key; cbv zeta; intros Hd.
  - cbn; repeat split; auto.
  - cbn [processWolQueue_delete].
    change (FIREBASE_QUEUE_PATH ++ "/" ++ id)%string with (task_path id).
    destruct w as [rdy ip flag queue fail http pl it].
    cbn -[task_path remove_path]; unfold cloud_write;
      cbn -[task_path remove_path].
    destruct (fail Delete (task_path id)) eqn:Hfail;
      cbn -[task_path remove_path];
      match goal with
      | |- context [run cloud (processWolQueue_delete ids) ?w1] =>
          specialize (IH w1 key); cbv zeta in IH;
          destruct (run cloud (processWolQueue_delete ids) w1)
            as [[u w2] t2]
      end; cbn [fst snd] in *.
    + destruct (IH Hd) as (Hd2 & Ha2 & Hn2 & Hc2).
      repeat split; auto.
    + assert (Hd1 : distinct_ids
                (with_store (mkWorld rdy ip flag queue fail http pl it) flag
                   (option_map (remove_path (task_path id)) queue))).
      { unfold distinct_ids in *; cbn in *.
        destruct queue; cbn; [apply remove_ids_distinct |]; auto. }
      destruct (IH Hd1) as (Hd2 & Ha2 & Hn2 & Hc2).
      repeat split; auto.
      intros Hdone; apply Ha2.
      unfold done_or_gone, stored, distinct_ids in *; cbn in *.
      destruct queue as [q |]; cbn; [| exact I].
      destruct (String.eqb_spec id key) as [-> | Hne].
      * rewrite find_remove_same; cbn; auto.
      * rewrite find_remove_other; auto.
Qed.

Lemma cloud_prune_step (ids : list string) (w : World) (key : string) :
  let r := run cloud (prune ids) w in
  let w' := snd (fst r) in
  let t := snd r in
  distinct_ids w ->
  distinct_ids w' /\
  (done_or_gone w key -> done_or_gone w' key) /\
  (forall cur, dispatched_keys cur t = []) /\
  commits key t = false.
Proof.
  cbv zeta; intros Hd; unfold processWolQueue_prune.
  destruct (DELETE_COMPLETED_QUEUE_TASKS && negb (Nat.eqb (List.length ids) 0)).
  - cbn [run bind trigger cloud].
    pose proof (cloud_delete_step ids w key) as H; cbv zeta in H.
    destruct (run cloud (processWolQueue_delete ids) w) as [[u w2] t2].
    cbn [fst snd] in *; destruct (H Hd) as (Hd2 & Ha2 & Hn2 & Hc2).
    repeat split; auto.
  - cbn; repeat split; auto.
Qed.

(** A whole pass against the store, for a task [key]: the ids stay distinct;
    a task that is done or gone stays so and is not dispatched; a task whose
    "done" is accepted in the pass is done or gone when the pass ends. *)
Lemma cloud_pass_step (w : World) (key : string) :
  let r := run cloud pass w in
  let w' := snd (fst r) in
  let t := snd r in
  distinct_ids w ->
  distinct_ids w' /\
  (done_or_gone w key ->
   done_or_gone w' key /\ ~ In key (dispatched_keys "" t)) /\
  (commits key t = true -> done_or_gone w' key).
Proof.
  cbv zeta; intros Hd.
  destruct w as [rdy ip flag queue fail http pl it].
  unfold processWolQueue, processWolQueue_readFailed.
  destruct rdy; [| cbn; repeat split; auto; discriminate].
  destruct (fail Read FIREBASE_QUEUE_PATH) eqn:Hfail;
    [ cbn -[processWolQueue_loop processWolQueue_prune];
      unfold cloud_read; cbn [w_fail]; rewrite Hfail; cbn;
      repeat split; auto; discriminate |].
  destruct queue as [q |];
    [| cbn -[processWolQueue_loop processWolQueue_prune];
       unfold cloud_read; cbn [w_fail]; rewrite Hfail; cbn;
       repeat split; auto; discriminate ].
  cbn -[processWolQueue_loop processWolQueue_prune];
    unfold cloud_read; cbn [w_fail]; rewrite Hfail;
    cbn -[processWolQueue_loop processWolQueue_prune].
  destruct (Nat.eqb (List.length q) 0);
    [cbn; repeat split; auto; discriminate |].
  rewrite run_bind.
  match goal with
  | |- context [run cloud (loop ?n 0 []) ?w0] =>
      pose proof (cloud_loop_step n 0%nat [] w0 key) as HL;
      cbv zeta in HL;
      destruct (run cloud (loop n 0 []) w0) as [[ids1 w1] t1]
  end.
  cbn [fst snd] in HL; destruct HL as (Hd1 & Ha1 & Hc1).
  specialize (Hd1 Hd).
  cbn -[processWolQueue_prune]; rewrite run_bind.
  match goal with
  | |- context [run cloud (prune ids1) ?w0] =>
      pose proof (cloud_prune_step ids1 w0 key) as HP;
      cbv zeta in HP;
      destruct (run cloud (prune ids1) w0) as [[u w2] t2]
  end.
  cbn [fst snd] in HP; destruct (HP Hd1) as (Hd2 & Ha2 & Hn2 & Hc2).
  cbn; split; [exact Hd2 | split].
  - intros Hdone.
    destruct (Ha1 Hdone) as [Hdone1 Hnd1].
    split; [apply Ha2; exact Hdone1 |].
    apply dispatched_keys_app; [| apply Hnd1].
    intros cur; cbn; apply dispatched_keys_app;
      [intros c; cbn; auto | rewrite Hn2; auto].
  - change (commits key
              (t1 ++ Obs json_iteratorEnd tt
               :: t2 ++ [Obs (Serial_println "[QUEUE] Queue check finished.") tt])
            = true -> done_or_gone w2 key).
    rewrite commits_app.
    change (commits key t1
            || commits key
                 (t2 ++ [Obs (Serial_println "[QUEUE] Queue check finished.") tt])
            = true -> done_or_gone w2 key).
    rewrite commits_app, Hc2; cbn; rewrite orb_false_r; intros Hc.
    apply Ha2, Hc1; exact Hc.
Qed.

(** At most once: when a pass commits "done" for a task, the task is done
    or gone when the pass ends, and a later pass over the store as that pass
    left it does not call [sendWOL] for it, whatever then fails. *)
Lemma cloud_at_most_once (w : World) (key : string) :
  distinct_ids w ->
  commits key (trace_in w pass) = true ->
  done_or_gone (world_after w pass) key /\
  forall w2,
    w_queue w2 = w_queue (world_after w pass) ->
    ~ In key (dispatched_keys "" (trace_in w2 pass)).
Proof.
  intros Hd Hc; unfold trace_in, world_after in *.
  destruct (cloud_pass_step w key Hd) as (Hd1 & _ & Hc1).
  specialize (Hc1 Hc); split; [exact Hc1 |].
  intros w2 Hq.
  assert (Hd2 : distinct_ids w2) by (unfold distinct_ids; rewrite Hq; exact Hd1).
  assert (Hdone2 : done_or_gone w2 key)
    by (unfold done_or_gone; rewrite (stored_same_queue _ _ _ Hq); exact Hc1).
  destruct (cloud_pass_step w2 key Hd2) as (_ & Ha2 & _).
  apply Ha2; exact Hdone2.
Qed.

(** [C3] First, in every pass of [processWolQueue], the iteration on an entry
    whose status reads as anything but "pending" - "done" in particular -
    calls [sendWOL] zero times and writes nothing.  Hence, on the store:
    once a pass has had its "done" accepted for a task, the task is stored
    as done (or is gone, when pruned) at the end of that pass, and a later
    pass over the store as it was left never calls [sendWOL] for that task,
    whatever fails then.  The ids of the collection are taken to be
    distinct, as the keys of a stored object are. *)
Theorem non_pending_task_untouched :
  (forall (T : trace) (n j : nat) (before t after : trace)
          (marked : list string) (rs : bool * FirebaseJsonData),
     exec pass T tt ->
     iteration_in_pass toInt DELETE_COMPLETED_QUEUE_TASKS T n j
       before t after marked ->
     field_read "status" t = Some rs -> reads_pending rs = false ->
     dispatches t = [] /\ store_updates t = [] /\ effects t = []) /\
  (forall (w : World) (key : string),
     distinct_ids w ->
     commits key (trace_in w pass) = true ->
     done_or_gone (world_after w pass) key /\
     forall w2,
       w_queue w2 = w_queue (world_after w pass) ->
       ~ In key (dispatched_keys "" (trace_in w2 pass))).
Proof.
  split.
  - intros T n j before t after marked rs.
    apply non_pending_iteration_silent.
  - exact cloud_at_most_once.
Qed.

End CloudQueue.

Lemma non_pending_task_untouched_witness :
  let rs := (true, mkJsonData true JSON_STRING 0 "done") in
  (exec (processWolQueue demo_toInt false) demo_pass tt /\
   iteration_in_pass demo_toInt false demo_pass 4 2
     (pass_prelude 4 ++ demo_t1 ++ demo_t2) demo_t3
     (demo_t4 ++ demo_closing) [] /\
   field_read "status" demo_t3 = Some rs /\ reads_pending rs = false /\
   dispatches demo_t3 = [] /\ store_updates demo_t3 = [] /\
   effects demo_t3 = []) /\
  (distinct_ids demo_world /\
   commits "t1" demo_pass = true /\
   dispatched_keys "" demo_pass = ["t1"] /\
   ~ In "t1" (dispatched_keys "" demo_second_pass)).
Proof.
  cbv zeta.
  destruct (non_pending_task_untouched demo_toInt false) as [Hsilent Honce].
  split.
  - split; [exact demo_pass_exec |].
    split; [exact demo_in_pass_t3 |].
    split; [reflexivity |].
    split; [reflexivity |].
    exact (Hsilent demo_pass 4%nat 2%nat
             (pass_prelude 4 ++ demo_t1 ++ demo_t2) demo_t3
             (demo_t4 ++ demo_closing) []
             (true, mkJsonData true JSON_STRING 0 "done")
             demo_pass_exec demo_in_pass_t3 eq_refl eq_refl).
  - assert (Hd : distinct_ids demo_world).
    { cbn; repeat constructor; cbn; intuition discriminate. }
    split; [exact Hd |].
    split; [reflexivity |].
    split; [reflexivity |].
    destruct (Honce demo_world "t1" Hd eq_refl) as [_ Hlater].
    exact (Hlater
             (world_after demo_world (processWolQueue demo_toInt false))
             eq_refl).
Defined.
(** ** More on the Queue Processor *)

Lemma iterator_gets_app (t1 t2 : trace) :
  iterator_gets (t1 ++ t2) = iterator_gets t1 ++ iterator_gets t2.
Proof. apply filter_map_app. Qed.

Lemma reported_keys_app (t1 t2 : trace) :
  reported_keys (t1 ++ t2) = reported_keys t1 ++ reported_keys t2.
Proof. apply filter_map_app. Qed.

Lemma rtdb_requests_app (t1 t2 : trace) :
  rtdb_requests (t1 ++ t2) = rtdb_requests t1 ++ rtdb_requests t2.
Proof. apply filter_app. Qed.

Section QueueMore.

Variable toInt : string -> Z.
Variable DELETE_COMPLETED_QUEUE_TASKS : bool.

Local Abbreviation task := (processWolQueue_task toInt DELETE_COMPLETED_QUEUE_TASKS).
Local Abbreviation loop := (processWolQueue_loop toInt DELETE_COMPLETED_QUEUE_TASKS).
Local Abbreviation prune := (processWolQueue_prune DELETE_COMPLETED_QUEUE_TASKS).
Local Abbreviation pass := (processWolQueue toInt DELETE_COMPLETED_QUEUE_TASKS).

(** The four ways a pass can go: Firebase not ready; the bulk read fails; no
    entry; the loop over the entries. *)
Lemma pass_cases (T : trace) :
  exec pass T tt ->
  T = pass_not_ready \/
  (exists F,
     T = [ Obs Firebase_ready true;
           Obs (Serial_printf "[QUEUE] Checking WOL queue at %s...\n"
                  [PStr FIREBASE_QUEUE_PATH]) tt;
           Obs (RTDB_getJSON FIREBASE_QUEUE_PATH) false ]
         ++ F ++ [pass_closing] /\
     exec processWolQueue_readFailed F tt) \/
  T = pass_prelude 0 ++ [Obs json_iteratorEnd tt] \/
  (exists n L marked P,
     n <> 0%nat /\
     T = pass_prelude n ++ L ++ Obs json_iteratorEnd tt :: P ++ [pass_closing] /\
     exec (loop n 0 []) L marked /\
     exec (prune marked) P tt).
Proof.
  intros H; unfold processWolQueue in H.
  exec_step H; destruct r; cbn [negb] in H.
  - do 2 exec_step H; destruct r0.
    + do 2 exec_step H.
      destruct (Nat.eqb_spec r0 0) as [-> | Hn].
      * repeat exec_step H; units; right; right; left; reflexivity.
      * apply exec_bind in H; destruct H as (L & marked & rest & -> & HL & H).
        exec_step H.
        apply exec_bind in H; destruct H as (P & [] & fin & -> & HP & H).
        repeat exec_step H; units.
        right; right; right; exists r0, L, marked, P; repeat split; auto.
    + apply exec_bind in H; destruct H as (F & [] & fin & -> & HF & H).
      repeat exec_step H; units.
      right; left; exists F; split; [reflexivity | exact HF].
  - repeat exec_step H; units; left; reflexivity.
Qed.

(** What one iteration asks of the iterator, which store updates it makes,
    and how its [sendWOL] calls pair with its writes of "done". *)
Lemma task_accounts (i : nat) (ids ids' : list string) (t : trace) :
  exec (task i ids) t ids' ->
  iterator_gets t = [i] /\
  filter is_iteratorEnd t = [] /\ filter is_iteratorBegin t = [] /\
  exists k,
    reported_keys t = [k] /\
    forallb (queue_update [k]) (store_updates t) = true /\
    (ids' = ids \/ ids' = ids ++ [k]) /\
    List.length (dispatches t) = List.length (filter is_done_write t) /\
    (List.length (dispatches t) <= 1)%nat /\
    ~ In None (dispatches t).
Proof.
  intros H; unfold processWolQueue_task in H.
  repeat exec_case H.
  all: change (FIREBASE_QUEUE_PATH ++ "/" ++ ?k)%string with (task_path k) in *.
  all: change (task_path ?k ++ "/status")%string with (status_path k) in *.
  all: split; [reflexivity |].
  all: split; [reflexivity |].
  all: split; [reflexivity |].
  all: eexists; split; [reflexivity |].
  all: cbn -[task_path status_path]; rewrite ?String.eqb_refl.
  all: repeat split; auto.
  all: try (destruct DELETE_COMPLETED_QUEUE_TASKS; auto; fail).
  all: try (intros [E | []]; discriminate E).
  all: try (intros []).
  all: try (destruct (DELETE_COMPLETED_QUEUE_TASKS && _); auto).
Qed.

Lemma queue_update_incl (keys keys' : list string) (o : obs) :
  incl keys keys' -> queue_update keys o = true -> queue_update keys' o = true.
Proof.
  intros Hincl; destruct o as [R e r]; destruct e; cbn; auto.
  - intros H; apply andb_prop in H; destruct H as [H Hv]; rewrite Hv, andb_true_r.
    apply existsb_exists in H; destruct H as (k & Hk & E).
    apply existsb_exists; exists k; auto.
  - intros H; apply existsb_exists in H; destruct H as (k & Hk & E).
    apply existsb_exists; exists k; auto.
Qed.

Lemma forallb_queue_update_incl (keys keys' : list string) (t : trace) :
  incl keys keys' ->
  forallb (queue_update keys) t = true -> forallb (queue_update keys') t = true.
Proof.
  intros Hincl H; rewrite forallb_forall in *.
  intros o Ho; apply (queue_update_incl keys); auto.
Qed.

(** The same for the whole loop over [n] entries from index [i]. *)
Lemma loop_accounts (n : nat) :
  forall (i : nat) (ids marked : list string) (L : trace),
    exec (loop n i ids) L marked ->
    iterator_gets L = seq i n /\
    filter is_iteratorEnd L = [] /\ filter is_iteratorBegin L = [] /\
    forallb (queue_update (reported_keys L)) (store_updates L) = true /\
    (exists more, marked = ids ++ more /\ incl more (reported_keys L)) /\
    List.length (dispatches L) = List.length (filter is_done_write L) /\
    (List.length (dispatches L) <= n)%nat /\
    ~ In None (dispatches L).
Proof.
  induction n as [| n IH]; intros i ids marked L H.
  - cbn in H; destruct H as [-> ->]; cbn; repeat split; auto.
    exists []; rewrite app_nil_r; split; [reflexivity | intros x []].
  - cbn [processWolQueue_loop] in H.
    apply exec_bind in H; destruct H as (t & ids' & rest & -> & Ht & Hr).
    destruct (task_accounts i ids ids' t Ht)
      as (Hg & He & Hb & k & Hk & Hu & Hids & Hd & Hd1 & Hnn).
    destruct (IH _ _ _ _ Hr)
      as (Hg' & He' & Hb' & Hu' & (more & -> & Hmore) & Hd' & Hdn & Hnn').
    rewrite iterator_gets_app, !filter_app, reported_keys_app, store_updates_app,
      dispatches_app, !length_app, forallb_app, Hg, Hg', He, He', Hb, Hb', Hk.
    split; [reflexivity |].
    split; [reflexivity |].
    split; [reflexivity |].
    split.
    { apply andb_true_intro; split.
      - apply (forallb_queue_update_incl [k]); [| exact Hu].
        intros x [<- | []]; left; reflexivity.
      - apply (forallb_queue_update_incl (reported_keys rest)); [| exact Hu'].
        intros x Hx; right; exact Hx. }
    split.
    { destruct Hids as [-> | ->].
      - exists more; split; [reflexivity |].
        intros x Hx; right; apply Hmore; exact Hx.
      - exists (k :: more); split; [rewrite <- app_assoc; reflexivity |].
        intros x [<- | Hx]; [left; reflexivity | right; apply Hmore; exact Hx]. }
    split; [lia |].
    split; [lia |].
    intros Hin; apply in_app_or in Hin; destruct Hin; auto.
Qed.

(** The deletion loop asks nothing of the iterator, calls [sendWOL] for
    nobody, and deletes only the ids it was given. *)
Lemma delete_accounts (ids : list string) :
  forall (P : trace) (u : unit),
    exec (processWolQueue_delete ids) P u ->
    iterator_gets P = [] /\
    filter is_iteratorEnd P = [] /\ filter is_iteratorBegin P = [] /\
    dispatches P = [] /\ filter is_done_write P = [] /\
    forall keys, incl ids keys ->
      forallb (queue_update keys) (store_updates P) = true.
Proof.
  induction ids as [| id ids IH]; intros P u H.
  - cbn in H; destruct H as [-> _]; repeat split.
  - cbn [processWolQueue_delete] in H.
    change (FIREBASE_QUEUE_PATH ++ "/" ++ id)%string with (task_path id) in H.
    do 2 exec_step H.
    apply exec_bind in H; destruct H as (t1 & u1 & rest & -> & H1 & Hrest).
    destruct (IH _ _ Hrest) as (Hg & He & Hb & Hd & Hw & Hu).
    assert (Hid : forall keys, incl (id :: ids) keys ->
              existsb (fun k => String.eqb (task_path id) (task_path k)) keys
              = true).
    { intros keys Hincl; apply existsb_exists; exists id; split;
        [apply Hincl; left; reflexivity | apply String.eqb_refl]. }
    destruct r0; cbn [negb] in H1; repeat exec_step H1; units;
      cbn -[task_path]; rewrite ?Hg, ?He, ?Hb, ?Hd, ?Hw; repeat split; auto;
      intros keys Hincl; rewrite (Hid keys Hincl); cbn;
      apply Hu; intros x Hx; apply Hincl; right; exact Hx.
Qed.

Lemma prune_accounts (marked : list string) (P : trace) (u : unit) :
  exec (prune marked) P u ->
  iterator_gets P = [] /\
  filter is_iteratorEnd P = [] /\ filter is_iteratorBegin P = [] /\
  dispatches P = [] /\ filter is_done_write P = [] /\
  (forall keys, incl marked keys ->
     forallb (queue_update keys) (store_updates P) = true) /\
  (DELETE_COMPLETED_QUEUE_TASKS = false -> P = []).
Proof.
  intros H; unfold processWolQueue_prune in H.
  destruct (DELETE_COMPLETED_QUEUE_TASKS && negb (Nat.eqb (List.length marked) 0))
    eqn:E.
  - exec_step H.
    destruct (delete_accounts _ _ _ H) as (Hg & He & Hb & Hd & Hw & Hu).
    cbn; repeat split; auto.
    intros ->; discriminate E.
  - cbn in H; destruct H as [-> _]; repeat split; auto.
Qed.

Lemma readFailed_accounts (F : trace) (u : unit) :
  exec processWolQueue_readFailed F u ->
  iterator_gets F = [] /\
  filter is_iteratorEnd F = [] /\ filter is_iteratorBegin F = [] /\
  dispatches F = [] /\ filter is_done_write F = [] /\
  store_updates F = [] /\ rtdb_requests F = [].
Proof.
  intros H; unfold processWolQueue_readFailed in H.
  repeat exec_case H; repeat split; reflexivity.
Qed.

Lemma iterator_count_app (t1 t2 : trace) :
  iterator_count (t1 ++ t2) =
    match iterator_count t1 with
    | Some n => Some n
    | None => iterator_count t2
    end.
Proof.
  induction t1 as [| [R e r] t1 IH]; [reflexivity |].
  destruct e; cbn; auto.
Qed.

(** [X1] A pass starts by asking whether Firebase is ready, and when the
    answer is no it does nothing else than log one line: no request goes to
    the database, no [sendWOL] call is made, and the closing line of a pass
    is not printed. *)
Theorem pass_waits_for_firebase (T : trace) :
  exec pass T tt ->
  exists ready,
    hd_error T = Some (Obs Firebase_ready ready) /\
    (ready = false ->
     T = pass_not_ready /\ rtdb_requests T = [] /\ effects T = [] /\
     ~ In pass_closing T).
Proof.
  intros H; unfold processWolQueue in H.
  exec_step H; exists r; split; [reflexivity |].
  intros ->; cbn [negb] in H; repeat exec_step H; units.
  repeat split; try reflexivity.
  intros [E | [E | []]]; discriminate E.
Qed.

(** [X2] A pass walks the iterator in bounds and releases it: the entries
    asked for are exactly the indices [0 .. n-1], in order, where [n] is what
    [iteratorBegin] reported; [iteratorEnd] is called exactly once, after the
    last entry was asked for (also when [n] is [0]); and a pass that never
    began the iteration neither asks for an entry nor ends it. *)
Theorem iterator_walked_in_order_and_released (T : trace) :
  exec pass T tt ->
  match iterator_count T with
  | Some n =>
      iterator_gets T = seq 0 n /\
      List.length (filter is_iteratorBegin T) = 1%nat /\
      exists t1 t2,
        T = t1 ++ Obs json_iteratorEnd tt :: t2 /\
        filter is_iteratorEnd t1 = [] /\ filter is_iteratorEnd t2 = [] /\
        iterator_gets t2 = []
  | None =>
      iterator_gets T = [] /\ filter is_iteratorBegin T = [] /\
      filter is_iteratorEnd T = []
  end.
Proof.
  intros H; destruct (pass_cases T H)
    as [-> | [(F & -> & HF) | [-> | (n & L & marked & P & Hn & -> & HL & HP)]]].
  - cbn; repeat split.
  - destruct (readFailed_accounts F tt HF) as (Hg & He & Hb & _).
    destruct (readFailed_no_count F tt HF) as [Hc _].
    cbn [app iterator_count]; rewrite iterator_count_app, Hc; cbn.
    rewrite iterator_gets_app, !filter_app, Hg, He, Hb; repeat split.
  - cbn; split; [reflexivity |]. split; [reflexivity |].
    exists (pass_prelude 0), []; repeat split.
  - destruct (loop_accounts n _ _ _ _ HL) as (Hg & He & Hb & _).
    destruct (prune_accounts marked P tt HP) as (Hg' & He' & Hb' & _).
    cbn [pass_prelude app iterator_count].
    change (Obs json_iteratorEnd tt :: P ++ [pass_closing])
      with ([Obs json_iteratorEnd tt] ++ P ++ [pass_closing]).
    split; [| split].
    + cbn [iterator_gets filter_map get_index_of].
      change (filter_map get_index_of ?t) with (iterator_gets t).
      rewrite !iterator_gets_app, Hg, Hg'; cbn; apply app_nil_r.
    + cbn [filter is_iteratorBegin].
      rewrite !filter_app, Hb, Hb'; reflexivity.
    + exists ((Obs Firebase_ready true
               :: Obs (Serial_printf "[QUEUE] Checking WOL queue at %s...\n"
                         [PStr FIREBASE_QUEUE_PATH]) tt
               :: Obs (RTDB_getJSON FIREBASE_QUEUE_PATH) true
               :: Obs json_iteratorBegin n
               :: Obs (Serial_printf "  Found %d potential tasks.\n"
                         [PInt (Z.of_nat n)]) tt :: L)), (P ++ [pass_closing]).
      split; [reflexivity |].
      cbn [filter is_iteratorEnd]; rewrite He, filter_app, He'.
      rewrite iterator_gets_app, Hg'; repeat split.
Qed.

(** The store updates of a pass, against the keys its iterator reported. *)
Lemma pass_update_accounts (T : trace) :
  exec pass T tt ->
  forallb (queue_update (reported_keys T)) (store_updates T) = true.
Proof.
  intros H; destruct (pass_cases T H)
    as [-> | [(F & -> & HF) | [-> | (n & L & marked & P & Hn & -> & HL & HP)]]].
  - reflexivity.
  - destruct (readFailed_accounts F tt HF) as (_ & _ & _ & _ & _ & Hu & _).
    cbn [app store_updates filter is_store_update].
    change (filter is_store_update ?t) with (store_updates t).
    rewrite store_updates_app, Hu; reflexivity.
  - reflexivity.
  - destruct (loop_accounts n _ _ _ _ HL)
      as (_ & _ & _ & Hu & (more & Hmarked & Hmore) & _).
    destruct (prune_accounts marked P tt HP) as (_ & _ & _ & _ & _ & Hu' & _).
    cbn [app] in Hmarked; subst more.
    cbn [pass_prelude app store_updates filter is_store_update reported_keys
         filter_map reported_key_of].
    change (filter is_store_update ?t) with (store_updates t).
    change (filter_map reported_key_of ?t) with (reported_keys t).
    change (Obs json_iteratorEnd tt :: P ++ [pass_closing])
      with ([Obs json_iteratorEnd tt] ++ P ++ [pass_closing]).
    rewrite !store_updates_app, !forallb_app, !reported_keys_app.
    apply andb_true_intro; split.
    + apply (forallb_queue_update_incl (reported_keys L)); [| exact Hu].
      intros x Hx; apply in_or_app; left; exact Hx.
    + cbn; rewrite andb_true_r; apply Hu'.
      intros x Hx; apply in_or_app; left; apply Hmore; exact Hx.
Qed.

(** [X4] Whatever the answers, the only store updates a pass makes are
    writes of "done" or "error_missing_mac" to the status of an entry the
    iterator reported in that pass, and deletions of such an entry.  In
    particular a pass never writes the trigger flag, never replaces the
    collection, and never writes another field of a task. *)
Theorem pass_updates_only_task_statuses (T : trace) :
  exec pass T tt ->
  forallb (queue_update (reported_keys T)) (store_updates T) = true.
Proof. apply pass_update_accounts. Qed.

(** The [sendWOL] calls of a pass, against its writes of "done" and its
    entries. *)
Lemma pass_dispatch_accounts (T : trace) :
  exec pass T tt ->
  List.length (dispatches T) = List.length (filter is_done_write T) /\
  (List.length (dispatches T) <= entries_of T)%nat /\
  ~ In None (dispatches T).
Proof.
  intros H; unfold entries_of; destruct (pass_cases T H)
    as [-> | [(F & -> & HF) | [-> | (n & L & marked & P & Hn & -> & HL & HP)]]].
  - cbn; repeat split; auto.
  - destruct (readFailed_accounts F tt HF) as (_ & _ & _ & Hd & Hw & _).
    cbn [app dispatches filter_map dispatch_of filter is_done_write].
    change (filter_map dispatch_of ?t) with (dispatches t).
    rewrite dispatches_app, filter_app, Hd, Hw; cbn; repeat split; auto; lia.
  - cbn; repeat split; auto.
  - destruct (loop_accounts n _ _ _ _ HL) as (_ & _ & _ & _ & _ & Hd & Hdn & Hnn).
    destruct (prune_accounts marked P tt HP) as (_ & _ & _ & Hd' & Hw' & _).
    cbn [pass_prelude app dispatches filter_map dispatch_of filter is_done_write
         iterator_count].
    change (filter_map dispatch_of ?t) with (dispatches t).
    change (Obs json_iteratorEnd tt :: P ++ [pass_closing])
      with ([Obs json_iteratorEnd tt] ++ P ++ [pass_closing]).
    rewrite !dispatches_app, !filter_app, Hd', Hw'; cbn.
    rewrite !app_nil_r; repeat split; auto.
Qed.

End QueueMore.

(** Without pruning the deletion loop is never entered. *)
Lemma unpruned_pass_no_deletion (toInt : string -> Z) (T : trace) :
  exec (processWolQueue toInt false) T tt -> deletions T = [].
Proof.
  intros H; destruct (pass_cases toInt false T H)
    as [-> | [(F & -> & HF) | [-> | (n & L & marked & P & Hn & -> & HL & HP)]]].
  - reflexivity.
  - unfold processWolQueue_readFailed in HF.
    repeat exec_case HF; reflexivity.
  - reflexivity.
  - destruct (loop_marks toInt false n _ _ _ _ HL) as [Hd _].
    destruct (prune_accounts false marked P tt HP) as (_ & _ & _ & _ & _ & _ & HP').
    rewrite (HP' eq_refl).
    cbn [pass_prelude app deletions filter_map delete_of].
    change (filter_map delete_of ?t) with (deletions t).
    rewrite deletions_app, Hd; reflexivity.
Qed.

(** [X3] As shipped, with [DELETE_COMPLETED_QUEUE_TASKS] set to [false], no
    pass ever asks for a deletion: the tasks stay in the collection whatever
    their status. *)
Theorem shipped_pass_never_deletes (toInt : string -> Z) (T : trace) :
  exec (processWolQueue toInt false) T tt -> deletions T = [].
Proof. apply unpruned_pass_no_deletion. Qed.
(** ** The iterations of a pass, one entry at a time *)

Lemma jsonDataType_eqb_eq (a b : jsonDataType) :
  jsonDataType_eqb a b = true -> a = b.
Proof. destruct a, b; cbn; congruence. Qed.

Lemma requests_app (t1 t2 : trace) :
  requests (t1 ++ t2) = requests t1 ++ requests t2.
Proof. apply filter_app. Qed.

Lemma until_iterator_app (t rest : trace) :
  forallb (fun o => negb (asks_iterator o)) t = true ->
  at_iterator rest ->
  until_iterator (t ++ rest) = t.
Proof.
  intros Ht Hrest; induction t as [| o t IH]; cbn in *.
  - destruct rest as [| o rest]; [reflexivity |].
    cbn in Hrest; cbn; rewrite Hrest; reflexivity.
  - apply andb_prop in Ht; destruct Ht as [Ho Ht].
    apply negb_true_iff in Ho; rewrite Ho, (IH Ht); reflexivity.
Qed.

Lemma iteration_at_skip (j : nat) (a b : trace) :
  ~ In j (iterator_gets a) -> iteration_at j (a ++ b) = iteration_at j b.
Proof.
  unfold iterator_gets; induction a as [| o a IH]; intros Hn; [reflexivity |].
  cbn in *; destruct (get_index_of o) as [i |]; [| exact (IH Hn)].
  destruct (Nat.eqb_spec i j) as [-> | _].
  - exfalso; apply Hn; left; reflexivity.
  - apply IH; intros Hin; apply Hn; right; exact Hin.
Qed.

Lemma iteration_at_absent (j : nat) (t : trace) :
  ~ In j (iterator_gets t) -> iteration_at j t = [].
Proof.
  intros Hn; rewrite <- (app_nil_r t), (iteration_at_skip j t [] Hn).
  reflexivity.
Qed.

Lemma iteration_at_here (j : nat) (r : jsonDataType * string * string)
    (t rest : trace) :
  forallb (fun o => negb (asks_iterator o)) t = true ->
  at_iterator rest ->
  iteration_at j ((Obs (json_iteratorGet j) r :: t) ++ rest)
  = Obs (json_iteratorGet j) r :: t.
Proof.
  intros Ht Hrest; cbn; rewrite Nat.eqb_refl, (until_iterator_app t rest Ht Hrest).
  reflexivity.
Qed.

Lemma seq_lt (i n j : nat) : In j (seq i n) -> (i <= j < i + n)%nat.
Proof. intros H; apply in_seq in H; exact H. Qed.

Section Iterations.

Variable toInt : string -> Z.
Variable DELETE_COMPLETED_QUEUE_TASKS : bool.

Local Abbreviation task := (processWolQueue_task toInt DELETE_COMPLETED_QUEUE_TASKS).
Local Abbreviation loop := (processWolQueue_loop toInt DELETE_COMPLETED_QUEUE_TASKS).
Local Abbreviation prune := (processWolQueue_prune DELETE_COMPLETED_QUEUE_TASKS).
Local Abbreviation pass := (processWolQueue toInt DELETE_COMPLETED_QUEUE_TASKS).
Local Abbreviation in_pass := (iteration_in_pass toInt DELETE_COMPLETED_QUEUE_TASKS).

(** An iteration starts by asking the iterator for its entry and asks nothing
    more of the iterator. *)
Lemma task_shape (i : nat) (ids ids' : list string) (t : trace) :
  exec (task i ids) t ids' ->
  exists r t',
    t = Obs (json_iteratorGet i) r :: t' /\
    forallb (fun o => negb (asks_iterator o)) t' = true.
Proof.
  intros H; unfold processWolQueue_task in H.
  repeat exec_case H.
  all: eexists; eexists; split; reflexivity.
Qed.

Lemma loop_at_iterator (n i : nat) (ids marked : list string) (L rest : trace) :
  exec (loop n i ids) L marked -> at_iterator rest -> at_iterator (L ++ rest).
Proof.
  intros H Hrest; destruct n as [| n].
  - cbn in H; destruct H as [-> _]; exact Hrest.
  - cbn [processWolQueue_loop] in H.
    apply exec_bind in H; destruct H as (t & ids' & later & -> & Ht & _).
    destruct (task_shape _ _ _ _ Ht) as (r & t' & -> & _); reflexivity.
Qed.

(** The loop is the concatenation of its iterations, and each of them is
    found again in any trace that holds the loop between a part that asks for
    earlier entries only and a part that starts at the iterator. *)
Lemma loop_iterations (n : nat) :
  forall (i : nat) (ids marked : list string) (L pre post : trace),
    exec (loop n i ids) L marked ->
    (forall k, In k (iterator_gets pre) -> (k < i)%nat) ->
    at_iterator post ->
    L = flat_map (fun j => iteration_at j (pre ++ L ++ post)) (seq i n).
Proof.
  induction n as [| n IH]; intros i ids marked L pre post H Hpre Hpost.
  - cbn in H; destruct H as [-> _]; reflexivity.
  - cbn [processWolQueue_loop] in H.
    apply exec_bind in H; destruct H as (t & ids' & later & -> & Ht & Hl).
    cbn [seq flat_map]; f_equal.
    + rewrite iteration_at_skip
        by (intros Hin; apply Hpre in Hin; lia).
      destruct (task_shape _ _ _ _ Ht) as (r & t' & -> & Hno).
      rewrite <- app_assoc.
      symmetry; apply iteration_at_here; [exact Hno |].
      exact (loop_at_iterator _ _ _ _ _ _ Hl Hpost).
    + assert (E : pre ++ (t ++ later) ++ post = (pre ++ t) ++ later ++ post)
        by (rewrite <- !app_assoc; reflexivity).
      rewrite E.
      apply (IH (S i) ids' marked later (pre ++ t) post Hl); [| exact Hpost].
      intros k Hk; rewrite iterator_gets_app in Hk.
      apply in_app_or in Hk; destruct Hk as [Hk | Hk].
      * apply Hpre in Hk; lia.
      * destruct (task_accounts toInt DELETE_COMPLETED_QUEUE_TASKS i ids ids' t Ht)
          as (Hg & _).
        rewrite Hg in Hk; destruct Hk as [<- | []]; lia.
Qed.

(** The iteration of a pass on the entry of index [j] is the part of the
    pass between the hand-out of that entry and the next request to the
    iterator; the entries before it were handed out before, the entries after
    it are handed out after. *)
Lemma iteration_at_in_pass (T : trace) (n j : nat) (before t after : trace)
    (marked : list string) :
  in_pass T n j before t after marked ->
  iteration_at j T = t /\
  iterator_gets before = seq 0 j /\
  iterator_gets after = seq (S j) (n - S j).
Proof.
  intros (-> & earlier & ids & ids' & later & pruning & -> & He & Ht & Hl & Hp & ->).
  destruct (loop_accounts toInt DELETE_COMPLETED_QUEUE_TASKS _ _ _ _ _ He)
    as (Hge & _).
  destruct (loop_accounts toInt DELETE_COMPLETED_QUEUE_TASKS _ _ _ _ _ Hl)
    as (Hgl & _).
  destruct (prune_accounts DELETE_COMPLETED_QUEUE_TASKS marked pruning tt Hp)
    as (Hgp & _).
  assert (Hbefore : iterator_gets (pass_prelude n ++ earlier) = seq 0 j)
    by (rewrite iterator_gets_app, Hge; reflexivity).
  split; [| split].
  - rewrite iteration_at_skip
      by (rewrite Hbefore; intros Hin; apply seq_lt in Hin; lia).
    destruct (task_shape _ _ _ _ Ht) as (r & t' & -> & Hno).
    apply iteration_at_here; [exact Hno |].
    apply (loop_at_iterator _ _ _ _ _ _ Hl); reflexivity.
  - exact Hbefore.
  - change (Obs json_iteratorEnd tt
            :: pruning ++ [Obs (Serial_println "[QUEUE] Queue check finished.") tt])
      with ([Obs json_iteratorEnd tt]
            ++ pruning ++ [Obs (Serial_println "[QUEUE] Queue check finished.") tt]).
    rewrite !iterator_gets_app, Hgl, Hgp; cbn; apply app_nil_r.
Qed.

(** When the answers say that the queue can be read and has [n] entries, the
    pass gets to the loop over [n] entries. *)
Lemma snapshot_count (T : trace) (n : nat) :
  exec pass T tt ->
  forallb (snapshot_answer n) T = true ->
  iterator_count T = Some n.
Proof.
  intros H Ha; destruct (pass_cases toInt DELETE_COMPLETED_QUEUE_TASKS T H)
    as [-> | [(F & -> & HF) | [-> | (m & L & marked & P & Hm & -> & HL & HP)]]].
  - discriminate Ha.
  - discriminate Ha.
  - cbn -[Nat.eqb] in Ha; rewrite andb_true_r in Ha.
    apply Nat.eqb_eq in Ha; subst n; reflexivity.
  - cbn -[Nat.eqb] in Ha; apply andb_prop in Ha; destruct Ha as [Ha _].
    apply Nat.eqb_eq in Ha; subst n; reflexivity.
Qed.

Lemma snapshot_iteration (T : trace) (n j : nat) :
  exec pass T tt ->
  forallb (snapshot_answer n) T = true ->
  (j < n)%nat ->
  exists before after marked,
    in_pass T n j before (iteration_at j T) after marked /\
    iterator_gets before = seq 0 j /\
    iterator_gets after = seq (S j) (n - S j).
Proof.
  intros H Ha Hj.
  pose proof (snapshot_count T n H Ha) as Hc.
  destruct (pass_iterations toInt DELETE_COMPLETED_QUEUE_TASKS T n j H Hc Hj)
    as (before & t & after & marked & Hin).
  destruct (iteration_at_in_pass _ _ _ _ _ _ _ Hin) as (Ht & Hb & Hf).
  exists before, after, marked; rewrite Ht; auto.
Qed.

End Iterations.

(** ** What the sketch does with the entry it is handed *)

Lemma effects_requests (t : trace) : effects (requests t) = effects t.
Proof.
  unfold effects, requests.
  induction t as [| [R e r] t IH]; [reflexivity |].
  destruct e; cbn; rewrite IH; reflexivity.
Qed.

Lemma effects_wait_of (delayMs : Z) : effects (wait_of delayMs) = wait_of delayMs.
Proof. unfold wait_of; destruct (delayMs >? 0); reflexivity. Qed.

Lemma dispatches_wait_of (delayMs : Z) : dispatches (wait_of delayMs) = [].
Proof. unfold wait_of; destruct (delayMs >? 0); reflexivity. Qed.

Lemma dispatches_flat_map (A : Type) (g : A -> trace) (l : list A) :
  dispatches (flat_map g l) = flat_map (fun a => dispatches (g a)) l.
Proof.
  induction l as [| a l IH]; [reflexivity |].
  cbn; rewrite dispatches_app, IH; reflexivity.
Qed.

Lemma filter_flat_map (A B : Type) (p : B -> bool) (g : A -> list B)
    (l : list A) :
  filter p (flat_map g l) = flat_map (fun a => filter p (g a)) l.
Proof.
  induction l as [| a l IH]; [reflexivity |].
  cbn; rewrite filter_app, IH; reflexivity.
Qed.

(** Turn what is known about the answers into equations. *)
Ltac bools :=
  unfold readable, reads_pending in * |-; cbn [fst snd] in * |-;
  repeat match goal with
  | H : _ && _ = true |- _ => apply andb_prop in H; destruct H
  | H : _ && _ = false |- _ => apply andb_false_iff in H; destruct H
  | H : negb _ = true |- _ => apply negb_true_iff in H
  | H : negb _ = false |- _ => apply negb_false_iff in H
  | H : String.eqb ?a ?b = true |- _ =>
      apply String.eqb_eq in H; try subst a; try subst b
  | H : jsonDataType_eqb _ _ = true |- _ =>
      apply jsonDataType_eqb_eq in H; subst
  | H : context [String.eqb ?a ?a] |- _ =>
      rewrite String.eqb_refl in H; cbn [negb orb andb] in H
  | H : stringValue ?f = _, H' : context [stringValue ?f] |- _ =>
      rewrite H in H'; cbn in H'
  end.

(** Name an answer of an iteration, reading it off its trace. *)
Ltac answered key :=
  match goal with
  | |- context [Obs (fbdo_jsonObject_get key) ?r] => exists r
  end.

Ltac handed_out :=
  match goal with
  | |- context [Obs (json_iteratorGet _) (_, _, ?v)] => exists v
  end;
  match goal with
  | |- context [Obs fbdo_dataTypeEnum ?ty] => exists ty
  end.

Section Entries.

Variable toInt : string -> Z.
Variable DELETE_COMPLETED_QUEUE_TASKS : bool.

Local Abbreviation task := (processWolQueue_task toInt DELETE_COMPLETED_QUEUE_TASKS).
Local Abbreviation loop := (processWolQueue_loop toInt DELETE_COMPLETED_QUEUE_TASKS).
Local Abbreviation prune := (processWolQueue_prune DELETE_COMPLETED_QUEUE_TASKS).
Local Abbreviation pass := (processWolQueue toInt DELETE_COMPLETED_QUEUE_TASKS).
Local Abbreviation in_pass := (iteration_in_pass toInt DELETE_COMPLETED_QUEUE_TASKS).

(** The iteration on an entry that is presented as a pending task with a
    readable [mac]: every request it makes, in order, log lines left out. *)
Lemma task_pending_with_mac_asked (i : nat) (ids ids' : list string) (t : trace)
    (key mac : string) :
  exec (task i ids) t ids' ->
  forallb (task_answer i key "pending" (Some mac)) t = true ->
  exists value ty rs rm rd updated reason,
    requests t =
      [ Obs (json_iteratorGet i) (JSON_OBJECT, key, value);
        Obs (RTDB_get (task_path key)) true;
        Obs fbdo_dataTypeEnum ty;
        Obs (fbdo_jsonObject_get "status") rs;
        Obs (fbdo_jsonObject_get "mac") rm;
        Obs (fbdo_jsonObject_get "delay") rd ]
      ++ wait_of (extract_delay toInt (fst rd) (snd rd))
      ++ [ Obs (call_sendWOL (Some mac)) tt;
           Obs (RTDB_setString (status_path key) "done") updated ]
      ++ (if updated then [] else [Obs fbdo_errorReason reason]) /\
    reads_pending rs = true /\ readable rm = true /\
    stringValue (snd rm) = mac /\
    ids' = (if updated && DELETE_COMPLETED_QUEUE_TASKS
            then ids ++ [key] else ids).
Proof.
  intros H Ha; unfold processWolQueue_task in H.
  repeat exec_case H.
  all: change (FIREBASE_QUEUE_PATH ++ "/" ++ ?k)%string with (task_path k) in *.
  all: change (task_path ?k ++ "/status")%string with (status_path k) in *.
  all: cbn -[Nat.eqb] in Ha; rewrite Nat.eqb_refl in Ha; cbn in Ha.
  all: bools; try discriminate; try congruence.
  all: units; handed_out.
  all: answered "status"; answered "mac"; answered "delay".
  all: match goal with
       | |- context [Obs (RTDB_setString _ "done") ?u] => exists u
       end.
  all: first [ match goal with
               | |- context [Obs fbdo_errorReason ?x] => exists x
               end
             | exists "" ].
  all: unfold reads_pending, readable, requests, wait_of; cbn [fst snd].
  all: repeat match goal with
         | E : _ = _ |- _ => rewrite E
         end.
  all: cbn; repeat split; try reflexivity.
Qed.

(** The iteration on an entry that is presented as a pending task whose
    [mac] cannot be read. *)
Lemma task_pending_without_mac_asked (i : nat) (ids ids' : list string)
    (t : trace) (key : string) :
  exec (task i ids) t ids' ->
  forallb (task_answer i key "pending" None) t = true ->
  exists value ty rs rm written,
    requests t =
      [ Obs (json_iteratorGet i) (JSON_OBJECT, key, value);
        Obs (RTDB_get (task_path key)) true;
        Obs fbdo_dataTypeEnum ty;
        Obs (fbdo_jsonObject_get "status") rs;
        Obs (fbdo_jsonObject_get "mac") rm;
        Obs (RTDB_setString (status_path key) "error_missing_mac") written ] /\
    reads_pending rs = true /\ readable rm = false /\
    ids' = ids.
Proof.
  intros H Ha; unfold processWolQueue_task in H.
  repeat exec_case H.
  all: change (FIREBASE_QUEUE_PATH ++ "/" ++ ?k)%string with (task_path k) in *.
  all: change (task_path ?k ++ "/status")%string with (status_path k) in *.
  all: cbn -[Nat.eqb] in Ha; rewrite Nat.eqb_refl in Ha; cbn in Ha.
  all: bools; try discriminate; try congruence.
  all: units; handed_out.
  all: answered "status"; answered "mac".
  all: match goal with
       | |- context [Obs (RTDB_setString _ "error_missing_mac") ?u] => exists u
       end.
  all: unfold reads_pending, readable, requests; cbn [fst snd].
  all: repeat match goal with
         | E : _ = _ |- _ => rewrite E
         end.
  all: cbn; rewrite ?andb_false_r; repeat split; try reflexivity.
Qed.

(** [C1] Let the answers say that the queue can be read and has [n] entries,
    and that the entry of index [j < n] is the task [key], an object that can
    be fetched, whose status reads "pending" and whose [mac] reads [mac];
    each of these is said of the answer a request gets if it is made.  Then
    the pass contains the iteration on that entry, [iteration_at j T], and
    that iteration makes, in this order and besides its log lines, exactly
    these requests: it asks the iterator for the entry, fetches the task at
    its own path, asks for the payload type, reads [status], [mac] and
    [delay] from the fetched object, waits the task's delay (the [delay]
    field coerced to an integer and clamped at 0, or 0 when the field cannot
    be read; no wait request is made for 0), calls [sendWOL] once with the
    [mac] it read, and writes "done" to the status of [key] (asking for the
    error text when the write is refused).  The pass is [before], then this
    iteration, then [after]: the entries after [j] are handed out in [after]
    only, so no later task is begun before this one is over, its delay
    included. *)
Theorem pending_task_wait_dispatch_done
    (T : trace) (n j : nat) (key mac : string) :
  exec pass T tt ->
  forallb (snapshot_answer n) T = true ->
  (j < n)%nat ->
  forallb (task_answer j key "pending" (Some mac)) (iteration_at j T) = true ->
  exists before after marked value ty rs rm rd updated reason,
    let t := iteration_at j T in
    let delayMs :=
      if readable rd then Z.max 0 (coerced_delay toInt (snd rd)) else 0 in
    in_pass T n j before t after marked /\
    requests t =
      [ Obs (json_iteratorGet j) (JSON_OBJECT, key, value);
        Obs (RTDB_get (task_path key)) true;
        Obs fbdo_dataTypeEnum ty;
        Obs (fbdo_jsonObject_get "status") rs;
        Obs (fbdo_jsonObject_get "mac") rm;
        Obs (fbdo_jsonObject_get "delay") rd ]
      ++ wait_of delayMs
      ++ [ Obs (call_sendWOL (Some mac)) tt;
           Obs (RTDB_setString (status_path key) "done") updated ]
      ++ (if updated then [] else [Obs fbdo_errorReason reason]) /\
    reads_pending rs = true /\ readable rm = true /\
    stringValue (snd rm) = mac /\
    effects t =
      wait_of delayMs ++
      [ Obs (call_sendWOL (Some mac)) tt;
        Obs (RTDB_setString (status_path key) "done") updated ] /\
    dispatches t = [Some mac] /\
    effects T = effects before ++ effects t ++ effects after /\
    iterator_gets before = seq 0 j /\
    iterator_gets after = seq (S j) (n - S j).
Proof.
  intros H Hn Hj Ha.
  destruct (snapshot_iteration toInt DELETE_COMPLETED_QUEUE_TASKS T n j H Hn Hj)
    as (before & after & marked & Hin & Hb & Hf).
  pose proof (in_pass_effects toInt DELETE_COMPLETED_QUEUE_TASKS
                _ _ _ _ _ _ _ Hin) as HT.
  pose proof Hin as Hin'.
  destruct Hin' as (_ & earlier & ids & ids' & later & pruning & _ & _ & Ht & _).
  destruct (task_pending_with_mac_asked j ids ids' _ key mac Ht Ha)
    as (value & ty & rs & rm & rd & updated & reason & Hr & Hs & Hm & Hmac & _).
  destruct (extract_delay_spec toInt rd) as [Hd _]; rewrite Hd in Hr.
  exists before, after, marked, value, ty, rs, rm, rd, updated, reason.
  cbv zeta.
  assert (He : effects (iteration_at j T) =
                 wait_of (if readable rd
                          then Z.max 0 (coerced_delay toInt (snd rd)) else 0)
                 ++ [ Obs (call_sendWOL (Some mac)) tt;
                      Obs (RTDB_setString (status_path key) "done") updated ]).
  { rewrite <- effects_requests, Hr, !effects_app, effects_wait_of.
    destruct updated; reflexivity. }
  split; [exact Hin |].
  repeat split; auto.
  rewrite <- dispatches_effects, He, dispatches_app, dispatches_wait_of.
  reflexivity.
Qed.

(** [C2] Let the answers say that the queue can be read and has [n] entries,
    and that the entry of index [j < n] is the task [key], an object that can
    be fetched, whose status reads "pending" and whose [mac] cannot be read
    (the field is not there, or the read reports failure); each of these is
    said of the answer a request gets if it is made.  Then the pass contains
    the iteration on that entry, and that iteration asks the iterator for the
    entry, fetches the task, reads [status] and [mac], and writes
    "error_missing_mac" to the status of [key]; it makes no other request
    besides its log lines and calls [sendWOL] zero times.  Whatever the
    answer to the write, the loop goes on with [completedTaskIds] as the
    iteration found it, and every entry after [j] is handed out after it. *)
Theorem pending_task_without_mac_flagged
    (T : trace) (n j : nat) (key : string) :
  exec pass T tt ->
  forallb (snapshot_answer n) T = true ->
  (j < n)%nat ->
  forallb (task_answer j key "pending" None) (iteration_at j T) = true ->
  exists before after marked value ty rs rm written,
    let t := iteration_at j T in
    in_pass T n j before t after marked /\
    requests t =
      [ Obs (json_iteratorGet j) (JSON_OBJECT, key, value);
        Obs (RTDB_get (task_path key)) true;
        Obs fbdo_dataTypeEnum ty;
        Obs (fbdo_jsonObject_get "status") rs;
        Obs (fbdo_jsonObject_get "mac") rm;
        Obs (RTDB_setString (status_path key) "error_missing_mac") written ] /\
    reads_pending rs = true /\ readable rm = false /\
    effects t =
      [Obs (RTDB_setString (status_path key) "error_missing_mac") written] /\
    dispatches t = [] /\
    (exists ids later closing,
       exec (task j ids) t ids /\
       after = later ++ closing /\
       exec (loop (n - S j) (S j) ids) later marked) /\
    iterator_gets after = seq (S j) (n - S j).
Proof.
  intros H Hn Hj Ha.
  destruct (snapshot_iteration toInt DELETE_COMPLETED_QUEUE_TASKS T n j H Hn Hj)
    as (before & after & marked & Hin & Hb & Hf).
  pose proof Hin as Hin'.
  destruct Hin'
    as (_ & earlier & ids & ids' & later & pruning & _ & _ & Ht & Hl & _ & Hafter).
  destruct (task_pending_without_mac_asked j ids ids' _ key Ht Ha)
    as (value & ty & rs & rm & written & Hr & Hs & Hm & ->).
  exists before, after, marked, value, ty, rs, rm, written.
  cbv zeta.
  assert (He : effects (iteration_at j T) =
                 [Obs (RTDB_setString (status_path key) "error_missing_mac")
                    written])
    by (rewrite <- effects_requests, Hr; reflexivity).
  split; [exact Hin |].
  do 4 (split; [assumption |]).
  split; [rewrite <- dispatches_effects, He; reflexivity |].
  split; [| exact Hf].
  exists ids, later; eexists; repeat split; eauto.
Qed.

(** [X5] In every pass the [sendWOL] calls and the writes of "done" go in
    pairs, entry by entry.  Every call, and every attempt to write "done",
    lies in the iteration of one of the entries of the pass: the calls of the
    pass are those of the iterations on the entries [0 .. n-1], one after the
    other.  The iteration on an entry holds at most one call, and as many
    calls as attempts to write "done".  Hence there are as many calls as
    attempts in the pass, and no more than entries; and [sendWOL] is never
    called with the null pointer. *)
Theorem one_dispatch_per_done_write (T : trace) :
  exec pass T tt ->
  dispatches T =
    flat_map (fun j => dispatches (iteration_at j T)) (seq 0 (entries_of T)) /\
  filter is_done_write T =
    flat_map (fun j => filter is_done_write (iteration_at j T))
      (seq 0 (entries_of T)) /\
  (forall j,
     List.length (dispatches (iteration_at j T)) =
       List.length (filter is_done_write (iteration_at j T)) /\
     (List.length (dispatches (iteration_at j T)) <= 1)%nat) /\
  List.length (dispatches T) = List.length (filter is_done_write T) /\
  (List.length (dispatches T) <= entries_of T)%nat /\
  ~ In None (dispatches T).
Proof.
  intros H.
  destruct (pass_dispatch_accounts toInt DELETE_COMPLETED_QUEUE_TASKS T H)
    as (Hpair & Hbound & Hnull).
  assert (Hnone : iterator_gets T = [] ->
            forall j,
              List.length (dispatches (iteration_at j T)) =
                List.length (filter is_done_write (iteration_at j T)) /\
              (List.length (dispatches (iteration_at j T)) <= 1)%nat).
  { intros Hg j; rewrite iteration_at_absent by (rewrite Hg; intros []).
    split; [reflexivity | cbn; lia]. }
  destruct (pass_cases toInt DELETE_COMPLETED_QUEUE_TASKS T H)
    as [E | [(F & E & HF) | [E | (n & L & marked & P & Hn & E & HL & HP)]]].
  - subst T; repeat split; auto; apply Hnone; reflexivity.
  - destruct (readFailed_accounts F tt HF) as (Hg & _ & _ & Hd & Hw & _).
    destruct (readFailed_no_count F tt HF) as [Hc _].
    assert (Hgets : iterator_gets T = []).
    { subst T; cbn [app iterator_gets filter_map get_index_of].
      change (filter_map get_index_of ?t) with (iterator_gets t).
      rewrite iterator_gets_app, Hg; reflexivity. }
    assert (Hent : entries_of T = 0%nat).
    { subst T; unfold entries_of; cbn [app iterator_count].
      rewrite iterator_count_app, Hc; reflexivity. }
    rewrite Hent in *; cbn [seq flat_map].
    split; [| split; [| split; [apply Hnone; exact Hgets | auto]]].
    + subst T; cbn [app dispatches filter_map dispatch_of].
      change (filter_map dispatch_of ?t) with (dispatches t).
      rewrite dispatches_app, Hd; reflexivity.
    + subst T; cbn [app filter is_done_write].
      rewrite filter_app, Hw; reflexivity.
  - subst T; repeat split; auto; apply Hnone; reflexivity.
  - destruct (prune_accounts DELETE_COMPLETED_QUEUE_TASKS marked P tt HP)
      as (Hgp & _ & _ & Hdp & Hwp & _).
    destruct (loop_accounts toInt DELETE_COMPLETED_QUEUE_TASKS n _ _ _ _ HL)
      as (Hgl & _).
    assert (Hent : entries_of T = n) by (subst T; reflexivity).
    assert (Hcount : iterator_count T = Some n) by (subst T; reflexivity).
    assert (Hgets : iterator_gets T = seq 0 n).
    { subst T; cbn [pass_prelude app iterator_gets filter_map get_index_of].
      change (filter_map get_index_of ?t) with (iterator_gets t).
      change (Obs json_iteratorEnd tt :: P ++ [pass_closing])
        with ([Obs json_iteratorEnd tt] ++ P ++ [pass_closing]).
      rewrite !iterator_gets_app, Hgl, Hgp; cbn; apply app_nil_r. }
    assert (Hloop : L = flat_map (fun j => iteration_at j T) (seq 0 n)).
    { subst T.
      apply (loop_iterations toInt DELETE_COMPLETED_QUEUE_TASKS n 0 [] marked L
               (pass_prelude n) (Obs json_iteratorEnd tt :: P ++ [pass_closing])
               HL); [intros k [] | reflexivity]. }
    rewrite Hent in *.
    split; [| split; [| split; [| auto]]].
    + rewrite <- (dispatches_flat_map nat (fun j => iteration_at j T)), <- Hloop.
      subst T; cbn [pass_prelude app dispatches filter_map dispatch_of].
      change (filter_map dispatch_of ?t) with (dispatches t).
      change (Obs json_iteratorEnd tt :: P ++ [pass_closing])
        with ([Obs json_iteratorEnd tt] ++ P ++ [pass_closing]).
      rewrite !dispatches_app, Hdp; cbn; rewrite app_nil_r; reflexivity.
    + rewrite <- (filter_flat_map nat obs is_done_write
                    (fun j => iteration_at j T)), <- Hloop.
      subst T; cbn [pass_prelude app filter is_done_write].
      change (Obs json_iteratorEnd tt :: P ++ [pass_closing])
        with ([Obs json_iteratorEnd tt] ++ P ++ [pass_closing]).
      rewrite !filter_app, Hwp; cbn; rewrite app_nil_r; reflexivity.
    + intros j; destruct (Nat.lt_ge_cases j n) as [Hj | Hj].
      * destruct (pass_iterations toInt DELETE_COMPLETED_QUEUE_TASKS T n j
                    H Hcount Hj) as (before & t & after & marked' & Hin).
        destruct (iteration_at_in_pass toInt DELETE_COMPLETED_QUEUE_TASKS
                    _ _ _ _ _ _ _ Hin) as (-> & _).
        destruct Hin as (_ & ? & ids & ids' & ? & ? & _ & _ & Ht & _).
        destruct (task_accounts toInt DELETE_COMPLETED_QUEUE_TASKS _ _ _ _ Ht)
          as (_ & _ & _ & k & _ & _ & _ & Hd & Hd1 & _).
        split; assumption.
      * rewrite iteration_at_absent
          by (rewrite Hgets; intros Hin; apply seq_lt in Hin; lia).
        split; [reflexivity | cbn; lia].
Qed.

End Entries.

(** *** The scenarios, entry by entry *)

Lemma late_pass_exec : exec (processWolQueue demo_toInt false) late_pass tt.
Proof.
  exact (run_exec World unit cloud (processWolQueue demo_toInt false)
           (world_of (Some false) (Some late_queue))).
Qed.

Lemma pending_task_wait_dispatch_done_witness :
  let mac1 := "AA:BB:CC:DD:EE:FF" in
  let macd := "DD:DD:DD:DD:DD:DD" in
  (demo_pass = trace_in demo_world (processWolQueue demo_toInt false) /\
   nth_error demo_queue 0 =
     Some ("t1", Obj [ ("mac", JStr mac1); ("delay", JNum 1000);
                       ("status", JStr "pending") ]) /\
   exec (processWolQueue demo_toInt false) demo_pass tt /\
   forallb (snapshot_answer 4) demo_pass = true /\
   (0 < 4)%nat /\
   forallb (task_answer 0 "t1" "pending" (Some mac1)) (iteration_at 0 demo_pass)
   = true /\
   effects (iteration_at 0 demo_pass) =
     [ Obs (delay 1000) tt;
       Obs (call_sendWOL (Some mac1)) tt;
       Obs (RTDB_setString "/wol/queue/t1/status" "done") true ] /\
   dispatches (iteration_at 0 demo_pass) = [Some mac1]) /\
  (exec (processWolQueue demo_toInt false) faulty_pass tt /\
   forallb (snapshot_answer 5) faulty_pass = true /\
   (4 < 5)%nat /\
   forallb (task_answer 4 "d" "pending" (Some macd)) (iteration_at 4 faulty_pass)
   = true /\
   effects (iteration_at 4 faulty_pass) =
     [ Obs (call_sendWOL (Some macd)) tt;
       Obs (RTDB_setString "/wol/queue/d/status" "done") true ] /\
   dispatches (iteration_at 4 faulty_pass) = [Some macd]).
Proof.
  cbv zeta.
  assert (H0 : (0 < 4)%nat) by (repeat constructor).
  assert (H4 : (4 < 5)%nat) by (repeat constructor).
  destruct (pending_task_wait_dispatch_done demo_toInt false demo_pass 4 0
              "t1" "AA:BB:CC:DD:EE:FF" demo_pass_exec eq_refl H0 eq_refl)
    as (before & after & marked & value & ty & rs & rm & rd & updated & reason
        & _ & _ & _ & _ & _ & _ & Hdisp & _).
  destruct (pending_task_wait_dispatch_done demo_toInt false faulty_pass 5 4
              "d" "DD:DD:DD:DD:DD:DD" faulty_pass_exec eq_refl H4 eq_refl)
    as (before' & after' & marked' & value' & ty' & rs' & rm' & rd' & updated'
        & reason' & _ & _ & _ & _ & _ & _ & Hdisp' & _).
  split.
  - split; [reflexivity |].
    split; [reflexivity |].
    split; [exact demo_pass_exec |].
    split; [reflexivity |].
    split; [exact H0 |].
    split; [reflexivity |].
    split; [reflexivity | exact Hdisp].
  - split; [exact faulty_pass_exec |].
    split; [reflexivity |].
    split; [exact H4 |].
    split; [reflexivity |].
    split; [reflexivity | exact Hdisp'].
Defined.

Lemma pending_task_without_mac_flagged_witness :
  (demo_pass = trace_in demo_world (processWolQueue demo_toInt false) /\
   nth_error demo_queue 1 = Some ("t2", Obj [ ("status", JStr "pending") ]) /\
   exec (processWolQueue demo_toInt false) demo_pass tt /\
   forallb (snapshot_answer 4) demo_pass = true /\
   (1 < 4)%nat /\
   forallb (task_answer 1 "t2" "pending" None) (iteration_at 1 demo_pass)
   = true /\
   effects (iteration_at 1 demo_pass) =
     [Obs (RTDB_setString "/wol/queue/t2/status" "error_missing_mac") true] /\
   dispatches (iteration_at 1 demo_pass) = []) /\
  (exec (processWolQueue demo_toInt false) late_pass tt /\
   forallb (snapshot_answer 4) late_pass = true /\
   (2 < 4)%nat /\
   forallb (task_answer 2 "c" "pending" None) (iteration_at 2 late_pass)
   = true /\
   effects (iteration_at 2 late_pass) =
     [Obs (RTDB_setString "/wol/queue/c/status" "error_missing_mac") true] /\
   dispatches (iteration_at 2 late_pass) = [] /\
   dispatches late_pass = [Some "DD:DD:DD:DD:DD:DD"]).
Proof.
  assert (H1 : (1 < 4)%nat) by (repeat constructor).
  assert (H2 : (2 < 4)%nat) by (repeat constructor).
  destruct (pending_task_without_mac_flagged demo_toInt false demo_pass 4 1
              "t2" demo_pass_exec eq_refl H1 eq_refl)
    as (before & after & marked & value & ty & rs & rm & written
        & _ & _ & _ & _ & _ & Hdisp & _).
  destruct (pending_task_without_mac_flagged demo_toInt false late_pass 4 2
              "c" late_pass_exec eq_refl H2 eq_refl)
    as (before' & after' & marked' & value' & ty' & rs' & rm' & written'
        & _ & _ & _ & _ & _ & Hdisp' & _).
  split.
  - split; [reflexivity |].
    split; [reflexivity |].
    split; [exact demo_pass_exec |].
    split; [reflexivity |].
    split; [exact H1 |].
    split; [reflexivity |].
    split; [reflexivity | exact Hdisp].
  - split; [exact late_pass_exec |].
    split; [reflexivity |].
    split; [exact H2 |].
    split; [reflexivity |].
    split; [reflexivity |].
    split; [exact Hdisp' | reflexivity].
Defined.

Lemma one_dispatch_per_done_write_witness :
  exec (processWolQueue demo_toInt false) faulty_pass tt /\
  entries_of faulty_pass = 5%nat /\
  map (fun j => dispatches (iteration_at j faulty_pass)) (seq 0 5) =
    [ []; []; []; [Some "CC:CC:CC:CC:CC:CC"]; [Some "DD:DD:DD:DD:DD:DD"] ] /\
  dispatches faulty_pass =
    flat_map (fun j => dispatches (iteration_at j faulty_pass)) (seq 0 5).
Proof.
  split; [exact faulty_pass_exec |].
  split; [reflexivity |].
  split; [reflexivity |].
  destruct (one_dispatch_per_done_write demo_toInt false faulty_pass
              faulty_pass_exec) as (H & _).
  exact H.
Defined.
(** ** More on the Packet Dispatcher and its callers *)

Lemma total_delay_app (t1 t2 : trace) :
  total_delay (t1 ++ t2) = total_delay t1 + total_delay t2.
Proof.
  unfold total_delay; induction t1 as [| o t1 IH]; cbn; [reflexivity |].
  rewrite IH; lia.
Qed.

(** [X6] For every argument, [sendWOL] hands three packets to the sender when
    the argument is a string of 17 characters and none otherwise (the null
    pointer included); it spends 150 ms in [delay] in the first case and none
    in the second; and it never makes a request to the database nor calls
    itself. *)
Theorem sendWOL_sends_by_length_only (macAddress : option string) (t : trace) :
  exec (sendWOL macAddress) t tt ->
  List.length (packets t) = (if sendWOL_rejects macAddress then 0 else 3)%nat /\
  total_delay t = (if sendWOL_rejects macAddress then 0 else 150) /\
  rtdb_requests t = [] /\ dispatches t = [].
Proof.
  intros H; destruct (sendWOL_rejects macAddress) eqn:Hr.
  - rewrite (sendWOL_rejected macAddress t tt Hr H); repeat split.
  - destruct macAddress as [mac |]; [| discriminate Hr].
    cbn in Hr; apply negb_false_iff, Nat.eqb_eq in Hr.
    destruct (sendWOL_accepted mac t tt Hr H) as (ip & r1 & r2 & r3 & Hb).
    rewrite (Hb _ eq_refl); repeat split.
Qed.

Lemma sendWOL_sends_by_length_only_witness :
  let mac := "this-is-not-a-mac" in
  let bc := mkIP 10 0 0 255 in
  let t := [ Obs WiFi_localIP (mkIP 10 0 0 7);
             Obs (Serial_printf
                "[INFO] Sending WOL Magic Packet to MAC: %s via Broadcast IP: %s\n"
                [PStr mac; PIP bc]) tt;
             Obs (wol_sendMagicPacket mac bc) true; Obs (delay 50) tt;
             Obs (wol_sendMagicPacket mac bc) false; Obs (delay 50) tt;
             Obs (wol_sendMagicPacket mac bc) true; Obs (delay 50) tt ] in
  exec (sendWOL (Some mac)) t tt /\
  List.length (packets t) = 3%nat /\ total_delay t = 150.
Proof.
  intros mac bc t.
  assert (He : exec (sendWOL (Some mac)) t tt) by exec_build.
  split; [exact He |].
  destruct (sendWOL_sends_by_length_only (Some mac) t He) as (Hp & Hd & _).
  split; [exact Hp | exact Hd].
Defined.

(** [X7] The stream callback as it runs, with [sendWOL] in place of its
    call.  On a notification that carries the boolean [true] it asks
    [WiFi.localIP()] once, before anything else that is not a log line; its
    effects are three packets for the configured target address, each sent to
    the address it was answered with the last octet set to 255, and each
    followed by a pause of 50 ms; after them comes the one write of [false]
    to the flag (and the request for the error text when the write is
    refused).  On any other notification it only logs a line. *)
Theorem stream_trigger_sends_then_resets (data : FirebaseStream) (T : trace) :
  exec (link (firebaseStreamCallback data)) T tt ->
  if is_boolean (dataTypeEnum data) && boolData data then
    exists localIP r1 r2 r3 written reason,
      let mac := DIRECT_TRIGGER_TARGET_MAC in
      let broadcastIP := set_octet3 localIP 255 in
      requests T =
        Obs WiFi_localIP localIP
        :: [ Obs (wol_sendMagicPacket mac broadcastIP) r1; Obs (delay 50) tt;
             Obs (wol_sendMagicPacket mac broadcastIP) r2; Obs (delay 50) tt;
             Obs (wol_sendMagicPacket mac broadcastIP) r3; Obs (delay 50) tt;
             Obs (RTDB_setBool FIREBASE_DIRECT_TRIGGER_PATH false) written ]
        ++ (if written then [] else [Obs fbdo_errorReason reason]) /\
      effects T =
        [ Obs (wol_sendMagicPacket mac broadcastIP) r1; Obs (delay 50) tt;
          Obs (wol_sendMagicPacket mac broadcastIP) r2; Obs (delay 50) tt;
          Obs (wol_sendMagicPacket mac broadcastIP) r3; Obs (delay 50) tt;
          Obs (RTDB_setBool FIREBASE_DIRECT_TRIGGER_PATH false) written ]
  else requests T = [] /\ effects T = [].
Proof.
  intros H; unfold firebaseStreamCallback in H.
  cbn [link bind trigger] in H.
  destruct (is_boolean (dataTypeEnum data) && boolData data).
  - cbn [link bind trigger sendWOL DIRECT_TRIGGER_TARGET_MAC strlen] in H.
    cbn in H.
    destruct H as (u1 & t1 & -> & u2 & t2 & -> & ip & t3 & -> & H).
    destruct H as (u3 & t4 & -> & r1 & t5 & -> & u4 & t6 & -> & H).
    destruct H as (r2 & t7 & -> & u5 & t8 & -> & r3 & t9 & -> & H).
    destruct H as (u6 & t10 & -> & u7 & t11 & -> & w & t12 & -> & H).
    units; destruct w; cbn in H.
    + destruct H as (u & t13 & -> & -> & _).
      exists ip, r1, r2, r3, true, ""; split; reflexivity.
    + destruct H as (rs & t13 & -> & u & t14 & -> & -> & _).
      exists ip, r1, r2, r3, false, rs; split; reflexivity.
  - cbn in H; destruct H as (u1 & t1 & -> & -> & _); split; reflexivity.
Qed.

Lemma stream_trigger_sends_then_resets_witness :
  let data := mkStream "/" "boolean" "true" fb_esp_rtdb_data_type_boolean true in
  let T := snd (run cloud (link (firebaseStreamCallback data))
                  (world_of (Some true) (Some []))) in
  exec (link (firebaseStreamCallback data)) T tt /\
  hd_error (requests T) = Some (Obs WiFi_localIP (mkIP 192 168 1 42)) /\
  packets T =
    [ ("00:00:00:00:00:00", mkIP 192 168 1 255);
      ("00:00:00:00:00:00", mkIP 192 168 1 255);
      ("00:00:00:00:00:00", mkIP 192 168 1 255) ] /\
  store_updates T = [Obs (RTDB_setBool "/wol/proxmox" false) true].
Proof.
  intros data T.
  assert (He : exec (link (firebaseStreamCallback data)) T tt)
    by (apply run_returns).
  split; [exact He |].
  pose proof (stream_trigger_sends_then_resets data T He) as H.
  cbn [data is_boolean dataTypeEnum boolData andb] in H.
  destruct H as (localIP & r1 & r2 & r3 & written & reason & Hr & _).
  repeat split; reflexivity.
Defined.

Lemma expands_app (t1 : trace) :
  forall t2 T1 T2, expands t1 T1 -> expands t2 T2 -> expands (t1 ++ t2) (T1 ++ T2).
Proof.
  induction t1 as [| [R e r] t1 IH]; intros t2 T1 T2 H1 H2; cbn in H1.
  - subst T1; exact H2.
  - destruct e;
      try (destruct H1 as (T' & -> & H1); cbn; eexists; split; [reflexivity |];
           apply IH; assumption).
    destruct H1 as (body & T' & Hb & H1 & ->).
    cbn; exists body, (T' ++ T2); repeat split; auto.
    symmetry; apply app_assoc.
Qed.



Section LinkedQueue.

Variable toInt : string -> Z.
Variable DELETE_COMPLETED_QUEUE_TASKS : bool.

Local Abbreviation task := (processWolQueue_task toInt DELETE_COMPLETED_QUEUE_TASKS).
Local Abbreviation loop := (processWolQueue_loop toInt DELETE_COMPLETED_QUEUE_TASKS).
Local Abbreviation prune := (processWolQueue_prune DELETE_COMPLETED_QUEUE_TASKS).
Local Abbreviation pass := (processWolQueue toInt DELETE_COMPLETED_QUEUE_TASKS).

(** An iteration starts by asking the iterator for its entry and hands no
    packet to the sender itself: packets only come from [sendWOL]. *)
Lemma task_no_packet (i : nat) (ids ids' : list string) (t : trace) :
  exec (task i ids) t ids' ->
  packets t = [] /\
  exists r rest, t = Obs (json_iteratorGet i) r :: rest.
Proof.
  intros H; unfold processWolQueue_task in H.
  repeat exec_case H; (split; [reflexivity | eexists; eexists; reflexivity]).
Qed.

Lemma loop_no_packet (n : nat) :
  forall (i : nat) (ids marked : list string) (L : trace),
    exec (loop n i ids) L marked -> packets L = [].
Proof.
  induction n as [| n IH]; intros i ids marked L H.
  - cbn in H; destruct H as [-> _]; reflexivity.
  - cbn [processWolQueue_loop] in H.
    apply exec_bind in H; destruct H as (t & ids' & rest & -> & Ht & Hr).
    destruct (task_no_packet i ids ids' t Ht) as [Hp _].
    rewrite packets_app, Hp, (IH _ _ _ _ Hr); reflexivity.
Qed.

Lemma delete_no_packet (ids : list string) :
  forall (P : trace) (u : unit),
    exec (processWolQueue_delete ids) P u -> packets P = [].
Proof.
  induction ids as [| id ids IH]; intros P u H.
  - cbn in H; destruct H as [-> _]; reflexivity.
  - cbn [processWolQueue_delete] in H.
    do 2 exec_step H.
    apply exec_bind in H; destruct H as (t1 & u1 & rest & -> & H1 & Hrest).
    destruct r0; cbn [negb] in H1; repeat exec_step H1; cbn;
      change (filter_map packet_of rest) with (packets rest);
      apply (IH _ _ Hrest).
Qed.

Lemma pass_no_packet (t : trace) : exec pass t tt -> packets t = [].
Proof.
  intros H; destruct (pass_cases toInt DELETE_COMPLETED_QUEUE_TASKS t H)
    as [-> | [(F & -> & HF) | [-> | (n & L & marked & P & Hn & -> & HL & HP)]]].
  - reflexivity.
  - unfold processWolQueue_readFailed in HF.
    repeat exec_case HF; reflexivity.
  - reflexivity.
  - assert (HP' : packets P = []).
    { unfold processWolQueue_prune in HP.
      destruct (DELETE_COMPLETED_QUEUE_TASKS && _).
      - exec_step HP; cbn; apply (delete_no_packet _ _ _ HP).
      - cbn in HP; destruct HP as [-> _]; reflexivity. }
    cbn [pass_prelude app packets filter_map packet_of].
    change (filter_map packet_of ?x) with (packets x).
    change (Obs json_iteratorEnd tt :: P ++ [pass_closing])
      with ([Obs json_iteratorEnd tt] ++ P ++ [pass_closing]).
    rewrite !packets_app, (loop_no_packet _ _ _ _ _ HL), HP'; reflexivity.
Qed.


(** [X9] A pass as it runs, with [sendWOL] in place of its calls, hands the
    sender exactly three packets for each call it makes with a 17-character
    address and none otherwise; the calls are those of the pass, at most one
    per entry, so a pass over [n] entries sends at most [3 n] packets. *)
Theorem linked_pass_three_packets_per_call (T : trace) :
  exec (link pass) T tt ->
  exists t,
    exec pass t tt /\ expands t T /\
    List.length (packets T) = (3 * accepted_calls t)%nat /\
    (List.length (packets T) <= 3 * entries_of t)%nat.
Proof.
  intros HT; apply exec_link in HT; destruct HT as (t & Ht & Hx).
  exists t; split; [exact Ht |]. split; [exact Hx |].
  pose proof (expands_packets t T Hx) as Hn.
  rewrite (pass_no_packet t Ht) in Hn; cbn [List.length Nat.add] in Hn.
  split; [exact Hn |].
  destruct (pass_dispatch_accounts toInt DELETE_COMPLETED_QUEUE_TASKS t Ht)
    as (_ & Hle & _).
  assert (Ha : (accepted_calls t <= List.length (dispatches t))%nat)
    by (unfold accepted_calls; apply filter_length_le).
  lia.
Qed.

End LinkedQueue.
(** *** The scenarios again *)

Lemma pass_waits_for_firebase_witness :
  exec (processWolQueue demo_toInt false) pass_not_ready tt /\
  rtdb_requests pass_not_ready = [] /\ effects pass_not_ready = [].
Proof.
  assert (He : exec (processWolQueue demo_toInt false) pass_not_ready tt)
    by exec_build.
  split; [exact He |].
  destruct (pass_waits_for_firebase demo_toInt false pass_not_ready He)
    as (ready & _ & _).
  split; reflexivity.
Defined.

Lemma iterator_walked_in_order_and_released_witness :
  exec (processWolQueue demo_toInt false) demo_pass tt /\
  iterator_gets demo_pass = [0; 1; 2; 3]%nat.
Proof.
  split; [exact demo_pass_exec |].
  pose proof (iterator_walked_in_order_and_released demo_toInt false demo_pass
                demo_pass_exec) as H.
  assert (E : iterator_count demo_pass = Some 4%nat) by reflexivity.
  rewrite E in H; exact (proj1 H).
Defined.

Lemma shipped_pass_never_deletes_witness :
  exec (processWolQueue demo_toInt false) demo_pass tt /\
  deletions demo_pass = [].
Proof.
  split; [exact demo_pass_exec |].
  exact (shipped_pass_never_deletes demo_toInt demo_pass demo_pass_exec).
Defined.

Lemma pass_updates_only_task_statuses_witness :
  exec (processWolQueue demo_toInt false) demo_pass tt /\
  forallb (queue_update ["t1"; "t2"; "t3"; "note"]) (store_updates demo_pass)
  = true.
Proof.
  split; [exact demo_pass_exec |].
  exact (pass_updates_only_task_statuses demo_toInt false demo_pass
           demo_pass_exec).
Defined.


Lemma linked_pass_three_packets_per_call_witness :
  exec (link (processWolQueue demo_toInt false)) demo_linked_pass tt /\
  List.length (packets demo_linked_pass) = 3%nat.
Proof.
  assert (He : exec (link (processWolQueue demo_toInt false))
                 demo_linked_pass tt)
    by exact (run_returns World cloud (link (processWolQueue demo_toInt false))
                demo_world).
  split; [exact He |].
  destruct (linked_pass_three_packets_per_call demo_toInt false
              demo_linked_pass He) as (t & _ & _ & _ & _).
  reflexivity.
Defined.
(** ** The sketch against the concrete store, continued *)

(** The store after a run is the store before it with the accepted updates
    of the trace applied: the environment changes the store in no other
    way. *)
Lemma cloud_replay (A : Type) (p : prog A) :
  forall w : World,
    store_of (world_after w p) = replay (trace_in w p) (store_of w).
Proof.
  unfold world_after, trace_in.
  induction p as [a | R e k IH]; intros w; [reflexivity |].
  cbn [run].
  destruct (@cloud R e w) as [r w1] eqn:Hc.
  specialize (IH r w1).
  destruct (run cloud (k r) w1) as [[a w2] t] eqn:Hr.
  cbn [fst snd] in *; rewrite IH; unfold replay; cbn [fold_left]; f_equal.
  destruct w as [rdy ip flag queue fail http pl it].
  destruct e; cbn in Hc; unfold cloud_read, cloud_write in Hc; cbn in Hc;
    repeat match type of Hc with
           | context [if ?c then _ else _] => destruct c eqn:?
           | context [match ?x with _ => _ end] => destruct x eqn:?
           end;
    injection Hc as <- <-; try reflexivity;
    unfold store_of; cbn; rewrite ?andb_false_r; try reflexivity;
    match goal with E : String.eqb _ _ = _ |- _ => rewrite E end; reflexivity.
Qed.

Lemma assoc_set_field_other (f k : string) (v : jval)
    (fields : list (string * jval)) :
  f <> k -> assoc f (set_field k v fields) = assoc f fields.
Proof.
  intros Hne; induction fields as [| [k' v'] fields IH]; cbn.
  - destruct (String.eqb_spec f k); [contradiction | reflexivity].
  - destruct (String.eqb_spec k k') as [<- | Hk]; cbn.
    + destruct (String.eqb_spec f k); [contradiction | reflexivity].
    + rewrite IH; reflexivity.
Qed.

(** A status write changes no other field of any task. *)
Lemma field_in_set_status (k v key f : string) (flag : option bool)
    (queue : option (list (string * node))) :
  f <> "status"%string ->
  field_in (flag, option_map (set_status (status_path k) v) queue) key f
  = field_in (flag, queue) key f.
Proof.
  intros Hf; unfold field_in; cbn [snd].
  destruct queue as [q |]; [cbn [option_map] | reflexivity].
  induction q as [| [k0 n0] q IH]; [reflexivity |].
  cbn [set_status]; rewrite status_path_eqb.
  destruct (String.eqb_spec k0 k) as [-> | Hk].
  - destruct n0 as [v0 | fields]; cbn [find_path]; rewrite task_path_eqb;
      destruct (String.eqb k key); try reflexivity.
    + cbn; destruct (String.eqb_spec f "status"); [contradiction | reflexivity].
    + apply assoc_set_field_other; exact Hf.
  - cbn [find_path]; rewrite task_path_eqb.
    destruct (String.eqb k0 key); [reflexivity | exact IH].
Qed.

Lemma queue_update_cases (keys : list string) (o : obs) :
  queue_update keys o = true ->
  (exists k v r, o = Obs (RTDB_setString (status_path k) v) r) \/
  (exists p r, o = Obs (RTDB_deleteNode p) r).
Proof.
  destruct o as [R e r]; destruct e; cbn; try discriminate.
  - intros H; apply andb_prop in H; destruct H as [H _].
    apply existsb_exists in H; destruct H as (k & _ & E).
    apply String.eqb_eq in E; subst path.
    left; exists k, v, r; reflexivity.
  - intros _; right; exists path, r; reflexivity.
Qed.

(** Status writes, replayed: the flag, the ids and every field but
    [status] are as before. *)
Lemma replay_status_writes (keys : list string) (key f : string) :
  f <> "status"%string ->
  forall (t : trace) (s : store),
    forallb (queue_update keys) (store_updates t) = true ->
    deletions t = [] ->
    fst (replay t s) = fst s /\
    ids_in (replay t s) = ids_in s /\
    field_in (replay t s) key f = field_in s key f.
Proof.
  intros Hf; induction t as [| o t IH]; intros s Hu Hd; [repeat split |].
  unfold replay; cbn [fold_left]; fold (replay t (apply_update s o)).
  destruct (is_store_update o) eqn:Ho.
  - unfold store_updates in Hu; cbn [filter] in Hu; rewrite Ho in Hu.
    cbn [forallb] in Hu; apply andb_prop in Hu; destruct Hu as [Hq Hu].
    destruct (queue_update_cases keys o Hq)
      as [(k & v & r & ->) | (p & r & ->)]; [| discriminate Hd].
    destruct (IH (apply_update s (Obs (RTDB_setString (status_path k) v) r))
                Hu Hd) as (H1 & H2 & H3).
    rewrite H1, H2, H3; destruct s as [flag queue]; destruct r; cbn [apply_update];
      repeat split; auto.
    + unfold ids_in; cbn [snd]; destruct queue; cbn; [| reflexivity].
      rewrite set_status_ids; reflexivity.
    + apply field_in_set_status; exact Hf.
  - assert (Hs : apply_update s o = s)
      by (destruct o as [R e r]; destruct e; cbn in Ho; try discriminate Ho;
          reflexivity).
    rewrite Hs; apply IH.
    + unfold store_updates in *; cbn [filter] in Hu; rewrite Ho in Hu; exact Hu.
    + destruct o as [R e r]; destruct e; cbn in Ho; try discriminate Ho;
        exact Hd.
Qed.

(** [X17] As shipped (no pruning), a pass can only change the [status] of
    tasks: whatever the store holds and whichever requests fail, after the
    pass the trigger flag, the ids of the collection and their order, and
    every field other than [status] of every task ([mac] and [delay] in
    particular) are what they were before. *)
Theorem shipped_pass_touches_status_only
    (toInt : string -> Z) (w : World) (key f : string) :
  f <> "status"%string ->
  let s := store_of w in
  let s' := store_of (world_after w (processWolQueue toInt false)) in
  fst s' = fst s /\ ids_in s' = ids_in s /\
  field_in s' key f = field_in s key f.
Proof.
  intros Hf; cbv zeta; rewrite cloud_replay.
  pose proof (run_returns World cloud (processWolQueue toInt false) w) as He.
  apply (replay_status_writes
           (reported_keys (trace_in w (processWolQueue toInt false))));
    [exact Hf | |].
  - apply (pass_update_accounts toInt false); exact He.
  - apply (unpruned_pass_no_deletion toInt); exact He.
Qed.

Lemma shipped_pass_touches_status_only_witness :
  let s := store_of demo_world in
  let s' := store_of (world_after demo_world (processWolQueue demo_toInt false)) in
  "mac"%string <> "status"%string /\
  field_in s "t1" "mac" = Some (JStr "AA:BB:CC:DD:EE:FF") /\
  field_in s' "t1" "mac" = Some (JStr "AA:BB:CC:DD:EE:FF") /\
  field_in s "t1" "status" = Some (JStr "pending") /\
  field_in s' "t1" "status" = Some (JStr "done") /\
  ids_in s' = Some ["t1"; "t2"; "t3"; "note"]%string.
Proof.
  cbv zeta.
  assert (Hf : "mac"%string <> "status"%string) by discriminate.
  destruct (shipped_pass_touches_status_only demo_toInt demo_world "t1" "mac" Hf)
    as (_ & Hids & Hfield).
  split; [exact Hf |]. split; [reflexivity |].
  split; [rewrite Hfield; reflexivity |].
  split; [reflexivity |]. split; [reflexivity |].
  rewrite Hids; reflexivity.
Defined.

Section CloudBootstrapMore.

Variable FIREBASE_ERROR_PATH_NOT_EXIST : Z.

Local Abbreviation boot :=
  (checkAndInitFirebaseStructure FIREBASE_ERROR_PATH_NOT_EXIST).
Local Abbreviation boot_trigger :=
  (checkAndInit_trigger FIREBASE_ERROR_PATH_NOT_EXIST).
Local Abbreviation boot_queue :=
  (checkAndInit_queue FIREBASE_ERROR_PATH_NOT_EXIST).

(** On a reachable store the trigger block keeps a flag that is there and
    writes [false] where there is none; it does not lower the result. *)
Lemma cloud_trigger_result (w : World) (success : bool) :
  reachable w ->
  let r := run cloud (boot_trigger success) w in
  fst (fst r) = success /\
  reachable (snd (fst r)) /\
  w_queue (snd (fst r)) = w_queue w /\
  w_flag (snd (fst r))
  = Some match w_flag w with Some b => b | None => false end.
Proof.
  intros Hok; destruct w as [rdy ip flag queue fail http pl it].
  unfold reachable in *; cbn in Hok.
  unfold checkAndInit_trigger, missing_or_null.
  destruct flag as [b |];
    [| destruct (200 =? FIREBASE_ERROR_PATH_NOT_EXIST) eqn:Hcode ];
    repeat (cbn -[Z.eqb]; unfold cloud_read, cloud_write, read_path;
            rewrite ?Hok, ?Hcode);
    repeat split; auto.
Qed.

Lemma cloud_queue_result (w : World) (success : bool) :
  reachable w ->
  let r := run cloud (boot_queue success) w in
  fst (fst r) = success /\
  reachable (snd (fst r)) /\
  w_flag (snd (fst r)) = w_flag w /\
  w_queue (snd (fst r))
  = Some match w_queue w with Some q => q | None => [] end.
Proof.
  intros Hok; destruct w as [rdy ip flag queue fail http pl it].
  unfold reachable in *; cbn in Hok.
  unfold checkAndInit_queue, missing_or_null.
  destruct queue as [q |];
    [| destruct (200 =? FIREBASE_ERROR_PATH_NOT_EXIST) eqn:Hcode ];
    repeat (cbn -[Z.eqb]; unfold cloud_read, cloud_write, read_path;
            rewrite ?Hok, ?Hcode);
    repeat split; auto.
Qed.

(** [X18] On a store that answers every request, the bootstrapper returns
    [true] and leaves both paths in place: a flag or a collection that was
    there is kept as it was, tasks included; a missing flag becomes [false]
    and a missing collection becomes the empty one. *)
Theorem bootstrap_fills_in_and_keeps (w : World) :
  reachable w ->
  fst (fst (run cloud boot w)) = true /\
  w_flag (world_after w boot)
  = Some match w_flag w with Some b => b | None => false end /\
  w_queue (world_after w boot)
  = Some match w_queue w with Some q => q | None => [] end.
Proof.
  intros Hok; unfold world_after, checkAndInitFirebaseStructure.
  rewrite run_bind.
  pose proof (cloud_trigger_result w true Hok) as Ht; cbv zeta in Ht.
  destruct (run cloud (checkAndInit_trigger _ true) w) as [[s1 w1] t1].
  cbn [fst snd] in Ht; destruct Ht as (-> & Hok1 & Hq1 & Hf1).
  rewrite run_bind.
  pose proof (cloud_queue_result w1 true Hok1) as Hq; cbv zeta in Hq.
  destruct (run cloud (checkAndInit_queue _ true) w1) as [[s2 w2] t2].
  cbn [fst snd] in Hq; destruct Hq as (-> & Hok2 & Hf2 & Hq2).
  cbn; rewrite Hf2, Hf1, Hq2, Hq1; repeat split.
Qed.

End CloudBootstrapMore.

Lemma bootstrap_fills_in_and_keeps_witness :
  let w := world_of None (Some demo_queue) in
  let w' := world_after w (checkAndInitFirebaseStructure demo_notExist) in
  reachable w /\ w_flag w' = Some false /\ w_queue w' = Some demo_queue.
Proof.
  cbv zeta.
  assert (Hok : reachable (world_of None (Some demo_queue)))
    by (intros o p; reflexivity).
  destruct (bootstrap_fills_in_and_keeps demo_notExist _ Hok) as (_ & Hf & Hq).
  split; [exact Hok |]. split; [exact Hf | exact Hq].
Defined.
(** *** A pass on a store that answers every request *)

Section CloudDrain.

Variable toInt : string -> Z.
Variable DELETE_COMPLETED_QUEUE_TASKS : bool.

Local Abbreviation task := (processWolQueue_task toInt DELETE_COMPLETED_QUEUE_TASKS).
Local Abbreviation loop := (processWolQueue_loop toInt DELETE_COMPLETED_QUEUE_TASKS).
Local Abbreviation prune := (processWolQueue_prune DELETE_COMPLETED_QUEUE_TASKS).
Local Abbreviation pass := (processWolQueue toInt DELETE_COMPLETED_QUEUE_TASKS).

Ltac reach_step Hok :=
  cbn -[task_path status_path extract_delay Z.gtb set_status find_path
        String.eqb];
  unfold cloud_read, cloud_write, read_path;
  cbn -[task_path status_path extract_delay Z.gtb set_status find_path
        String.eqb];
  rewrite ?Hok, ?task_path_not_flag, ?task_path_not_queue.

Lemma cloud_task_outcome (w : World) (i : nat) (ids : list string) :
  reachable w ->
  let r := run cloud (task i ids) w in
  let w' := snd (fst r) in
  let t := snd r in
  reachable w' /\ w_iter w' = w_iter w /\
  match nth_error (w_iter w) i with
  | Some (k, Obj _) =>
      match stored w k with
      | Some nd =>
          if pending_node nd then
            exists v,
              (v = "done" \/ v = "error_missing_mac")%string /\
              w_queue w' = option_map (set_status (status_path k) v) (w_queue w)
          else w_queue w' = w_queue w /\ effects t = []
      | None => w_queue w' = w_queue w /\ effects t = []
      end
  | _ => w_queue w' = w_queue w /\ effects t = []
  end.
Proof.
  intros Hok; destruct w as [rdy ip flag queue fail http pl it].
  unfold reachable in Hok; cbn [w_fail] in Hok.
  cbv zeta; unfold processWolQueue_task, stored.
  change (FIREBASE_QUEUE_PATH ++ "/" ++ ?k)%string with (task_path k).
  change (task_path ?k ++ "/status")%string with (status_path k).
  reach_step Hok.
  repeat (break_match; subst; reach_step Hok).
  all: try match goal with
           | H : jsonDataType_eqb (type_of_val ?v) JSON_OBJECT = true |- _ =>
               destruct v; discriminate H
           end.
  all: split; [exact Hok |]; split; [reflexivity |].
  all: cbn [fst snd w_queue with_store with_response option_map pending_node].
  all: repeat match goal with
         | H : assoc _ _ = _ |- _ => rewrite H
         end.
  all: repeat match goal with
         | H : success (data_of _) && _ = _ |- _ =>
             cbn in H; try discriminate H
         end.
  all: repeat match goal with
         | H : String.eqb _ "pending" = _ |- _ => rewrite H
         end.
  all: try (split; reflexivity).
  all: try (eexists; split; [left; reflexivity | reflexivity]).
  all: try (eexists; split; [right; reflexivity | reflexivity]).
  all: try congruence.
  all: match goal with
       | H : String.eqb (if ?b then _ else _) _ = true |- _ =>
           destruct b; discriminate H
       end.
Qed.

Lemma find_path_here (k : string) (nd : node) (post : list (string * node)) :
  forall pre : list (string * node),
    ~ In k (map fst pre) ->
    find_path task_path (task_path k) (pre ++ (k, nd) :: post) = Some (k, nd).
Proof.
  induction pre as [| [k0 n0] pre IH]; cbn; intros Hn.
  - rewrite String.eqb_refl; reflexivity.
  - rewrite task_path_eqb.
    destruct (String.eqb_spec k0 k) as [-> | _]; [exfalso; auto | auto].
Qed.

Lemma set_status_here (k v : string) (fields : list (string * jval))
    (post : list (string * node)) :
  forall pre : list (string * node),
    ~ In k (map fst pre) ->
    set_status (status_path k) v (pre ++ (k, Obj fields) :: post)
    = pre ++ (k, Obj (set_field "status" (JStr v) fields)) :: post.
Proof.
  induction pre as [| [k0 n0] pre IH]; cbn; intros Hn.
  - rewrite String.eqb_refl; reflexivity.
  - rewrite status_path_eqb.
    destruct (String.eqb_spec k0 k) as [-> | _]; [exfalso; auto |].
    rewrite IH; auto.
Qed.

Lemma find_path_In (key k : string) (nd : node) (q : list (string * node)) :
  find_path task_path (task_path key) q = Some (k, nd) -> In (k, nd) q.
Proof.
  induction q as [| [k0 n0] q IH]; cbn; [discriminate |].
  destruct (String.eqb (task_path k0) (task_path key)).
  - intros H; injection H as -> ->; left; reflexivity.
  - intros H; right; apply IH; exact H.
Qed.

Lemma NoDup_app_head (A : Type) (l1 l2 : list A) (x : A) :
  NoDup (l1 ++ x :: l2) -> ~ In x l1.
Proof.
  intros H Hin; apply NoDup_remove_2 in H.
  apply H, in_or_app; left; exact Hin.
Qed.

(** The loop on a store that answers every request, entry by entry: [pre0]
    are the entries of the snapshot the loop is done with, [post] those to
    come; the store agrees with the snapshot on [post] and holds nothing
    pending before. *)
Lemma loop_drains (post : list (string * node)) :
  forall (pre0 q_pre : list (string * node)) (ids : list string) (w : World),
    reachable w ->
    NoDup (map fst (pre0 ++ post)) ->
    w_iter w = pre0 ++ post ->
    w_queue w = Some (q_pre ++ post) ->
    map fst q_pre = map fst pre0 ->
    Forall (fun e => pending_node (snd e) = false) q_pre ->
    let w' := snd (fst (run cloud
                          (loop (List.length post) (List.length pre0) ids) w)) in
    reachable w' /\
    exists q', w_queue w' = Some q' /\
               Forall (fun e => pending_node (snd e) = false) q'.
Proof.
  induction post as [| [k nd] post IH];
    intros pre0 q_pre ids w Hok Hnd Hit Hq Hkeys Hpre; cbv zeta.
  - cbn; split; [exact Hok |].
    exists q_pre; rewrite Hq, app_nil_r; split; [reflexivity | exact Hpre].
  - cbn [List.length processWolQueue_loop]; rewrite run_bind.
    pose proof (cloud_task_outcome w (List.length pre0) ids Hok) as Ht.
    cbv zeta in Ht.
    destruct (run cloud (task (List.length pre0) ids) w) as [[ids1 w1] t1].
    cbn [fst snd] in Ht; destruct Ht as (Hok1 & Hit1 & Ht).
    assert (Hnth : nth_error (w_iter w) (List.length pre0) = Some (k, nd)).
    { rewrite Hit, nth_error_app2, Nat.sub_diag by lia; reflexivity. }
    assert (Hk : ~ In k (map fst q_pre)).
    { rewrite Hkeys; rewrite map_app in Hnd; cbn [map fst] in Hnd.
      apply (NoDup_app_head _ _ _ _ Hnd). }
    assert (Hst : stored w k = Some nd).
    { unfold stored; rewrite Hq, (find_path_here k nd post q_pre Hk);
        reflexivity. }
    rewrite Hnth, Hq in Ht.
    assert (Hnext : exists nd',
              w_queue w1 = Some (q_pre ++ (k, nd') :: post) /\
              pending_node nd' = false).
    { destruct nd as [v | fields].
      - destruct Ht as [-> _]; exists (Leaf v); split; reflexivity.
      - rewrite Hst in Ht.
        destruct (pending_node (Obj fields)) eqn:Hp.
        + destruct Ht as (v & Hv & ->); cbn [option_map].
          rewrite (set_status_here k v fields post q_pre Hk).
          eexists; split; [reflexivity |].
          cbn [pending_node]; rewrite assoc_set_field.
          destruct Hv as [-> | ->]; reflexivity.
        + destruct Ht as [-> _]; exists (Obj fields); split;
            [reflexivity | exact Hp]. }
    destruct Hnext as (nd' & Hq1 & Hp1).
    specialize (IH (pre0 ++ [(k, nd)]) (q_pre ++ [(k, nd')]) ids1 w1 Hok1).
    rewrite <- !app_assoc in IH; cbn [app] in IH.
    rewrite length_app, Nat.add_1_r in IH.
    assert (Hres := IH Hnd (eq_trans Hit1 Hit) Hq1).
    cbv zeta in Hres; revert Hres.
    destruct (run cloud (loop (List.length post) (S (List.length pre0)) ids1) w1)
      as [[ids2 w2] t2].
    cbn [fst snd]; intros Hres; apply Hres.
    + rewrite !map_app, Hkeys; reflexivity.
    + apply Forall_app; split; [exact Hpre |].
      constructor; [exact Hp1 | constructor].
Qed.

Lemma Forall_remove_path (P : string * node -> Prop) (p : string)
    (q : list (string * node)) :
  Forall P q -> Forall P (remove_path p q).
Proof.
  induction 1 as [| [k n] q Hx Hq IH]; cbn; [constructor |].
  destruct (String.eqb (task_path k) p); [exact Hq | constructor; auto].
Qed.

(** Deletions leave nothing pending where nothing was. *)
Lemma delete_keeps_nonpending (ids : list string) :
  forall (w : World) (q : list (string * node)),
    w_queue w = Some q ->
    Forall (fun e => pending_node (snd e) = false) q ->
    exists q',
      w_queue (snd (fst (run cloud (processWolQueue_delete ids) w))) = Some q' /\
      Forall (fun e => pending_node (snd e) = false) q'.
Proof.
  induction ids as [| id ids IH]; intros w q Hq Hnp.
  - cbn; exists q; auto.
  - cbn [processWolQueue_delete].
    change (FIREBASE_QUEUE_PATH ++ "/" ++ id)%string with (task_path id).
    destruct w as [rdy ip flag queue fail http pl it]; cbn [w_queue] in Hq.
    subst queue.
    cbn -[task_path remove_path]; unfold cloud_write;
      cbn -[task_path remove_path].
    destruct (fail Delete (task_path id)) eqn:Hfail;
      cbn -[task_path remove_path];
      match goal with
      | |- context [run cloud (processWolQueue_delete ids) ?w1] =>
          let H := fresh in
          assert (H : exists q',
                    w_queue (snd (fst (run cloud (processWolQueue_delete ids)
                                         w1))) = Some q' /\
                    Forall (fun e => pending_node (snd e) = false) q')
            by (eapply IH;
                [ reflexivity
                | first [exact Hnp | apply Forall_remove_path; exact Hnp] ]);
          revert H;
          destruct (run cloud (processWolQueue_delete ids) w1) as [[u w2] t2];
          cbn [fst snd]; intros H; exact H
      end.
Qed.

Lemma prune_keeps_nonpending (ids : list string) (w : World)
    (q : list (string * node)) :
  w_queue w = Some q ->
  Forall (fun e => pending_node (snd e) = false) q ->
  exists q',
    w_queue (snd (fst (run cloud (prune ids) w))) = Some q' /\
    Forall (fun e => pending_node (snd e) = false) q'.
Proof.
  intros Hq Hnp; unfold processWolQueue_prune.
  destruct (DELETE_COMPLETED_QUEUE_TASKS && negb (Nat.eqb (List.length ids) 0)).
  - cbn [run bind trigger cloud].
    destruct (delete_keeps_nonpending ids w q Hq Hnp) as (q' & Hq' & Hnp').
    revert Hq'.
    destruct (run cloud (processWolQueue_delete ids) w) as [[u w2] t2].
    cbn [fst snd]; intros Hq'; exists q'; auto.
  - cbn; exists q; auto.
Qed.

(** After a pass on a store that answers every request, Firebase being
    ready and the ids distinct, no stored task is pending. *)
Lemma pass_drains (w : World) :
  reachable w -> w_ready w = true -> distinct_ids w ->
  match w_queue (world_after w pass) with
  | Some q' => Forall (fun e => pending_node (snd e) = false) q'
  | None => True
  end.
Proof.
  intros Hok Hrdy Hd; unfold world_after.
  destruct w as [rdy ip flag queue fail http pl it].
  cbn [w_ready] in Hrdy; subst rdy.
  pose proof Hok as Hfail; unfold reachable in Hfail; cbn [w_fail] in Hfail.
  unfold processWolQueue, processWolQueue_readFailed.
  destruct queue as [q |];
    [| cbn -[processWolQueue_loop processWolQueue_prune];
       unfold cloud_read; cbn [w_fail]; rewrite Hfail; cbn; exact I ].
  cbn -[processWolQueue_loop processWolQueue_prune];
    unfold cloud_read; cbn [w_fail]; rewrite Hfail;
    cbn -[processWolQueue_loop processWolQueue_prune].
  destruct q as [| e q]; [cbn; constructor |].
  cbn [List.length Nat.eqb].
  rewrite run_bind.
  match goal with
  | |- context [run cloud (loop ?n 0 []) ?w0] =>
      pose proof (loop_drains (e :: q) [] [] [] w0) as HL;
      cbv zeta in HL; cbn [List.length app map] in HL;
      destruct (run cloud (loop n 0 []) w0) as [[ids1 w1] t1]
  end.
  cbn [fst snd] in HL.
  destruct HL as (Hok1 & q1 & Hq1 & Hnp1);
    try reflexivity; [exact Hok | exact Hd | constructor |].
  cbn -[processWolQueue_prune]; rewrite run_bind.
  match goal with
  | |- context [run cloud (prune ids1) ?w0] =>
      destruct (prune_keeps_nonpending ids1 w0 q1) as (q2 & Hq2 & Hnp2);
      [exact Hq1 | exact Hnp1 |];
      revert Hq2;
      destruct (run cloud (prune ids1) w0) as [[u w2] t2]
  end.
  cbn [fst snd]; intros Hq2; cbn; rewrite Hq2; exact Hnp2.
Qed.

Lemma nonpending_store (w : World) (q : list (string * node)) (key : string) :
  w_queue w = Some q ->
  Forall (fun e => pending_node (snd e) = false) q ->
  ~ pending_in w key.
Proof.
  intros Hq Hnp (fields & Hst & Hp); unfold stored in Hst; rewrite Hq in Hst.
  destruct (find_path task_path (task_path key) q) as [[k nd] |] eqn:Hf;
    [| discriminate Hst].
  cbn in Hst; injection Hst as ->.
  apply find_path_In in Hf.
  rewrite Forall_forall in Hnp; specialize (Hnp _ Hf).
  cbn in Hnp; rewrite Hp in Hnp; discriminate Hnp.
Qed.

Lemma pending_node_in (w : World) (key : string) (nd : node) :
  stored w key = Some nd -> pending_node nd = true -> pending_in w key.
Proof.
  intros Hst Hp; destruct nd as [v | fields]; [discriminate Hp |].
  exists fields; split; [exact Hst |].
  cbn in Hp; destruct (assoc "status" fields) as [[s | n | b] |];
    try discriminate Hp.
  apply String.eqb_eq in Hp; subst s; reflexivity.
Qed.

Lemma pending_in_same_queue (w w' : World) (key : string) :
  w_queue w' = w_queue w -> pending_in w' key -> pending_in w key.
Proof.
  intros Hq (fields & Hst & Hp); exists fields; split; [| exact Hp].
  rewrite <- (stored_same_queue w w' key Hq); exact Hst.
Qed.

(** Where nothing is pending, an iteration has no effect. *)
Lemma task_silent (w : World) (i : nat) (ids : list string) :
  reachable w -> (forall key, ~ pending_in w key) ->
  let r := run cloud (task i ids) w in
  reachable (snd (fst r)) /\ w_queue (snd (fst r)) = w_queue w /\
  effects (snd r) = [].
Proof.
  intros Hok Hnone.
  pose proof (cloud_task_outcome w i ids Hok) as H; cbv zeta in H |- *.
  destruct (run cloud (task i ids) w) as [[ids1 w1] t1]; cbn [fst snd] in *.
  destruct H as (Hok1 & _ & H); split; [exact Hok1 |].
  destruct (nth_error (w_iter w) i) as [[k [v | fields]] |]; try exact H.
  destruct (stored w k) as [nd |] eqn:Hst; [| exact H].
  destruct (pending_node nd) eqn:Hp; [| exact H].
  exfalso; exact (Hnone k (pending_node_in w k nd Hst Hp)).
Qed.

Lemma loop_silent (n : nat) :
  forall (i : nat) (ids : list string) (w : World),
    reachable w -> (forall key, ~ pending_in w key) ->
    let r := run cloud (loop n i ids) w in
    reachable (snd (fst r)) /\ w_queue (snd (fst r)) = w_queue w /\
    effects (snd r) = [].
Proof.
  induction n as [| n IH]; intros i ids w Hok Hnone; cbv zeta.
  - cbn; repeat split; auto.
  - cbn [processWolQueue_loop]; rewrite run_bind.
    pose proof (task_silent w i ids Hok Hnone) as Ht; cbv zeta in Ht.
    destruct (run cloud (task i ids) w) as [[ids1 w1] t1].
    cbn [fst snd] in Ht; destruct Ht as (Hok1 & Hq1 & He1).
    assert (Hnone1 : forall key, ~ pending_in w1 key)
      by (intros key Hp; exact (Hnone key (pending_in_same_queue w w1 key Hq1 Hp))).
    specialize (IH (S i) ids1 w1 Hok1 Hnone1); cbv zeta in IH.
    destruct (run cloud (loop n (S i) ids1) w1) as [[ids2 w2] t2].
    cbn [fst snd] in *; destruct IH as (Hok2 & Hq2 & He2).
    split; [exact Hok2 |]. split; [congruence |].
    rewrite effects_app, He1, He2; reflexivity.
Qed.

(** The only effects of the deletion loop are its deletions. *)
Lemma delete_effects (ids : list string) :
  forall (P : trace) (u : unit),
    exec (processWolQueue_delete ids) P u -> effects P = filter is_delete P.
Proof.
  induction ids as [| id ids IH]; intros P u H.
  - cbn in H; destruct H as [-> _]; reflexivity.
  - cbn [processWolQueue_delete] in H.
    do 2 exec_step H.
    apply exec_bind in H; destruct H as (t1 & u1 & rest & -> & H1 & Hrest).
    specialize (IH _ _ Hrest).
    destruct r0; cbn [negb] in H1; repeat exec_step H1; units;
      unfold effects in *; cbn; rewrite IH; reflexivity.
Qed.

Lemma prune_effects (ids : list string) (P : trace) (u : unit) :
  exec (prune ids) P u -> effects P = filter is_delete P.
Proof.
  intros H; unfold processWolQueue_prune in H.
  destruct (DELETE_COMPLETED_QUEUE_TASKS && negb (Nat.eqb (List.length ids) 0)).
  - exec_step H; unfold effects; cbn.
    apply (delete_effects ids _ _ H).
  - cbn in H; destruct H as [-> _]; reflexivity.
Qed.

Lemma no_effect_no_delete (t : trace) : effects t = [] -> filter is_delete t = [].
Proof.
  unfold effects; induction t as [| [R e r] t IH]; [reflexivity |].
  destruct e; cbn; auto; discriminate.
Qed.

(** A pass over a store where nothing is pending: its only effects are
    deletions. *)
Lemma pass_silent (w : World) :
  reachable w -> (forall key, ~ pending_in w key) ->
  effects (trace_in w pass) = filter is_delete (trace_in w pass).
Proof.
  intros Hok Hnone; unfold trace_in.
  destruct w as [rdy ip flag queue fail http pl it].
  pose proof Hok as Hfail; unfold reachable in Hfail; cbn [w_fail] in Hfail.
  unfold processWolQueue, processWolQueue_readFailed.
  destruct rdy; [| reflexivity].
  destruct queue as [q |];
    [| cbn -[processWolQueue_loop processWolQueue_prune];
       unfold cloud_read; cbn [w_fail]; rewrite Hfail; reflexivity ].
  cbn -[processWolQueue_loop processWolQueue_prune];
    unfold cloud_read; cbn [w_fail]; rewrite Hfail;
    cbn -[processWolQueue_loop processWolQueue_prune].
  destruct q as [| e q]; [reflexivity |].
  cbn [List.length Nat.eqb].
  rewrite run_bind.
  match goal with
  | |- context [run cloud (loop ?n 0 []) ?w0] =>
      pose proof (loop_silent n 0%nat [] w0) as HL;
      cbv zeta in HL;
      destruct (run cloud (loop n 0 []) w0) as [[ids1 w1] t1]
  end.
  cbn [fst snd] in HL.
  destruct HL as (Hok1 & Hq1 & He1);
    [ exact Hok
    | intros key Hp; apply (Hnone key);
      revert Hp; apply pending_in_same_queue; reflexivity |].
  cbn -[processWolQueue_prune]; rewrite run_bind.
  match goal with
  | |- context [run cloud (prune ids1) ?w0] =>
      pose proof (run_exec World unit cloud (prune ids1) w0) as HP;
      destruct (run cloud (prune ids1) w0) as [[u w2] t2]
  end.
  cbn [fst snd] in HP; apply prune_effects in HP.
  cbn [fst snd run bind trigger cloud app].
  pose proof (no_effect_no_delete t1 He1) as Hd1.
  unfold effects in *; cbn [filter is_effect is_delete is_store_update].
  rewrite !filter_app, He1, Hd1.
  cbn [filter is_effect is_delete is_store_update app].
  rewrite !filter_app, HP; reflexivity.
Qed.

(** The same, task by task. *)
Lemma pass_nothing_pending (w : World) (key : string) :
  reachable w -> w_ready w = true -> distinct_ids w ->
  ~ pending_in (world_after w pass) key.
Proof.
  intros Hok Hrdy Hd.
  pose proof (pass_drains w Hok Hrdy Hd) as H.
  destruct (w_queue (world_after w pass)) as [q' |] eqn:Hq.
  - exact (nonpending_store _ q' key Hq H).
  - intros (fields & Hst & _); unfold stored in Hst; rewrite Hq in Hst.
    discriminate Hst.
Qed.

(** [X19] A pass leaves nothing pending: on a store that answers every
    request, Firebase being ready and the task ids distinct, no task is
    stored with status "pending" when the pass is over, whatever the tasks
    hold (a task without [mac] is flagged, one with a malformed [mac] is
    marked done) and whether pruning is on or off. *)
Theorem pass_leaves_nothing_pending (w : World) (key : string) :
  reachable w -> w_ready w = true -> distinct_ids w ->
  ~ pending_in (world_after w pass) key.
Proof. apply pass_nothing_pending. Qed.

(** [X20] A pass over a store where no task is pending sends nothing: on a
    store that answers every request, such a pass calls [sendWOL] for
    nobody, waits for nothing and writes no status; its only effects are the
    deletions of pruning, and with pruning off it has no effect at all. *)
Theorem nothing_pending_nothing_sent (w : World) :
  reachable w -> (forall key, ~ pending_in w key) ->
  effects (trace_in w pass) = filter is_delete (trace_in w pass) /\
  dispatches (trace_in w pass) = [] /\
  (DELETE_COMPLETED_QUEUE_TASKS = false -> effects (trace_in w pass) = []).
Proof.
  intros Hok Hnone.
  pose proof (pass_silent w Hok Hnone) as He.
  split; [exact He |]. split.
  - rewrite <- dispatches_effects, He.
    generalize (trace_in w pass); intros t.
    unfold dispatches; induction t as [| [R e r] t IH]; [reflexivity |].
    destruct e; cbn; auto.
  - intros Hoff; rewrite He.
    pose proof (run_returns World cloud pass w) as Hx.
    fold (trace_in w pass) in Hx; subst DELETE_COMPLETED_QUEUE_TASKS.
    pose proof (unpruned_pass_no_deletion toInt _ Hx) as Hdel.
    revert Hdel; generalize (trace_in w (processWolQueue toInt false)).
    intros t; unfold deletions; induction t as [| [R e r] t IH];
      [reflexivity |].
    destruct e; cbn; auto; discriminate.
Qed.

End CloudDrain.

Lemma demo_world_sound :
  reachable demo_world /\ w_ready demo_world = true /\ distinct_ids demo_world.
Proof.
  split; [intros o p; reflexivity |]. split; [reflexivity |].
  cbn; repeat constructor; cbn; intuition discriminate.
Qed.

Lemma pass_leaves_nothing_pending_witness :
  reachable demo_world /\ w_ready demo_world = true /\
  distinct_ids demo_world /\
  pending_in demo_world "t1" /\ pending_in demo_world "t2" /\
  ~ pending_in (world_after demo_world (processWolQueue demo_toInt false)) "t1" /\
  ~ pending_in (world_after demo_world (processWolQueue demo_toInt false)) "t2".
Proof.
  destruct demo_world_sound as (Hok & Hrdy & Hd).
  split; [exact Hok |]. split; [exact Hrdy |]. split; [exact Hd |].
  split; [eexists; split; reflexivity |].
  split; [eexists; split; reflexivity |].
  split; apply (pass_leaves_nothing_pending demo_toInt false); assumption.
Defined.

Lemma nothing_pending_nothing_sent_witness :
  let w1 := world_after demo_world (processWolQueue demo_toInt false) in
  reachable w1 /\
  (forall key, ~ pending_in w1 key) /\
  effects (trace_in w1 (processWolQueue demo_toInt false)) = [] /\
  dispatches demo_second_pass = [].
Proof.
  cbv zeta.
  destruct demo_world_sound as (Hok & Hrdy & Hd).
  assert (Hok1 : reachable
                   (world_after demo_world (processWolQueue demo_toInt false)))
    by (intros o p; reflexivity).
  assert (Hnone : forall key,
            ~ pending_in
                (world_after demo_world (processWolQueue demo_toInt false)) key)
    by (intros key;
        apply (nonpending_store
                 (world_after demo_world (processWolQueue demo_toInt false))
                 [ ("t1", Obj [ ("mac", JStr "AA:BB:CC:DD:EE:FF");
                                ("delay", JNum 1000); ("status", JStr "done") ]);
                   ("t2", Obj [ ("status", JStr "error_missing_mac") ]);
                   ("t3", Obj [ ("mac", JStr "11:22:33:44:55:66");
                                ("status", JStr "done") ]);
                   ("note", Leaf (JStr "hello")) ]%string key eq_refl);
        repeat constructor).
  destruct (nothing_pending_nothing_sent demo_toInt false _ Hok1 Hnone)
    as (_ & Hdisp & Hoff).
  split; [exact Hok1 |]. split; [exact Hnone |].
  split; [exact (Hoff eq_refl) | reflexivity].
Defined.
(** * Boot and the main loop *)

(** ** Executions of the boot code *)

Lemma bexec_bind (A B : Type) (p : bprog A) (f : A -> bprog B)
    (t : btrace) (b : B) :
  bexec (bbind p f) t b <->
  exists t1 a t2, t = t1 ++ t2 /\ bexec p t1 a /\ bexec (f a) t2 b.
Proof.
  revert t; induction p as [a | R e k IH]; intros t; simpl.
  - split.
    + intros H; exists [], a, t; auto.
    + intros (t1 & a' & t2 & -> & [-> ->] & H); exact H.
  - split.
    + intros (r & t' & -> & H).
      apply IH in H; destruct H as (t1 & a & t2 & -> & H1 & H2).
      exists (BObs e r :: t1), a, t2; repeat split; eauto.
    + intros (t1 & a & t2 & -> & (r & t' & -> & H1) & H2).
      exists r, (t' ++ t2); split; [reflexivity |].
      apply IH; exists t', a, t2; auto.
Qed.

Lemma brun_bexec (S A : Type) (h : bhandler S) (p : bprog A) (s : S) :
  bexec p (snd (brun h p s)) (fst (fst (brun h p s))).
Proof.
  revert s; induction p as [a | R e k IH]; intros s; simpl.
  - auto.
  - destruct (h R e s) as [r s1] eqn:Hh.
    specialize (IH r s1).
    destruct (brun h (k r) s1) as [[a s2] t] eqn:Hr; simpl in *.
    exists r, t; auto.
Qed.

Lemma brun_bind (S A B : Type) (h : bhandler S) (p : bprog A)
    (f : A -> bprog B) (s : S) :
  brun h (bbind p f) s =
    let '(a, s1, t1) := brun h p s in
    let '(b, s2, t2) := brun h (f a) s1 in
    (b, s2, t1 ++ t2).
Proof.
  revert s; induction p as [a | R e k IH]; intros s; cbn.
  - destruct (brun h (f a) s) as [[b s2] t2]; reflexivity.
  - destruct (h R e s) as [r s1].
    rewrite IH.
    destruct (brun h (k r) s1) as [[a s2] t1].
    destruct (brun h (f a) s2) as [[b s3] t2]; reflexivity.
Qed.

Ltac bexec_step H :=
  let r := fresh "r" in
  let t := fresh "t" in
  cbn [bexec bbind btrigger ask] in H;
  lazymatch type of H with
  | exists _ _, _ = _ :: _ /\ _ => destruct H as (r & t & -> & H)
  | _ = [] /\ _ = _ => destruct H as [-> H]; try subst
  end.

Ltac bexec_case H :=
  first
    [ bexec_step H
    | match type of H with
      | bexec (if ?c then _ else _) _ _ => destruct c eqn:?
      | bexec (bbind (if ?c then _ else _) _) _ _ => destruct c eqn:?
      end ].

Lemma waited_app (t1 t2 : btrace) : waited (t1 ++ t2) = waited t1 + waited t2.
Proof.
  unfold waited; induction t1 as [| o t1 IH]; cbn; [reflexivity |].
  rewrite IH; lia.
Qed.

Lemma waited_cons (o : bobs) (t : btrace) :
  waited (o :: t) = bdelay_of o + waited t.
Proof. reflexivity. Qed.

Lemma passes_app (t1 t2 : btrace) : passes (t1 ++ t2) = (passes t1 + passes t2)%nat.
Proof. unfold passes; rewrite filter_app, length_app; reflexivity. Qed.

Lemma steps_app (t1 t2 : btrace) : steps (t1 ++ t2) = steps t1 ++ steps t2.
Proof. apply filter_map_app. Qed.

(** ** The millisecond counter *)

(** The difference of two readings of the counter is the time that passed
    between them, as long as that is less than [2^32] ms, whether or not the
    counter wrapped in between. *)
Lemma elapsed_since (since d : Z) :
  0 <= d < ULONG_RANGE ->
  elapsed ((since + d) mod ULONG_RANGE) (since mod ULONG_RANGE) = d.
Proof.
  intros Hd; unfold elapsed.
  rewrite <- Zminus_mod.
  replace (since + d - since) with d by lia.
  apply Z.mod_small; exact Hd.
Qed.


(** ** [loop] *)


(** ** The waiting loops, on a board whose clock runs in [delay] *)

(** The first of the polls [0 .. n] at which [up] holds, or [n]. *)
Lemma first_poll (up : nat -> bool) (n : nat) :
  exists k, (k <= n)%nat /\
    (forall i, (i < k)%nat -> up i = false) /\
    ((k < n)%nat -> up k = true).
Proof.
  induction n as [| n (k & Hk & Hbefore & Hat)].
  - exists 0%nat; split; [lia | split; intros; lia].
  - destruct (Nat.eq_dec k n) as [-> | Hne].
    + destruct (up n) eqn:E.
      * exists n; split; [lia | split; auto].
      * exists (S n); split; [lia | split; [| lia]].
        intros i Hi; destruct (Nat.eq_dec i n) as [-> | ?]; [exact E |].
        apply Hbefore; lia.
    + exists k; split; [lia | split; auto].
      intros _; apply Hat; lia.
Qed.

Lemma at_clock_same (b : Board) : at_clock b (b_clock b) = b.
Proof. destruct b; reflexivity. Qed.

Section OnTheBoard.

Variable wifi : Z -> wl_status_t.
Variable time : Z -> Z.
Variable firebase : Z -> bool.
Variable ip : IPAddress.
Variable pass_ms : Z.

Local Abbreviation board_at := (fun c => mkBoard c wifi time firebase ip pass_ms).

(** The loop of [connectWiFi] from its poll number [j], when the station
    comes up at poll [j + k] and the polls end at number 60. *)
Lemma connectWiFi_wait_on_board (k : nat) :
  forall (j fuel : nat) (c0 : Z),
    (j + k <= 60)%nat -> (k < fuel)%nat ->
    (forall i, (j <= i < j + k)%nat ->
       is_connected (wifi (c0 + 500 * Z.of_nat i)) = false) ->
    ((j + k < 60)%nat ->
       is_connected (wifi (c0 + 500 * Z.of_nat (j + k))) = true) ->
    exists t,
      brun the_board (connectWiFi_wait fuel (c0 mod ULONG_RANGE))
        (board_at (c0 + 500 * Z.of_nat j))
      = (Some tt, board_at (c0 + 500 * Z.of_nat (j + k)), t) /\
      waited t = 500 * Z.of_nat k.
Proof.
  induction k as [| k IH]; intros j fuel c0 Hjk Hfuel Hdown Hup.
  - destruct fuel as [| fuel]; [lia |].
    rewrite Nat.add_0_r in *.
    cbn [connectWiFi_wait brun bbind btrigger the_board b_wifi b_clock].
    destruct (is_connected (wifi (c0 + 500 * Z.of_nat j))) eqn:E; cbn [negb].
    + eexists; split; reflexivity.
    + assert (j = 60%nat) as ->.
      { destruct (Nat.lt_ge_cases j 60) as [Hlt | Hge]; [| lia].
        discriminate (Hup Hlt). }
      cbn [brun bbind btrigger the_board b_clock].
      rewrite elapsed_since by (unfold ULONG_RANGE; lia).
      change (500 * Z.of_nat 60 <? WIFI_CONNECT_TIMEOUT) with false.
      cbn [brun]; eexists; split; reflexivity.
  - destruct fuel as [| fuel]; [lia |].
    cbn [connectWiFi_wait brun bbind btrigger the_board b_wifi b_clock].
    rewrite (Hdown j) by lia; cbn [negb].
    cbn [brun bbind btrigger the_board b_clock].
    rewrite elapsed_since by (unfold ULONG_RANGE; lia).
    assert (Hlt : (500 * Z.of_nat j <? WIFI_CONNECT_TIMEOUT) = true)
      by (apply Z.ltb_lt; unfold WIFI_CONNECT_TIMEOUT; lia).
    rewrite Hlt.
    cbn [brun bbind btrigger ask the_board board_answers_sketch b_clock].
    unfold at_clock; cbn [b_clock b_wifi b_time b_firebase b_ip b_pass_ms].
    replace (c0 + 500 * Z.of_nat j + 500) with (c0 + 500 * Z.of_nat (S j)) by lia.
    destruct (IH (S j) fuel c0) as (t & Ht & Hw); try lia.
    + intros i Hi; apply Hdown; lia.
    + intros Hi; replace (S j + k)%nat with (j + S k)%nat by lia.
      apply Hup; lia.
    + rewrite Ht.
      replace (S j + k)%nat with (j + S k)%nat by lia.
      eexists; split; [reflexivity |].
      rewrite !waited_cons, Hw; cbn [bdelay_of]; lia.
Qed.

Lemma connectWiFi_on_board (k fuel : nat) (c : Z) :
  (k <= 60)%nat -> (k < fuel)%nat ->
  (forall i, (i < k)%nat -> is_connected (wifi (c + 500 * Z.of_nat i)) = false) ->
  ((k < 60)%nat -> is_connected (wifi (c + 500 * Z.of_nat k)) = true) ->
  exists t,
    brun the_board (connectWiFi fuel) (board_at c)
    = (Some (is_connected (wifi (c + 500 * Z.of_nat k))),
       board_at (c + 500 * Z.of_nat k), t) /\
    waited t = 500 * Z.of_nat k.
Proof.
  intros Hk Hfuel Hdown Hup.
  destruct (connectWiFi_wait_on_board k 0 fuel c) as (t & Ht & Hw); auto.
  { intros i Hi; apply Hdown; lia. }
  cbn [Nat.add] in Ht.
  replace (c + 500 * Z.of_nat 0) with c in Ht by lia.
  unfold connectWiFi.
  cbn [brun bbind btrigger the_board b_clock b_wifi].
  rewrite brun_bind, Ht.
  cbn [brun bbind btrigger the_board b_clock b_wifi].
  eexists; split; [reflexivity |].
  rewrite !waited_cons, waited_app, !waited_cons, Hw.
  cbn [bdelay_of waited fold_right]; lia.
Qed.

(** The loop of [syncTimeNTP] from its poll number [j]. *)
Lemma syncTimeNTP_wait_on_board (k : nat) :
  forall (j fuel : nat) (c0 : Z),
    (j + k <= 60)%nat -> (k < fuel)%nat ->
    (forall i, (j <= i < j + k)%nat ->
       (time (c0 + 500 * Z.of_nat i) <? TIME_SYNCED_FROM) = true) ->
    ((j + k < 60)%nat ->
       (time (c0 + 500 * Z.of_nat (j + k)) <? TIME_SYNCED_FROM) = false) ->
    exists t,
      brun the_board
        (syncTimeNTP_wait fuel (time (c0 + 500 * Z.of_nat j))
           (c0 mod ULONG_RANGE))
        (board_at (c0 + 500 * Z.of_nat j))
      = (Some (time (c0 + 500 * Z.of_nat (j + k))),
         board_at (c0 + 500 * Z.of_nat (j + k)), t) /\
      waited t = 500 * Z.of_nat k.
Proof.
  induction k as [| k IH]; intros j fuel c0 Hjk Hfuel Hdown Hup.
  - destruct fuel as [| fuel]; [lia |].
    rewrite Nat.add_0_r in *.
    cbn [syncTimeNTP_wait].
    destruct (time (c0 + 500 * Z.of_nat j) <? TIME_SYNCED_FROM) eqn:E.
    + assert (j = 60%nat) as ->.
      { destruct (Nat.lt_ge_cases j 60) as [Hlt | Hge]; [| lia].
        discriminate (Hup Hlt). }
      cbn [brun bbind btrigger the_board b_clock].
      rewrite elapsed_since by (unfold ULONG_RANGE; lia).
      change (500 * Z.of_nat 60 <? NTP_SYNC_TIMEOUT) with false.
      cbn [brun]; eexists; split; reflexivity.
    + cbn [brun]; eexists; split; reflexivity.
  - destruct fuel as [| fuel]; [lia |].
    cbn [syncTimeNTP_wait].
    rewrite (Hdown j) by lia.
    cbn [brun bbind btrigger the_board b_clock].
    rewrite elapsed_since by (unfold ULONG_RANGE; lia).
    assert (Hlt : (500 * Z.of_nat j <? NTP_SYNC_TIMEOUT) = true)
      by (apply Z.ltb_lt; unfold NTP_SYNC_TIMEOUT; lia).
    rewrite Hlt.
    cbn [brun bbind btrigger ask the_board board_answers_sketch b_clock].
    unfold at_clock; cbn [b_clock b_wifi b_time b_firebase b_ip b_pass_ms].
    replace (c0 + 500 * Z.of_nat j + 500) with (c0 + 500 * Z.of_nat (S j)) by lia.
    destruct (IH (S j) fuel c0) as (t & Ht & Hw); try lia.
    + intros i Hi; apply Hdown; lia.
    + intros Hi; replace (S j + k)%nat with (j + S k)%nat by lia.
      apply Hup; lia.
    + rewrite Ht.
      replace (S j + k)%nat with (j + S k)%nat by lia.
      eexists; split; [reflexivity |].
      rewrite !waited_cons, Hw; cbn [bdelay_of]; lia.
Qed.

Lemma syncTimeNTP_on_board (k fuel : nat) (c : Z) :
  (k <= 60)%nat -> (k < fuel)%nat ->
  (forall i, (i < k)%nat ->
     (time (c + 500 * Z.of_nat i) <? TIME_SYNCED_FROM) = true) ->
  ((k < 60)%nat ->
     (time (c + 500 * Z.of_nat k) <? TIME_SYNCED_FROM) = false) ->
  exists t,
    brun the_board (syncTimeNTP fuel) (board_at c)
    = (Some (time (c + 500 * Z.of_nat k) >=? TIME_SYNCED_FROM),
       board_at (c + 500 * Z.of_nat k), t) /\
    waited t = 500 * Z.of_nat k.
Proof.
  intros Hk Hfuel Hdown Hup.
  destruct (syncTimeNTP_wait_on_board k 0 fuel c) as (t & Ht & Hw); auto.
  { intros i Hi; apply Hdown; lia. }
  cbn [Nat.add] in Ht.
  replace (c + 500 * Z.of_nat 0) with c in Ht by lia.
  unfold syncTimeNTP.
  cbn [brun bbind btrigger the_board b_clock b_time].
  rewrite brun_bind, Ht.
  cbn [brun bbind btrigger the_board b_clock b_time].
  destruct (time (c + 500 * Z.of_nat k) >=? TIME_SYNCED_FROM);
    cbn [brun bbind btrigger the_board b_clock b_time];
    (eexists; split; [reflexivity |]);
    rewrite !waited_cons, waited_app, !waited_cons, Hw;
    cbn [bdelay_of waited fold_right]; lia.
Qed.

(** The loop of [initFirebase] from its poll number [j]; the polls are
    300 ms apart and end at number 100. *)
Lemma initFirebase_wait_on_board (k : nat) :
  forall (j fuel : nat) (c0 : Z),
    (j + k <= 100)%nat -> (k < fuel)%nat ->
    (forall i, (j <= i < j + k)%nat ->
       firebase (c0 + 300 * Z.of_nat i) = false) ->
    ((j + k < 100)%nat -> firebase (c0 + 300 * Z.of_nat (j + k)) = true) ->
    exists t,
      brun the_board (initFirebase_wait fuel (c0 mod ULONG_RANGE))
        (board_at (c0 + 300 * Z.of_nat j))
      = (Some tt, board_at (c0 + 300 * Z.of_nat (j + k)), t) /\
      waited t = 300 * Z.of_nat k.
Proof.
  induction k as [| k IH]; intros j fuel c0 Hjk Hfuel Hdown Hup.
  - destruct fuel as [| fuel]; [lia |].
    rewrite Nat.add_0_r in *.
    cbn [initFirebase_wait brun bbind btrigger ask the_board
         board_answers_sketch b_firebase b_clock].
    destruct (firebase (c0 + 300 * Z.of_nat j)) eqn:E; cbn [negb].
    + eexists; split; reflexivity.
    + assert (j = 100%nat) as ->.
      { destruct (Nat.lt_ge_cases j 100) as [Hlt | Hge]; [| lia].
        discriminate (Hup Hlt). }
      cbn [brun bbind btrigger the_board b_clock].
      rewrite elapsed_since by (unfold ULONG_RANGE; lia).
      change (300 * Z.of_nat 100 <? FIREBASE_READY_TIMEOUT) with false.
      cbn [brun]; eexists; split; reflexivity.
  - destruct fuel as [| fuel]; [lia |].
    cbn [initFirebase_wait brun bbind btrigger ask the_board
         board_answers_sketch b_firebase b_clock].
    rewrite (Hdown j) by lia; cbn [negb].
    cbn [brun bbind btrigger the_board b_clock].
    rewrite elapsed_since by (unfold ULONG_RANGE; lia).
    assert (Hlt : (300 * Z.of_nat j <? FIREBASE_READY_TIMEOUT) = true)
      by (apply Z.ltb_lt; unfold FIREBASE_READY_TIMEOUT; lia).
    rewrite Hlt.
    cbn [brun bbind btrigger ask the_board board_answers_sketch b_clock].
    unfold at_clock; cbn [b_clock b_wifi b_time b_firebase b_ip b_pass_ms].
    replace (c0 + 300 * Z.of_nat j + 300) with (c0 + 300 * Z.of_nat (S j)) by lia.
    destruct (IH (S j) fuel c0) as (t & Ht & Hw); try lia.
    + intros i Hi; apply Hdown; lia.
    + intros Hi; replace (S j + k)%nat with (j + S k)%nat by lia.
      apply Hup; lia.
    + rewrite Ht.
      replace (S j + k)%nat with (j + S k)%nat by lia.
      eexists; split; [reflexivity |].
      rewrite !waited_cons, Hw; cbn [bdelay_of]; lia.
Qed.

Lemma initFirebase_on_board (k fuel : nat) (c : Z) :
  (k <= 100)%nat -> (k < fuel)%nat ->
  (forall i, (i < k)%nat -> firebase (c + 300 * Z.of_nat i) = false) ->
  ((k < 100)%nat -> firebase (c + 300 * Z.of_nat k) = true) ->
  exists t,
    brun the_board (initFirebase fuel) (board_at c)
    = (Some (firebase (c + 300 * Z.of_nat k)),
       board_at (c + 300 * Z.of_nat k), t) /\
    waited t = 300 * Z.of_nat k /\
    hd_error t = Some (BObs (Firebase_begin fb_config fb_auth) tt).
Proof.
  intros Hk Hfuel Hdown Hup.
  destruct (initFirebase_wait_on_board k 0 fuel c) as (t & Ht & Hw); auto.
  { intros i Hi; apply Hdown; lia. }
  cbn [Nat.add] in Ht.
  replace (c + 300 * Z.of_nat 0) with c in Ht by lia.
  unfold initFirebase.
  cbn [brun bbind btrigger ask the_board board_answers_sketch b_clock b_firebase].
  rewrite brun_bind, Ht.
  cbn [brun bbind btrigger ask the_board board_answers_sketch b_clock b_firebase].
  eexists; split; [reflexivity |]. split; [| reflexivity].
  rewrite !waited_cons, waited_app, !waited_cons, Hw.
  cbn [bdelay_of waited fold_right]; lia.
Qed.

(** One call of [loop] when a pass is due, and when it is not. *)
Lemma loop_due_on_board (c last : Z) :
  QUEUE_CHECK_INTERVAL <= elapsed (c mod ULONG_RANGE) last ->
  brun the_board (loop last) (board_at c)
  = ((c + pass_ms) mod ULONG_RANGE, board_at (c + pass_ms + LOOP_DELAY),
     [ BObs millis (c mod ULONG_RANGE); BObs call_processWolQueue tt;
       BObs millis ((c + pass_ms) mod ULONG_RANGE);
       BObs (sketch (delay LOOP_DELAY)) tt ]).
Proof.
  intros Hdue; unfold loop.
  cbn [brun bbind btrigger the_board b_clock].
  assert (E : (elapsed (c mod ULONG_RANGE) last >=? QUEUE_CHECK_INTERVAL) = true)
    by (rewrite Z.geb_leb; apply Z.leb_le; exact Hdue).
  rewrite E.
  cbn [brun bbind btrigger ask the_board board_answers_sketch b_clock].
  unfold at_clock; cbn [b_clock b_wifi b_time b_firebase b_ip b_pass_ms].
  reflexivity.
Qed.

Lemma loop_idle_on_board (c last : Z) :
  elapsed (c mod ULONG_RANGE) last < QUEUE_CHECK_INTERVAL ->
  brun the_board (loop last) (board_at c)
  = (last, board_at (c + LOOP_DELAY),
     [BObs millis (c mod ULONG_RANGE); BObs (sketch (delay LOOP_DELAY)) tt]).
Proof.
  intros Hidle; unfold loop.
  cbn [brun bbind btrigger the_board b_clock].
  assert (E : (elapsed (c mod ULONG_RANGE) last >=? QUEUE_CHECK_INTERVAL) = false)
    by (rewrite Z.geb_leb; apply Z.leb_gt; exact Hidle).
  rewrite E.
  cbn [brun bbind btrigger ask the_board board_answers_sketch b_clock].
  unfold at_clock; cbn [b_clock b_wifi b_time b_firebase b_ip b_pass_ms].
  reflexivity.
Qed.

Lemma brun_loops_S (n : nat) (last : Z) (b : Board) :
  brun the_board (loops (S n) last) b =
    let '(last1, b1, t1) := brun the_board (loop last) b in
    let '(last2, b2, t2) := brun the_board (loops n last1) b1 in
    (last2, b2, t1 ++ t2).
Proof. cbn [loops]; apply brun_bind. Qed.

Lemma brun_loops_add (n m : nat) :
  forall (last : Z) (b : Board),
    brun the_board (loops (n + m) last) b =
      let '(last1, b1, t1) := brun the_board (loops n last) b in
      let '(last2, b2, t2) := brun the_board (loops m last1) b1 in
      (last2, b2, t1 ++ t2).
Proof.
  induction n as [| n IH]; intros last b.
  - cbn [Nat.add loops brun].
    destruct (brun the_board (loops m last) b) as [[l2 b2] t2]; reflexivity.
  - cbn [Nat.add]; rewrite !brun_loops_S.
    destruct (brun the_board (loop last) b) as [[l1 b1] t1].
    rewrite IH.
    destruct (brun the_board (loops n l1) b1) as [[l2 b2] t2].
    destruct (brun the_board (loops m l2) b2) as [[l3 b3] t3].
    rewrite app_assoc; reflexivity.
Qed.

(** While less than the interval has passed since [base], the calls of
    [loop] start no pass: each takes one pause of 200 ms. *)
Lemma idle_loops_on_board (k : nat) :
  forall (j : nat) (base : Z),
    (j + k <= 75)%nat ->
    exists t,
      brun the_board (loops k (base mod ULONG_RANGE))
        (board_at (base + LOOP_DELAY * Z.of_nat j))
      = (base mod ULONG_RANGE,
         board_at (base + LOOP_DELAY * Z.of_nat (j + k)), t) /\
      passes t = 0%nat.
Proof.
  induction k as [| k IH]; intros j base Hjk.
  - rewrite Nat.add_0_r; cbn [loops brun]; eexists; split; reflexivity.
  - rewrite brun_loops_S, loop_idle_on_board.
    + replace (base + LOOP_DELAY * Z.of_nat j + LOOP_DELAY)
        with (base + LOOP_DELAY * Z.of_nat (S j)) by lia.
      destruct (IH (S j) base) as (t & Ht & Hp); [lia |].
      rewrite Ht.
      replace (S j + k)%nat with (j + S k)%nat by lia.
      eexists; split; [reflexivity |].
      rewrite passes_app, Hp; reflexivity.
    + rewrite elapsed_since;
        unfold LOOP_DELAY, QUEUE_CHECK_INTERVAL, ULONG_RANGE; lia.
Qed.

Lemma poll_period_on_board (c last : Z) :
  QUEUE_CHECK_INTERVAL <= elapsed (c mod ULONG_RANGE) last ->
  exists t75 t76 last76,
    brun the_board (loops 75 last) (board_at c)
    = ((c + pass_ms) mod ULONG_RANGE,
       board_at (c + pass_ms + QUEUE_CHECK_INTERVAL), t75) /\
    passes t75 = 1%nat /\
    brun the_board (loops 76 last) (board_at c)
    = (last76,
       board_at (c + pass_ms + QUEUE_CHECK_INTERVAL + pass_ms + LOOP_DELAY),
       t76) /\
    passes t76 = 2%nat.
Proof.
  intros Hdue.
  destruct (idle_loops_on_board 74 1 (c + pass_ms)) as (t & Ht & Hp); [lia |].
  replace (c + pass_ms + LOOP_DELAY * Z.of_nat 1)
    with (c + pass_ms + LOOP_DELAY) in Ht by lia.
  replace (c + pass_ms + LOOP_DELAY * Z.of_nat (1 + 74))
    with (c + pass_ms + QUEUE_CHECK_INTERVAL) in Ht
    by (unfold LOOP_DELAY, QUEUE_CHECK_INTERVAL; lia).
  assert (H75 : brun the_board (loops 75 last) (board_at c)
          = ((c + pass_ms) mod ULONG_RANGE,
             board_at (c + pass_ms + QUEUE_CHECK_INTERVAL),
             [ BObs millis (c mod ULONG_RANGE); BObs call_processWolQueue tt;
               BObs millis ((c + pass_ms) mod ULONG_RANGE);
               BObs (sketch (delay LOOP_DELAY)) tt ] ++ t)).
  { change 75%nat with (S 74).
    rewrite brun_loops_S, (loop_due_on_board c last Hdue), Ht; reflexivity. }
  do 3 eexists.
  split; [exact H75 |].
  split; [rewrite passes_app, Hp; reflexivity |].
  change 76%nat with (75 + 1)%nat.
  rewrite brun_loops_add, H75.
  change 1%nat with (S 0).
  rewrite brun_loops_S, loop_due_on_board.
  - cbn [loops brun]; split; [reflexivity |].
    rewrite !passes_app, Hp; reflexivity.
  - rewrite elapsed_since; unfold QUEUE_CHECK_INTERVAL, ULONG_RANGE; lia.
Qed.

End OnTheBoard.

(** [X11] On a board whose clock runs only in [delay] and during a queue
    pass: from a call of [loop] that finds a pass due, the 75 calls of [loop]
    that begin with it start exactly one pass, and the call after them
    starts the next.  The next pass thus begins exactly
    [QUEUE_CHECK_INTERVAL] (15000 ms) after the previous one ended, whatever
    the counter reads (it may wrap around on the way) and however long a pass
    takes. *)
Theorem queue_polled_every_interval (b : Board) (last : Z) :
  QUEUE_CHECK_INTERVAL <= elapsed (b_clock b mod ULONG_RANGE) last ->
  passes (btrace_on b (loops 75 last)) = 1%nat /\
  passes (btrace_on b (loops 76 last)) = 2%nat /\
  b_clock (board_after b (loops 75 last))
  = b_clock b + b_pass_ms b + QUEUE_CHECK_INTERVAL /\
  answer_on b (loops 75 last) = (b_clock b + b_pass_ms b) mod ULONG_RANGE.
Proof.
  destruct b as [c wifi time firebase ip p]; cbn [b_clock b_pass_ms].
  intros Hdue.
  destruct (poll_period_on_board wifi time firebase ip p c last Hdue)
    as (t75 & t76 & last76 & H75 & Hp75 & H76 & Hp76).
  unfold btrace_on, board_after, answer_on; rewrite H75, H76.
  repeat split; assumption.
Qed.

(** [X12] On such a board [connectWiFi] always returns, after at most 60
    pauses of 500 ms: it polls the station every 500 ms, stops at the first
    poll [k] that finds it connected, or at poll 60 (30000 ms after the
    start), and answers what the station says at that instant.  The counter
    may wrap around during the wait. *)
Theorem connectWiFi_returns_within_30s (b : Board) (fuel : nat) :
  (61 <= fuel)%nat ->
  exists k : nat,
    (k <= 60)%nat /\
    (forall i, (i < k)%nat ->
       is_connected (b_wifi b (b_clock b + 500 * Z.of_nat i)) = false) /\
    ((k < 60)%nat ->
       is_connected (b_wifi b (b_clock b + 500 * Z.of_nat k)) = true) /\
    answer_on b (connectWiFi fuel)
    = Some (is_connected (b_wifi b (b_clock b + 500 * Z.of_nat k))) /\
    b_clock (board_after b (connectWiFi fuel))
    = b_clock b + 500 * Z.of_nat k /\
    waited (btrace_on b (connectWiFi fuel)) = 500 * Z.of_nat k.
Proof.
  destruct b as [c wifi time firebase ip p]; cbn [b_clock b_wifi].
  intros Hfuel.
  destruct (first_poll
              (fun i => is_connected (wifi (c + 500 * Z.of_nat i))) 60)
    as (k & Hk & Hdown & Hup).
  destruct (connectWiFi_on_board wifi time firebase ip p k fuel c)
    as (t & Ht & Hw); auto; [lia |].
  exists k; unfold answer_on, board_after, btrace_on; rewrite Ht.
  repeat split; auto.
Qed.

(** [X13] On such a board [syncTimeNTP] always returns, after at most 60
    pauses of 500 ms: it reads the wall clock every 500 ms, stops at the
    first reading [k] that is not before 2024, or at reading 60, and answers
    whether that reading is not before 2024. *)
Theorem syncTimeNTP_returns_within_30s (b : Board) (fuel : nat) :
  (61 <= fuel)%nat ->
  exists k : nat,
    (k <= 60)%nat /\
    (forall i, (i < k)%nat ->
       b_time b (b_clock b + 500 * Z.of_nat i) < TIME_SYNCED_FROM) /\
    ((k < 60)%nat ->
       TIME_SYNCED_FROM <= b_time b (b_clock b + 500 * Z.of_nat k)) /\
    answer_on b (syncTimeNTP fuel)
    = Some (b_time b (b_clock b + 500 * Z.of_nat k) >=? TIME_SYNCED_FROM) /\
    b_clock (board_after b (syncTimeNTP fuel))
    = b_clock b + 500 * Z.of_nat k /\
    waited (btrace_on b (syncTimeNTP fuel)) = 500 * Z.of_nat k.
Proof.
  destruct b as [c wifi time firebase ip p]; cbn [b_clock b_time].
  intros Hfuel.
  destruct (first_poll
              (fun i => negb (time (c + 500 * Z.of_nat i) <? TIME_SYNCED_FROM))
              60)
    as (k & Hk & Hdown & Hup).
  destruct (syncTimeNTP_on_board wifi time firebase ip p k fuel c)
    as (t & Ht & Hw); auto; [lia | | |].
  - intros i Hi; apply negb_false_iff; apply Hdown; exact Hi.
  - intros Hlt; apply negb_true_iff; apply Hup; exact Hlt.
  - exists k; unfold answer_on, board_after, btrace_on; rewrite Ht.
    split; [exact Hk |]. split; [| split].
    + intros i Hi; apply Z.ltb_lt, negb_false_iff, Hdown; exact Hi.
    + intros Hlt; apply Z.ltb_ge, negb_true_iff, Hup; exact Hlt.
    + repeat split; auto.
Qed.

(** [X14] On such a board [initFirebase] hands the configured key, URL and
    credentials to [Firebase.begin] first, and always returns, after at most
    100 pauses of 300 ms: it polls [Firebase.ready()] every 300 ms, stops at
    the first poll [k] that finds it ready, or at poll 100 (30000 ms after
    the start), and answers what [Firebase.ready()] says at that instant. *)
Theorem initFirebase_returns_within_30s (b : Board) (fuel : nat) :
  (101 <= fuel)%nat ->
  exists k : nat,
    (k <= 100)%nat /\
    (forall i, (i < k)%nat ->
       b_firebase b (b_clock b + 300 * Z.of_nat i) = false) /\
    ((k < 100)%nat -> b_firebase b (b_clock b + 300 * Z.of_nat k) = true) /\
    answer_on b (initFirebase fuel)
    = Some (b_firebase b (b_clock b + 300 * Z.of_nat k)) /\
    b_clock (board_after b (initFirebase fuel))
    = b_clock b + 300 * Z.of_nat k /\
    waited (btrace_on b (initFirebase fuel)) = 300 * Z.of_nat k /\
    hd_error (btrace_on b (initFirebase fuel))
    = Some (BObs (Firebase_begin fb_config fb_auth) tt).
Proof.
  destruct b as [c wifi time firebase ip p]; cbn [b_clock b_firebase].
  intros Hfuel.
  destruct (first_poll (fun i => firebase (c + 300 * Z.of_nat i)) 100)
    as (k & Hk & Hdown & Hup).
  destruct (initFirebase_on_board wifi time firebase ip p k fuel c)
    as (t & Ht & Hw & Hhd); auto; [lia |].
  exists k; unfold answer_on, board_after, btrace_on; rewrite Ht.
  repeat split; auto.
Qed.

(** ** [setup] *)

Lemma halt_never_returns (fuel : nat) :
  forall (T : btrace) (r : option unit),
    bexec (halt fuel) T r ->
    r = None /\ T = repeat (BObs (sketch (delay 1000)) tt) fuel.
Proof.
  induction fuel as [| fuel IH]; intros T r H.
  - cbn in H; destruct H as [-> ->]; split; reflexivity.
  - cbn [halt] in H; bexec_step H.
    destruct (IH _ _ H) as [-> ->]; units; split; reflexivity.
Qed.

Lemma waited_halt (fuel : nat) :
  waited (repeat (BObs (sketch (delay 1000)) tt) fuel) = 1000 * Z.of_nat fuel.
Proof.
  induction fuel as [| fuel IH]; [reflexivity |].
  cbn [repeat]; rewrite waited_cons, IH; cbn [bdelay_of]; lia.
Qed.

(** The pauses of [halt] call nothing and register nothing. *)
Lemma halt_quiet (fuel : nat) :
  let pauses := repeat (BObs (sketch (delay 1000)) tt) fuel in
  steps pauses = [] /\ registered pauses = [] /\
  wifi_answer pauses = None /\ firebase_answer pauses = None /\
  stream_answer pauses = None.
Proof.
  cbv zeta; induction fuel as [| fuel IH]; [repeat split | exact IH].
Qed.

Section SetupFacts.

Variable firmwareVersion : string.

Local Abbreviation boot := (setup firmwareVersion).

(** Name what comes before a given tail of a trace. *)
Ltac split_prefix :=
  match goal with
  | |- exists before, ?T = before ++ ?tail /\ _ =>
      let rec pre T :=
        lazymatch T with
        | tail => constr:(@nil bobs)
        | ?a :: ?T' => let p := pre T' in constr:(a :: p)
        end in
      let p := pre T in exists p
  end.

Ltac setup_paths H :=
  unfold setup in H; repeat bexec_case H;
  repeat match goal with
         | E : negb ?x = _ |- _ => destruct x; try discriminate E; clear E
         end;
  units.

(** [X15] When [connectWiFi] or [initFirebase] reports failure, [setup]
    never returns: whatever the fuel, all it does from then on is to pause
    1000 ms again and again.  Nothing that comes after the failed step is
    attempted: after a WiFi failure no other function of the sketch is
    called; after a Firebase failure the structure is not checked and the
    stream is not started. *)
Theorem setup_halts_on_failure (fuel : nat) (T : btrace) (r : option unit) :
  bexec (boot fuel) T r ->
  wifi_answer T = Some false \/ firebase_answer T = Some false ->
  r = None /\
  (exists before,
     T = before ++ repeat (BObs (sketch (delay 1000)) tt) fuel /\
     waited before = 0) /\
  (wifi_answer T = Some false -> steps T = ["connectWiFi"]%string) /\
  (firebase_answer T = Some false ->
   steps T = ["connectWiFi"; "syncTimeNTP"; "initFirebase"]%string) /\
  registered T = [].
Proof.
  intros H Hfail; setup_paths H.
  all: try (exfalso; cbn in Hfail; destruct Hfail as [E | E]; discriminate E).
  all: destruct (halt_never_returns fuel _ _ H) as [-> ->].
  all: split; [reflexivity |].
  all: split; [split_prefix; split; reflexivity |].
  all: destruct (halt_quiet fuel) as (Hs & Hr & Hw & Hf & _).
  all: cbn [steps filter_map step_of wifi_answer firebase_answer
            registered registered_of];
       change (filter_map step_of ?t) with (steps t);
       change (filter_map registered_of ?t) with (registered t);
       rewrite ?Hs, ?Hr, ?Hw, ?Hf.
  all: repeat split; auto; discriminate.
Qed.


End SetupFacts.

(** *** The boards, run *)


Lemma queue_polled_every_interval_witness :
  let b := at_clock demo_board 20000 in
  QUEUE_CHECK_INTERVAL <= elapsed (b_clock b mod ULONG_RANGE) 0 /\
  passes (btrace_on b (loops 75 0)) = 1%nat /\
  passes (btrace_on b (loops 76 0)) = 2%nat /\
  b_clock (board_after b (loops 75 0)) = 20000 + 350 + 15000.
Proof.
  cbv zeta.
  assert (Hdue : QUEUE_CHECK_INTERVAL
                 <= elapsed (b_clock (at_clock demo_board 20000)
                             mod ULONG_RANGE) 0)
    by (vm_compute; discriminate).
  destruct (queue_polled_every_interval (at_clock demo_board 20000) 0 Hdue)
    as (H75 & H76 & Hclock & _).
  split; [exact Hdue |]. split; [exact H75 |]. split; [exact H76 |].
  exact Hclock.
Defined.

Lemma connectWiFi_returns_within_30s_witness :
  (61 <= 61)%nat /\
  answer_on lonely_board (connectWiFi 61) = Some false /\
  waited (btrace_on lonely_board (connectWiFi 61)) = 30000 /\
  answer_on demo_board (connectWiFi 61) = Some true /\
  waited (btrace_on demo_board (connectWiFi 61)) = 1500.
Proof.
  assert (Hfuel : (61 <= 61)%nat) by lia.
  destruct (connectWiFi_returns_within_30s lonely_board 61 Hfuel)
    as (k & _ & _ & _ & _ & _ & _).
  split; [exact Hfuel |].
  repeat split; vm_compute; reflexivity.
Defined.

Lemma syncTimeNTP_returns_within_30s_witness :
  (61 <= 61)%nat /\
  answer_on demo_board (syncTimeNTP 61) = Some true /\
  waited (btrace_on demo_board (syncTimeNTP 61)) = 2000 /\
  answer_on lonely_board (syncTimeNTP 61) = Some false /\
  waited (btrace_on lonely_board (syncTimeNTP 61)) = 30000.
Proof.
  assert (Hfuel : (61 <= 61)%nat) by lia.
  destruct (syncTimeNTP_returns_within_30s demo_board 61 Hfuel)
    as (k & _ & _ & _ & _ & _ & _).
  split; [exact Hfuel |].
  repeat split; vm_compute; reflexivity.
Defined.

Lemma initFirebase_returns_within_30s_witness :
  (101 <= 101)%nat /\
  answer_on lonely_board (initFirebase 101) = Some false /\
  waited (btrace_on lonely_board (initFirebase 101)) = 30000 /\
  answer_on demo_board (initFirebase 101) = Some true /\
  waited (btrace_on demo_board (initFirebase 101)) = 2700.
Proof.
  assert (Hfuel : (101 <= 101)%nat) by lia.
  destruct (initFirebase_returns_within_30s lonely_board 101 Hfuel)
    as (k & _ & _ & _ & _ & _ & _).
  split; [exact Hfuel |].
  repeat split; vm_compute; reflexivity.
Defined.

Lemma setup_halts_on_failure_witness :
  let T := btrace_on lonely_board (setup demo_firmware 3) in
  bexec (setup demo_firmware 3) T None /\
  wifi_answer T = Some false /\
  steps T = ["connectWiFi"]%string /\ waited T = 3000.
Proof.
  cbv zeta.
  pose proof (brun_bexec Board (option unit) the_board (setup demo_firmware 3)
                lonely_board) as He.
  destruct (setup_halts_on_failure demo_firmware 3 _ _ He
              (or_introl eq_refl)) as (_ & _ & Hsteps & _).
  split; [exact He |]. split; [reflexivity |].
  split; [exact (Hsteps eq_refl) | reflexivity].
Defined.

